(** * PNLFS: a shallow embedding of [src/pnlfs.c]

    The kernel module keeps three pieces of mutable state per mounted
    volume: the [pnlfs_sb_info] (counters and the two in-memory free
    bitmaps), the in-memory inodes handed out by [iget_locked], and the
    block buffers obtained through [sb_bread].  Every C function of the
    module becomes a function over that state.

    Conventions.
    - C integers are [Z]; the wrap-around of a fixed-width type is written
      out ([u16], [u32], [u64]).  The target is a Linux LP64 kernel:
      [sizeof(long) = 8], [int] is 32 bits.
    - A block buffer is a [list Z] of bytes; array indices and byte offsets
      are [nat].  An access that leaves the buffer is undefined in C: here
      a read outside the buffer sees the byte 0 and a write outside it is
      dropped (stdpp's list insert).
    - A [struct inode *] is represented by its inode number, the key of the
      inode cache; [None] stands for [NULL].
    - A function returns [None] when the C code does not return at all on
      that input: a loop that never exits, or a dereference of [NULL] or of
      an inode pointer that is not live.
    - What belongs to the host is left out: the dentry cache ([d_add],
      [d_invalidate]), dirty marks and write-back ([pnlfs_write_inode],
      [pnlfs_sync_fs]), time stamps, memory exhaustion, and eviction from
      the inode cache (an inode once read stays cached). *)

From Stdlib Require Import ZArith Lia.
From stdpp Require Import base option list gmap.

Open Scope Z_scope.

(** ** Constants *)

(** Modelled from the spec: [pnlfs.h] is not part of the sources.  The spec
    gives the baseline block size of 4096 bytes, a directory entry
    [{inode: u32, filename: bytes[FILENAME_LEN]}], a 16-byte inode record and
    [MAX_DIR_ENTRIES = BLOCK_SIZE / sizeof(dir_entry)]; with 28-byte file
    names an entry has 32 bytes and a directory block holds 128 of them. *)
Definition PNLFS_BLOCK_SIZE : Z := 4096.
Definition PNLFS_FILENAME_LEN : Z := 28.
Definition PNLFS_MAX_DIR_ENTRIES : Z := 128.
Definition sizeof_pnlfs_inode : Z := 16.
Definition sizeof_pnlfs_file : Z := 4 + PNLFS_FILENAME_LEN.

(** [#define PNLFS_WORD_SIZE sizeof(long)] and the two derived macros. *)
Definition PNLFS_WORD_SIZE : Z := 8.
Definition PNLFS_NR_WORDS_IN_BLOCK : Z := PNLFS_BLOCK_SIZE / PNLFS_WORD_SIZE.
Definition PNLFS_NR_INODES_IN_BLOCK : Z := PNLFS_BLOCK_SIZE / sizeof_pnlfs_inode.

(** File-type bits of [<linux/stat.h>]. *)
Definition S_IFMT : Z := 61440.
Definition S_IFDIR : Z := 16384.
Definition S_IFREG : Z := 32768.
Definition S_ISDIR (m : Z) : bool := bool_decide (Z.land m S_IFMT = S_IFDIR).
Definition S_ISREG (m : Z) : bool := bool_decide (Z.land m S_IFMT = S_IFREG).

(** [<linux/fs.h>]: directory entry types passed to [dir_emit]. *)
Definition DT_UNKNOWN : Z := 0.
Definition DT_DIR : Z := 4.
Definition DT_REG : Z := 8.

(** ** C integer arithmetic *)

Definition u16 (x : Z) : Z := x mod 2 ^ 16.
Definition u32 (x : Z) : Z := x mod 2 ^ 32.
Definition u64 (x : Z) : Z := x mod 2 ^ 64.

(** The [int] expression [1 << k] for a shift count [0 <= k <= 31], as the
    kernel is compiled (gcc, [-fno-strict-overflow]): [1 << 31] is
    [INT_MIN].  Larger counts are undefined and never passed. *)
Definition int_shl1 (k : Z) : Z := if decide (k < 31) then 2 ^ k else - 2 ^ 31.

(** Conversion of an [int] operand to [unsigned long] (sign extension). *)
Definition ulong_of_int (x : Z) : Z := u64 x.

(** The mask [(1 << k)] of the bitmap tests, and [~(1 << k)] of the bitmap
    clears, both as [unsigned long] operands. *)
Definition bit_mask (k : Z) : Z := ulong_of_int (int_shl1 k).
Definition clear_mask (k : Z) : Z := ulong_of_int (Z.lnot (int_shl1 k)).

(** ** Superblock information *)

(** [struct pnlfs_sb_info]: the seven counters are [uint32_t]; a bitmap is an
    array of [unsigned long] words, [nr_ifree_blocks * PNLFS_NR_WORDS_IN_BLOCK]
    (resp. [nr_bfree_blocks * ...]) of them as allocated by [pnlfs_fill_super]. *)
Record pnlfs_sb_info := mk_sbi {
  nr_blocks : Z;
  nr_inodes : Z;
  nr_istore_blocks : Z;
  nr_ifree_blocks : Z;
  nr_bfree_blocks : Z;
  nr_free_inodes : Z;
  nr_free_blocks : Z;
  ifree_bitmap : list Z;
  bfree_bitmap : list Z
}.

Definition with_ifree_bitmap (s : pnlfs_sb_info) (bm : list Z) : pnlfs_sb_info :=
  mk_sbi (nr_blocks s) (nr_inodes s) (nr_istore_blocks s) (nr_ifree_blocks s)
         (nr_bfree_blocks s) (nr_free_inodes s) (nr_free_blocks s)
         bm (bfree_bitmap s).

Definition with_bfree_bitmap (s : pnlfs_sb_info) (bm : list Z) : pnlfs_sb_info :=
  mk_sbi (nr_blocks s) (nr_inodes s) (nr_istore_blocks s) (nr_ifree_blocks s)
         (nr_bfree_blocks s) (nr_free_inodes s) (nr_free_blocks s)
         (ifree_bitmap s) bm.

Definition with_nr_free_inodes (s : pnlfs_sb_info) (n : Z) : pnlfs_sb_info :=
  mk_sbi (nr_blocks s) (nr_inodes s) (nr_istore_blocks s) (nr_ifree_blocks s)
         (nr_bfree_blocks s) n (nr_free_blocks s)
         (ifree_bitmap s) (bfree_bitmap s).

Definition with_nr_free_blocks (s : pnlfs_sb_info) (n : Z) : pnlfs_sb_info :=
  mk_sbi (nr_blocks s) (nr_inodes s) (nr_istore_blocks s) (nr_ifree_blocks s)
         (nr_bfree_blocks s) (nr_free_inodes s) n
         (ifree_bitmap s) (bfree_bitmap s).

(** Number of set bits of a bitmap word and of a bitmap. *)
Fixpoint popcount_pos (p : positive) : Z :=
  match p with
  | xH => 1
  | xO q => popcount_pos q
  | xI q => 1 + popcount_pos q
  end.

Definition popcount_word (w : Z) : Z :=
  match w with
  | Zpos p => popcount_pos p
  | _ => 0
  end.

Definition popcount (bm : list Z) : Z :=
  foldr (fun w acc => popcount_word w + acc) 0 bm.

(** Bit [i] of a bitmap, numbered as the allocators number resources:
    64 bits to a word. *)
Definition bitmap_bit (bm : list Z) (i : Z) : bool :=
  Z.testbit (default 0 (bm !! Z.to_nat (i / 64))) (i mod 64).

(** ** Bitmap allocator *)

(** [while ( *cur == 0) { ++cur; if (cur == last) cur = bitmap; }]
    entered with [cur = bitmap]: the index of the first non-zero word among
    the [n] words before [last].  When they are all zero the cursor is back
    at the start with nothing changed, and the loop never exits. *)
Fixpoint scan_words (bm : list Z) (n : nat) (cur : nat) : option nat :=
  match n with
  | O => None
  | S n' =>
      w ← bm !! cur;
      if decide (w = 0) then scan_words bm n' (S cur) else Some cur
  end.

(** [for (bit_trg = 1; !( *cur & (1 << (bit_trg - 1))); ++bit_trg) ;]
    run for shift counts up to 31. *)
Fixpoint scan_bit (w : Z) (fuel : nat) (bit_trg : Z) : option Z :=
  match fuel with
  | O => None
  | S fuel' =>
      if decide (Z.land w (bit_mask (bit_trg - 1)) = 0)
      then scan_bit w fuel' (bit_trg + 1)
      else Some bit_trg
  end.

Definition get_next_ifree (s : pnlfs_sb_info) : option (Z * pnlfs_sb_info) :=
  if decide (nr_free_inodes s = 0) then Some (0, s)
  else
    cur ← scan_words (ifree_bitmap s)
          (Z.to_nat (nr_ifree_blocks s * PNLFS_NR_WORDS_IN_BLOCK)) 0%nat;
    w ← ifree_bitmap s !! cur;
    bit_trg ← scan_bit w 32 1;
    Some (u64 (Z.of_nat cur * PNLFS_WORD_SIZE * 8 + bit_trg - 1),
          with_nr_free_inodes
            (with_ifree_bitmap s
               (<[cur := Z.land w (clear_mask (bit_trg - 1))]> (ifree_bitmap s)))
            (u32 (nr_free_inodes s - 1))).

Definition get_next_bfree (s : pnlfs_sb_info) : option (Z * pnlfs_sb_info) :=
  if decide (nr_free_blocks s = 0) then Some (0, s)
  else
    cur ← scan_words (bfree_bitmap s)
          (Z.to_nat (nr_bfree_blocks s * PNLFS_NR_WORDS_IN_BLOCK)) 0%nat;
    w ← bfree_bitmap s !! cur;
    bit_trg ← scan_bit w 32 1;
    Some (u32 (Z.of_nat cur * PNLFS_WORD_SIZE * 8 + bit_trg - 1),
          with_nr_free_blocks
            (with_bfree_bitmap s
               (<[cur := Z.land w (clear_mask (bit_trg - 1))]> (bfree_bitmap s)))
            (u32 (nr_free_blocks s - 1))).

(** [cur_ifree[ino / PNLFS_WORD_SIZE] |= (1 << (ino % PNLFS_WORD_SIZE));]
    The C statement has no bounds check.  The definition follows it while
    [ino / PNLFS_WORD_SIZE] is a word of the bitmap; past the last word the
    C statement stores outside the allocation, into memory this model does
    not describe, and the definition only records that the bitmap itself
    is not changed.  [ifree_store_in_bounds] says that the store is inside. *)
Definition free_ifree (s : pnlfs_sb_info) (ino : Z) : pnlfs_sb_info :=
  with_ifree_bitmap s
    (alter (fun w => Z.lor w (bit_mask (ino mod PNLFS_WORD_SIZE)))
           (Z.to_nat (ino / PNLFS_WORD_SIZE)) (ifree_bitmap s)).

(** [cur_bfree[block / PNLFS_WORD_SIZE] |= (1 << (block % PNLFS_WORD_SIZE));]
    As for [free_ifree]: past the last word of the bitmap the C statement
    stores outside the allocation, which the definition does not follow;
    [bfree_store_in_bounds] says that the store is inside. *)
Definition free_bfree (s : pnlfs_sb_info) (block : Z) : pnlfs_sb_info :=
  with_bfree_bitmap s
    (alter (fun w => Z.lor w (bit_mask (block mod PNLFS_WORD_SIZE)))
           (Z.to_nat (block / PNLFS_WORD_SIZE)) (bfree_bitmap s)).



(** ** Block buffers and the C string functions *)

(** [b_data[off]]. *)
Definition byte_at (b : list Z) (off : nat) : Z := default 0 (b !! off).

(** [le32_to_cpu] of the four bytes at [off], and the bytes [cpu_to_le32]
    stores. *)
Definition le32_at (b : list Z) (off : nat) : Z :=
  byte_at b off + 2 ^ 8 * byte_at b (off + 1)
  + 2 ^ 16 * byte_at b (off + 2) + 2 ^ 24 * byte_at b (off + 3).

Definition cpu_to_le32 (x : Z) : list Z :=
  [x mod 2 ^ 8; (x / 2 ^ 8) mod 2 ^ 8; (x / 2 ^ 16) mod 2 ^ 8;
   (x / 2 ^ 24) mod 2 ^ 8].

(** Store [data] at byte offset [off] of a buffer. *)
Definition write_bytes (b : list Z) (off : nat) (data : list Z) : list Z :=
  list_inserts off data b.

(** [strncmp(s1, s2, n) == 0].  [s1] is a NUL-terminated name given without
    its terminator, [s2] the bytes from the second pointer onwards. *)
Fixpoint c_strncmp (s1 s2 : list Z) (n : nat) : bool :=
  match n with
  | O => true
  | S n' =>
      let c1 := hd 0 s1 in
      let c2 := hd 0 s2 in
      if decide (c1 = c2)
      then (if decide (c1 = 0) then true else c_strncmp (tl s1) (tl s2) n')
      else false
  end.

(** The [n] bytes [strncpy(dst, src, n)] stores: the characters of [src] up
    to its terminator, then NUL padding. *)
Fixpoint c_strncpy (src : list Z) (n : nat) {struct n} : list Z :=
  match n with
  | O => []
  | S n' =>
      match src with
      | [] => replicate n 0
      | c :: src' =>
          if decide (c = 0) then replicate n 0 else c :: c_strncpy src' n'
      end
  end.

(** The bytes [strcpy(dst, src)] stores: the characters of [src] up to and
    including its terminator. *)
Fixpoint c_strcpy (src : list Z) : list Z :=
  match src with
  | [] => [0]
  | c :: src' => if decide (c = 0) then [0] else c :: c_strcpy src'
  end.

(** [strnlen(s, n)]. *)
Fixpoint c_strnlen (s : list Z) (n : nat) {struct n} : nat :=
  match n with
  | O => O
  | S n' =>
      match s with
      | [] => O
      | c :: s' => if decide (c = 0) then O else S (c_strnlen s' n')
      end
  end.

(** [memcpy(b + dst, b + src, count)] inside one buffer with [dst < src], as
    the kernel's forward copy performs it. *)
Definition c_memcpy (b : list Z) (dst src count : nat) : list Z :=
  write_bytes b dst (take count (drop src b)).

(** ** Directory blocks *)

(** [struct pnlfs_dir_block]: [files[i]] starts at byte [i * 32]; its
    [inode] field is the first four bytes and [filename] the 28 after. *)
Definition file_off (i : nat) : nat := (i * Z.to_nat sizeof_pnlfs_file)%nat.
Definition filename_off (i : nat) : nat := (file_off i + 4)%nat.

Definition file_inode (dir_block : list Z) (i : nat) : Z :=
  le32_at dir_block (file_off i).

Definition file_filename (dir_block : list Z) (i : nat) : list Z :=
  take (Z.to_nat PNLFS_FILENAME_LEN) (drop (filename_off i) dir_block).

(** [!strncmp(name, dir_block->files[i].filename, namelen)], with
    [namelen] the length of the [qstr]. *)
Definition name_matches (name : list Z) (dir_block : list Z) (i : nat) : bool :=
  c_strncmp name (drop (filename_off i) dir_block) (length name).

(** The loop
    [for (i = lo; i < hi; ++i) if (!strncmp(...)) { ...; break; }]
    run over [n = hi - lo] slots: the slot at which it breaks, if it does. *)
Fixpoint scan_dir (name dir_block : list Z) (n : nat) (i : nat) : option nat :=
  match n with
  | O => None
  | S n' =>
      if name_matches name dir_block i then Some i
      else scan_dir name dir_block n' (S i)
  end.

(** ** In-memory inodes and the volume *)

(** [struct pnlfs_inode_info], with the fields of its [vfs_inode] the module
    reads or writes. [i_mode] is a [umode_t] (16 bits). *)
Record pnlfs_inode_info := mk_inode {
  i_mode : Z;
  i_size : Z;
  i_blocks : Z;
  index_block : Z;
  nr_entries : Z
}.

Definition with_nr_entries (p : pnlfs_inode_info) (n : Z) : pnlfs_inode_info :=
  mk_inode (i_mode p) (i_size p) (i_blocks p) (index_block p) n.

Definition with_i_size (p : pnlfs_inode_info) (n : Z) : pnlfs_inode_info :=
  mk_inode (i_mode p) n (i_blocks p) (index_block p) (nr_entries p).

(** The state of a mounted volume: [sb->s_fs_info], the inodes in the inode
    cache keyed by inode number, and the device blocks as [sb_bread] returns
    them ([sb_bread] fails on a block that is absent from the map). *)
Record volume := mk_volume {
  sbi : pnlfs_sb_info;
  icache : gmap Z pnlfs_inode_info;
  blocks : gmap Z (list Z)
}.

Definition with_sbi (v : volume) (s : pnlfs_sb_info) : volume :=
  mk_volume s (icache v) (blocks v).

Definition with_inode (v : volume) (ino : Z) (p : pnlfs_inode_info) : volume :=
  mk_volume (sbi v) (<[ino := p]> (icache v)) (blocks v).

Definition with_block (v : volume) (blk : Z) (b : list Z) : volume :=
  mk_volume (sbi v) (icache v) (<[blk := b]> (blocks v)).

Definition sb_bread (v : volume) (blk : Z) : option (list Z) := blocks v !! blk.

(** ** Inode store *)

Definition pnlfs_iget (v : volume) (ino : Z) : option Z * volume :=
  match icache v !! ino with
  | Some _ => (Some ino, v)
  | None =>
      let cur_block := u32 (1 + ino / PNLFS_NR_INODES_IN_BLOCK) in
      match sb_bread v cur_block with
      | None => (None, v)
      | Some bh =>
          let off := (Z.to_nat (ino mod PNLFS_NR_INODES_IN_BLOCK)
                      * Z.to_nat sizeof_pnlfs_inode)%nat in
          let mode := le32_at bh off in
          (Some ino,
           with_inode v ino
             {| i_mode := u16 mode;
                i_size := le32_at bh (off + 8);
                i_blocks := if S_ISDIR mode then 1
                            else u32 (le32_at bh (off + 12) + 1);
                index_block := le32_at bh (off + 4);
                nr_entries := le32_at bh (off + 12) |})
      end
  end.

(** ** Name resolution *)

Definition pnlfs_inode_by_name (v : volume) (dir : Z) (name : list Z)
  : option Z :=
  pinode_info ← icache v !! dir;
  match sb_bread v (index_block pinode_info) with
  | None => Some 0
  | Some dir_block =>
      match scan_dir name dir_block (Z.to_nat (nr_entries pinode_info)) 0 with
      | Some i => Some (file_inode dir_block i)
      | None => Some 0
      end
  end.

(** The inode [d_add] attaches to the dentry ([None]: a negative dentry). *)
Definition pnlfs_lookup (v : volume) (dir : Z) (name : list Z)
  : option (option Z * volume) :=
  ino ← pnlfs_inode_by_name v dir name;
  if decide (ino = 0) then Some (None, v)
  else Some (pnlfs_iget v ino).

(** ** Namespace operations *)

(** The [dir] argument only provides [dir->i_sb]; [mode] is a [umode_t]. *)
Definition pnlfs_new_inode (v : volume) (mode : Z) : option (option Z * volume) :=
  '(ino, s1) ← get_next_ifree (sbi v);
  let v1 := with_sbi v s1 in
  if decide (ino = 0) then Some (None, v1)
  else
    match pnlfs_iget v1 ino with
    | (None, v2) => Some (None, v2)
    | (Some p, v2) =>
        '(blk, s3) ← get_next_bfree (sbi v2);
        Some (Some p,
              with_inode (with_sbi v2 s3) p
                {| i_mode := mode; i_size := 0; i_blocks := 1;
                   index_block := blk; nr_entries := 0 |})
    end.

Definition pnlfs_create (v : volume) (dir : Z) (name : list Z) (mode : Z)
  : option (Z * volume) :=
  dir_info ← icache v !! dir;
  if decide (PNLFS_MAX_DIR_ENTRIES ≤ nr_entries dir_info) then Some (-1, v)
  else
    let bh := index_block dir_info in
    match sb_bread v bh with
    | None => Some (-1, v)
    | Some _ =>
        '(inode, v1) ← pnlfs_new_inode v mode;
        match inode with
        | None => Some (-1, v1)
        | Some i_ino =>
            dir_info1 ← icache v1 !! dir;
            dir_block ← sb_bread v1 bh;
            let slot := Z.to_nat (nr_entries dir_info1) in
            let b1 := write_bytes dir_block (file_off slot) (cpu_to_le32 i_ino) in
            let b2 := write_bytes b1 (filename_off slot)
                        (c_strncpy name (length name)) in
            Some (0, with_inode (with_block v1 bh b2) dir
                       (with_nr_entries dir_info1
                          (u32 (nr_entries dir_info1 + 1))))
        end
    end.

Definition pnlfs_mkdir (v : volume) (dir : Z) (name : list Z) (mode : Z)
  : option (Z * volume) :=
  dir_info ← icache v !! dir;
  if decide (PNLFS_MAX_DIR_ENTRIES ≤ nr_entries dir_info) then Some (-1, v)
  else
    let bh := index_block dir_info in
    match sb_bread v bh with
    | None => Some (-1, v)
    | Some _ =>
        '(inode, v1) ← pnlfs_new_inode v (Z.lor S_IFDIR mode);
        match inode with
        | None => Some (-1, v1)
        | Some i_ino =>
            dir_info1 ← icache v1 !! dir;
            dir_block ← sb_bread v1 bh;
            let slot := Z.to_nat (nr_entries dir_info1) in
            let b1 := write_bytes dir_block (file_off slot) (cpu_to_le32 i_ino) in
            let b2 := write_bytes b1 (filename_off slot)
                        (c_strncpy name (length name)) in
            Some (0, with_inode (with_block v1 bh b2) dir
                       (with_nr_entries dir_info1
                          (u32 (nr_entries dir_info1 + 1))))
        end
    end.

(** The "delete directory entry" loop of [pnlfs_unlink], [pnlfs_rmdir] and
    [pnlfs_rename]:
    [for (i = 0; i < nr - 1; ++i) if (!strncmp(...)) { memcpy(...); break; }]
    with [nr - 1] and [nr - i - 1] computed in [uint32_t].
    [dir_remove_scan] is the slot at which the loop breaks, if it does, and
    [dir_remove] the directory block after the loop. *)
Definition dir_remove_scan (name dir_block : list Z) (nr : Z) : option nat :=
  scan_dir name dir_block (Z.to_nat (u32 (nr - 1))) 0.

Definition dir_remove (name dir_block : list Z) (nr : Z) : list Z :=
  match dir_remove_scan name dir_block nr with
  | Some i =>
      c_memcpy dir_block (file_off i) (file_off (S i))
        (Z.to_nat (sizeof_pnlfs_file * u32 (nr - Z.of_nat i - 1)))
  | None => dir_block
  end.

(** The block of statements the three functions share, from the loop to
    [mark_buffer_dirty(bh)]: the loop, then [--nr_entries], applied to the
    directory [dir] whose [pnlfs_inode_info] is [dir_info] and whose block,
    as read before the loop, is [dir_block]. *)
Definition delete_dir_entry (v : volume) (dir : Z) (dir_info : pnlfs_inode_info)
    (dir_block name : list Z) : volume :=
  with_inode
    (with_block v (index_block dir_info)
       (dir_remove name dir_block (nr_entries dir_info)))
    dir (with_nr_entries dir_info (u32 (nr_entries dir_info - 1))).

(** [for (i = 0; i < nr_entries; ++i) free_bfree(sb, le32_to_cpu(blocks[i]));] *)
Fixpoint free_file_blocks (s : pnlfs_sb_info) (file_index_block : list Z)
    (n : nat) (i : nat) : pnlfs_sb_info :=
  match n with
  | O => s
  | S n' =>
      free_file_blocks (free_bfree s (le32_at file_index_block (i * 4)))
        file_index_block n' (S i)
  end.

(** [inode] is [dentry->d_inode], [name] is [dentry->d_name]. *)
Definition pnlfs_unlink (v : volume) (dir : Z) (name : list Z) (inode : Z)
  : option (Z * volume) :=
  target ← icache v !! inode;
  if negb (S_ISREG (i_mode target)) then Some (-1, v)
  else
    dir_info ← icache v !! dir;
    if decide (nr_entries dir_info = 0) then Some (-1, v)
    else
      match sb_bread v (index_block dir_info) with
      | None => Some (-1, v)
      | Some dir_block =>
          let v1 := delete_dir_entry v dir dir_info dir_block name in
          inode_info ← icache v1 !! inode;
          match sb_bread v1 (index_block inode_info) with
          | None => Some (-1, v1)
          | Some file_index_block =>
              let s1 := free_file_blocks (sbi v1) file_index_block
                          (Z.to_nat (nr_entries inode_info)) 0 in
              let s2 := free_bfree s1 (index_block inode_info) in
              let s3 := free_ifree s2 inode in
              Some (0, with_sbi v1 s3)
          end
      end.

(** [inode] is [dentry->d_inode]; its link count, which
    [inode_dec_link_count] lowers, belongs to the host and is not kept. *)
Definition pnlfs_rmdir (v : volume) (dir : Z) (name : list Z) (inode : Z)
  : option (Z * volume) :=
  inode_info ← icache v !! inode;
  if negb (S_ISDIR (i_mode inode_info)) then Some (-1, v)
  else
    dir_info ← icache v !! dir;
    if decide (nr_entries dir_info = 0) then Some (-1, v)
    else if decide (nr_entries inode_info ≠ 0) then Some (-1, v)
    else
      match sb_bread v (index_block dir_info) with
      | None => Some (-1, v)
      | Some dir_block =>
          let v1 := delete_dir_entry v dir dir_info dir_block name in
          inode_info1 ← icache v1 !! inode;
          let s1 := free_bfree (sbi v1) (index_block inode_info1) in
          let s2 := free_ifree s1 inode in
          Some (0, with_inode (with_sbi v1 s2) inode
                     (with_i_size inode_info1 0))
      end.

(** [old_inode] and [new_inode] are the [d_inode] of the two dentries; the
    second is [None] when the target name does not exist.  [flags] is not
    read by the C function. *)
Definition pnlfs_rename (v : volume) (old_dir : Z) (old_name : list Z)
    (old_inode : Z) (new_dir : Z) (new_name : list Z) (new_inode : option Z)
    (flags : Z) : option (Z * volume) :=
  let new_inode := default old_inode new_inode in
  inode_info ← icache v !! old_dir;
  if decide (nr_entries inode_info = 0) then Some (-1, v)
  else
    match sb_bread v (index_block inode_info) with
    | None => Some (-1, v)
    | Some dir_block =>
        let v1 := delete_dir_entry v old_dir inode_info dir_block old_name in
        inode_info' ← icache v1 !! new_dir;
        if decide (PNLFS_MAX_DIR_ENTRIES ≤ nr_entries inode_info')
        then Some (-1, v1)
        else
          match sb_bread v1 (index_block inode_info') with
          | None => Some (-1, v1)
          | Some dir_block' =>
              let slot := Z.to_nat (nr_entries inode_info') in
              let b1 := write_bytes dir_block' (file_off slot)
                          (cpu_to_le32 new_inode) in
              let b2 := write_bytes b1 (filename_off slot)
                          (c_strcpy new_name) in
              Some (0, with_inode
                         (with_block v1 (index_block inode_info') b2) new_dir
                         (with_nr_entries inode_info'
                            (u32 (nr_entries inode_info' + 1))))
          end
    end.

(** ** Directory enumeration *)

(** What the caller of [iterate_shared] receives through [ctx->actor]. *)
Record dirent := mk_dirent {
  d_name : list Z;
  d_off : Z;
  d_ino : Z;
  d_type : Z
}.

(** [struct dir_context]: the cursor [pos] and the actor, which stores an
    entry while the caller's buffer has [room] and refuses it afterwards. *)
Record dir_context := mk_ctx {
  pos : Z;
  room : nat;
  emitted : list dirent
}.

Definition with_pos (ctx : dir_context) (p : Z) : dir_context :=
  mk_ctx p (room ctx) (emitted ctx).

(** [dir_emit] of [<linux/fs.h>]. *)
Definition dir_emit (ctx : dir_context) (name : list Z) (ino type : Z)
  : bool * dir_context :=
  match room ctx with
  | O => (false, ctx)
  | S r =>
      (true, mk_ctx (pos ctx) r
               (emitted ctx ++ [mk_dirent name (pos ctx) ino type]))
  end.

(** [dir_emit_dots] of [<linux/fs.h>]; [dir] and [parent] are the inode
    numbers of the open directory and of its parent dentry. *)
Definition dir_emit_dots (dir parent : Z) (ctx : dir_context)
  : bool * dir_context :=
  let step0 :=
    if decide (pos ctx = 0) then
      match dir_emit ctx [46] dir DT_DIR with
      | (false, c) => (false, c)
      | (true, c) => (true, with_pos c 1)
      end
    else (true, ctx) in
  match step0 with
  | (false, c) => (false, c)
  | (true, c) =>
      if decide (pos c = 1) then
        match dir_emit c [46; 46] parent DT_DIR with
        | (false, c') => (false, c')
        | (true, c') => (true, with_pos c' 2)
        end
      else (true, c)
  end.

(** The [for (i = 0; i < nr_entries; ++i)] loop of [pnlfs_readdir]. *)
Fixpoint readdir_loop (dir_block : list Z) (n : nat) (i : nat) (v : volume)
    (ctx : dir_context) : option (Z * volume * dir_context) :=
  match n with
  | O => Some (0, v, ctx)
  | S n' =>
      match pnlfs_iget v (file_inode dir_block i) with
      | (None, _) => None
      | (Some p, v1) =>
          inode ← icache v1 !! p;
          let type :=
            if S_ISDIR (i_mode inode) then DT_DIR
            else if S_ISREG (i_mode inode) then DT_REG else DT_UNKNOWN in
          let filename := file_filename dir_block i in
          match dir_emit ctx
                  (take (c_strnlen filename (Z.to_nat PNLFS_FILENAME_LEN))
                        filename) p type with
          | (false, ctx1) => Some (0, v1, ctx1)
          | (true, ctx1) =>
              readdir_loop dir_block n' (S i) v1 (with_pos ctx1 (pos ctx1 + 1))
          end
      end
  end.

Definition pnlfs_readdir (v : volume) (dir parent : Z) (ctx : dir_context)
  : option (Z * volume * dir_context) :=
  pinode_info ← icache v !! dir;
  if decide (u32 (nr_entries pinode_info + 2) ≤ pos ctx) then Some (0, v, ctx)
  else
    match dir_emit_dots dir parent ctx with
    | (false, ctx1) => Some (0, v, ctx1)
    | (true, ctx1) =>
        match sb_bread v (index_block pinode_info) with
        | None => Some (-1, v, ctx1)
        | Some dir_block =>
            readdir_loop dir_block (Z.to_nat (nr_entries pinode_info)) 0 v ctx1
        end
    end.

(** ** Mounting *)

Definition le64_at (b : list Z) (off : nat) : Z :=
  le32_at b off + 2 ^ 32 * le32_at b (off + 4).

(** The [while (cur_bitmap != last_bitmap)] loop over one block: its
    [PNLFS_NR_WORDS_IN_BLOCK] words, each through [le64_to_cpu]. *)
Definition block_words (bh : list Z) : list Z :=
  (fun k => le64_at bh (k * 8)) <$> seq 0 (Z.to_nat PNLFS_NR_WORDS_IN_BLOCK).

(** [for (; cur_block < last_block; ++cur_block)], which runs [n] times;
    [None] when an [sb_bread] fails. *)
Fixpoint read_bitmap (disk : gmap Z (list Z)) (cur_block : Z) (n : nat)
  : option (list Z) :=
  match n with
  | O => Some []
  | S n' =>
      bh ← disk !! cur_block;
      rest ← read_bitmap disk (cur_block + 1) n';
      Some (block_words bh ++ rest)
  end.

(** Modelled from the spec: [struct pnlfs_superblock] is declared in
    [pnlfs.h]; the spec lists its 32-bit little-endian fields in this order:
    magic, nr_blocks, nr_inodes, nr_istore_blocks, nr_ifree_blocks,
    nr_bfree_blocks, nr_free_inodes, nr_free_blocks. *)
Definition superblock_field (psb : list Z) (k : nat) : Z := le32_at psb (k * 4).

(** [cur_block] and [last_block] are [uint32_t]: a loop runs
    [last_block - cur_block] times when that is positive, and leaves
    [cur_block] at the larger of the two.  The outer [option] is [None] when
    the function does not return (the root inode cannot be read and
    [inode->i_mode] dereferences [NULL]); the inner one is [None] for the
    return value -1. *)
Definition pnlfs_fill_super (disk : gmap Z (list Z)) : option (option volume) :=
  match disk !! 0 with
  | None => Some None
  | Some psb =>
      let istore := superblock_field psb 3 in
      let ifree := superblock_field psb 4 in
      let bfree := superblock_field psb 5 in
      let cur_block := u32 (1 + istore) in
      let last_block := u32 (cur_block + ifree) in
      match read_bitmap disk cur_block (Z.to_nat (last_block - cur_block)) with
      | None => Some None
      | Some ibm =>
          let cur_block' := Z.max cur_block last_block in
          let last_block' := u32 (cur_block' + bfree) in
          match read_bitmap disk cur_block'
                  (Z.to_nat (last_block' - cur_block')) with
          | None => Some None
          | Some bbm =>
              let s := mk_sbi (superblock_field psb 1) (superblock_field psb 2)
                         istore ifree bfree
                         (superblock_field psb 6) (superblock_field psb 7)
                         ibm bbm in
              match pnlfs_iget (mk_volume s ∅ disk) 0 with
              | (None, _) => None
              | (Some _, v) => Some (Some v)
              end
          end
      end
  end.

(** ** A freshly formatted image *)

Definition zero_block : list Z := replicate (Z.to_nat PNLFS_BLOCK_SIZE) 0.

Definition cpu_to_le64 (x : Z) : list Z :=
  cpu_to_le32 (x mod 2 ^ 32) ++ cpu_to_le32 (x / 2 ^ 32).

(** The [n] low bytes of [x], least significant first; a bitmap block holds
    the bits of [x] that way. *)
Fixpoint le_bytes (x : Z) (n : nat) : list Z :=
  match n with
  | O => []
  | S n' => x mod 2 ^ 8 :: le_bytes (x / 2 ^ 8) n'
  end.

Definition bitmap_block (x : Z) : list Z :=
  le_bytes x (Z.to_nat PNLFS_BLOCK_SIZE).

(** Modelled from the spec: the formatter is not part of the sources.  An
    image of [blocks] blocks and [inodes] inodes (at most 32768 of each, so
    that either bitmap fits one block) laid out as the spec has it: the
    superblock, the inode store, the inode bitmap, the block bitmap, then the
    data area, whose first block is the empty directory block of the root,
    inode 0.  A set bit means free: every inode but the root, and every data
    block after the root's, is free, and the counters say so. *)
Definition mkfs (blocks inodes : Z) : gmap Z (list Z) :=
  let istore_blocks :=
    (inodes + PNLFS_NR_INODES_IN_BLOCK - 1) / PNLFS_NR_INODES_IN_BLOCK in
  let root_block := 1 + istore_blocks + 1 + 1 in
  let superblock :=
    write_bytes zero_block 0
      (cpu_to_le32 1129273158 ++ cpu_to_le32 blocks ++ cpu_to_le32 inodes
       ++ cpu_to_le32 istore_blocks ++ cpu_to_le32 1 ++ cpu_to_le32 1
       ++ cpu_to_le32 (inodes - 1)
       ++ cpu_to_le32 (blocks - root_block - 1)) in
  let istore :=
    write_bytes zero_block 0
      (cpu_to_le32 (Z.lor S_IFDIR 493) ++ cpu_to_le32 root_block
       ++ cpu_to_le32 0 ++ cpu_to_le32 0) in
  let ifree := bitmap_block (2 ^ inodes - 2) in
  let bfree := bitmap_block (2 ^ blocks - 2 ^ (root_block + 1)) in
  list_to_map
    ([(0, superblock); (1, istore)]
     ++ ((fun k => (Z.of_nat k, zero_block))
           <$> seq 2 (Z.to_nat (istore_blocks - 1)))
     ++ [(1 + istore_blocks, ifree); (2 + istore_blocks, bfree)]
     ++ ((fun k => (Z.of_nat k, zero_block))
           <$> seq (Z.to_nat root_block) (Z.to_nat (blocks - root_block)))).

(** The image of scenario S1 (64 blocks, 32 inodes, one block each for the
    inode store and the two bitmaps) and the state [pnlfs_fill_super] builds
    from it. *)
Definition fresh_image : gmap Z (list Z) := mkfs 64 32.

Definition fresh_volume : option (option volume) :=
  Eval vm_compute in pnlfs_fill_super fresh_image.

(** Unwrapping of results, for the scenarios run on concrete volumes. *)
Definition no_volume : volume := mk_volume (mk_sbi 0 0 0 0 0 0 0 [] []) ∅ ∅.

Definition mount (disk : gmap Z (list Z)) : volume :=
  match pnlfs_fill_super disk with
  | Some (Some v) => v
  | _ => no_volume
  end.

Definition state_after {A : Type} (r : option (A * volume)) : volume :=
  match r with
  | Some (_, v) => v
  | None => no_volume
  end.

Definition status_of {A : Type} (r : option (A * volume)) : option A :=
  fst <$> r.

Definition block_of (v : volume) (blk : Z) : list Z := default [] (sb_bread v blk).

(** ASCII names used in the scenarios. *)
Definition name_a_txt : list Z := [97; 46; 116; 120; 116].
Definition name_a : list Z := [97].
Definition name_b : list Z := [98].
Definition name_f : list Z := [102].

(** [S_IFREG | 0644] and [0755]. *)
Definition mode_file : Z := Z.lor S_IFREG 420.
Definition mode_dir : Z := 493.

(** ** Scenario volumes *)

(** The mounted S1 image, and the volumes reached from it by one create
    ([/a.txt]) and by two creates ([/a] then [/b]). *)
Definition vol0 : volume :=
  match fresh_volume with
  | Some (Some v) => v
  | _ => no_volume
  end.

Definition vol_a_txt : volume :=
  state_after (pnlfs_create vol0 0 name_a_txt mode_file).

Definition vol_ab : volume :=
  state_after
    (pnlfs_create (state_after (pnlfs_create vol0 0 name_a mode_file))
       0 name_b mode_file).

(** In-memory inodes as they appear in these volumes: a directory
    ([S_IFDIR | 0755]) with index block [blk] and [n] entries, the root
    (index block 4), and an empty regular file. *)
Definition dir_info (blk n : Z) : pnlfs_inode_info := mk_inode 16877 0 1 blk n.
Definition root_info (n : Z) : pnlfs_inode_info := dir_info 4 n.
Definition file_info (blk : Z) : pnlfs_inode_info := mk_inode 33188 0 1 blk 0.

(** A root directory whose only entry, [a.txt], stores inode number 0. *)
Definition vol_zero_entry : volume :=
  with_inode (with_block vol0 4 (write_bytes zero_block 4 name_a_txt))
    0 (root_info 1).

(** The root of [vol_a_txt] with a second entry, named [a], that stores
    inode number 0, behind the entry [a.txt] of inode 1. *)
Definition vol_zero_shadowed : volume :=
  with_inode
    (with_block vol_a_txt 4
       (write_bytes (block_of vol_a_txt 4) (filename_off 1) name_a))
    0 (root_info 2).

(** [n] files created one after the other in [dir], named by two letters. *)
Definition file_name (k : nat) : list Z :=
  [65 + Z.of_nat k / 16; 65 + Z.of_nat k mod 16].

Fixpoint create_files (v : volume) (dir : Z) (k n : nat) : volume :=
  match n with
  | O => v
  | S n' =>
      create_files (state_after (pnlfs_create v dir (file_name k) mode_file))
        dir (S k) n'
  end.

(** The S1 volume after eight creates in the root: inodes 1..8 and blocks
    5..12 are in use. *)
Definition vol8 : volume := create_files vol0 0 0 8.

(** An image of 8 blocks, hence 3 free ones, after three creates: inodes are
    left, blocks are not. *)
Definition vol_no_block : volume := create_files (mount (mkfs 8 32)) 0 0 3.

(** An image of 512 blocks and 512 inodes with two directories, [/a]
    (inode 1) holding the file [f] (inode 3) and [/b] (inode 2) filled
    with [PNLFS_MAX_DIR_ENTRIES] files. *)
Definition vol_full : volume :=
  let v0 := mount (mkfs 512 512) in
  let v1 := state_after (pnlfs_mkdir v0 0 name_a mode_dir) in
  let v2 := state_after (pnlfs_mkdir v1 0 name_b mode_dir) in
  let v3 := state_after (pnlfs_create v2 1 name_f mode_file) in
  create_files v3 2 0 128.

(** What one call of [pnlfs_readdir] handed to the actor (name and offset of
    each entry), and the cursor it left. *)
Definition names_of (r : option (Z * volume * dir_context))
  : list (list Z * Z) :=
  match r with
  | Some (_, _, ctx) => (fun e => (d_name e, d_off e)) <$> emitted ctx
  | None => []
  end.

Definition pos_of (r : option (Z * volume * dir_context)) : option Z :=
  match r with
  | Some (_, _, ctx) => Some (pos ctx)
  | None => None
  end.

(** * Further definitions *)

(** ** Write-back *)

(** Modelled from the spec: [PNLFS_SB_BLOCK_NR] is declared in [pnlfs.h];
    the spec places the superblock in block 0. *)
Definition PNLFS_SB_BLOCK_NR : Z := 0.

(** [inode_trg] is a [uint16_t]; the four fields are stored in the order of
    the record: mode, index_block, filesize, nr_entries. *)
Definition pnlfs_write_inode (v : volume) (inode : Z) : option (Z * volume) :=
  pinode_info ← icache v !! inode;
  let block_trg := u32 (1 + inode / PNLFS_NR_INODES_IN_BLOCK) in
  match sb_bread v block_trg with
  | None => Some (-1, v)
  | Some bh =>
      let inode_trg := u16 (inode mod PNLFS_NR_INODES_IN_BLOCK) in
      let off := (Z.to_nat inode_trg * Z.to_nat sizeof_pnlfs_inode)%nat in
      let b1 := write_bytes bh off (cpu_to_le32 (i_mode pinode_info)) in
      let b2 := write_bytes b1 (off + 4)
                  (cpu_to_le32 (index_block pinode_info)) in
      let b3 := write_bytes b2 (off + 8) (cpu_to_le32 (i_size pinode_info)) in
      let b4 := write_bytes b3 (off + 12)
                  (cpu_to_le32 (nr_entries pinode_info)) in
      Some (0, with_block v block_trg b4)
  end.

(** The [while (cur_bitmap != last_bitmap)] loop of [pnlfs_sync_fs] over one
    block: the [PNLFS_NR_WORDS_IN_BLOCK] words from [cur_bitmap] on, each
    through [cpu_to_le64], stored from the start of the buffer. *)
Definition store_words (bh : list Z) (bitmap : list Z) (cur_bitmap : nat)
  : list Z :=
  write_bytes bh 0
    (mjoin ((fun k => cpu_to_le64 (default 0 (bitmap !! (cur_bitmap + k)%nat)))
              <$> seq 0 (Z.to_nat PNLFS_NR_WORDS_IN_BLOCK))).

(** [for (; cur_block < last_block; ++cur_block)], which runs [n] times;
    the flag is [false] when an [sb_bread] failed, and the blocks stored
    before the failure stay stored. *)
Fixpoint write_bitmap (v : volume) (bitmap : list Z) (cur_block : Z)
    (cur_bitmap : nat) (n : nat) : bool * volume :=
  match n with
  | O => (true, v)
  | S n' =>
      match sb_bread v cur_block with
      | None => (false, v)
      | Some bh =>
          write_bitmap
            (with_block v cur_block (store_words bh bitmap cur_bitmap))
            bitmap (cur_block + 1)
            (cur_bitmap + Z.to_nat PNLFS_NR_WORDS_IN_BLOCK) n'
      end
  end.

(** Modelled from the spec: the offsets of [nr_free_inodes] and
    [nr_free_blocks] in [struct pnlfs_superblock] are those of fields 6 and
    7 of [superblock_field]. *)
Definition pnlfs_sync_fs (v : volume) : Z * volume :=
  let sb_info := sbi v in
  match sb_bread v PNLFS_SB_BLOCK_NR with
  | None => (-1, v)
  | Some superblock =>
      let b1 := write_bytes superblock 24
                  (cpu_to_le32 (nr_free_inodes sb_info)) in
      let b2 := write_bytes b1 28 (cpu_to_le32 (nr_free_blocks sb_info)) in
      let v1 := with_block v PNLFS_SB_BLOCK_NR b2 in
      let cur_block := u32 (1 + nr_istore_blocks sb_info) in
      let last_block := u32 (cur_block + nr_ifree_blocks sb_info) in
      match write_bitmap v1 (ifree_bitmap sb_info) cur_block 0
              (Z.to_nat (last_block - cur_block)) with
      | (false, v2) => (-1, v2)
      | (true, v2) =>
          let cur_block' := Z.max cur_block last_block in
          let last_block' := u32 (cur_block' + nr_bfree_blocks sb_info) in
          match write_bitmap v2 (bfree_bitmap sb_info) cur_block' 0
                  (Z.to_nat (last_block' - cur_block')) with
          | (false, v3) => (-1, v3)
          | (true, v3) => (0, v3)
          end
      end
  end.

(** ** Observations used in the statements *)

(** The 32 bytes of [files[i]]. *)
Definition file_entry (dir_block : list Z) (i : nat) : list Z :=
  take (Z.to_nat sizeof_pnlfs_file) (drop (file_off i) dir_block).

(** The entries of a directory, in slot order: the first [nr_entries]
    records of its block. *)
Definition dir_entries (v : volume) (dir : Z) : option (list (list Z)) :=
  dinfo ← icache v !! dir;
  blk ← sb_bread v (index_block dinfo);
  Some (file_entry blk <$> seq 0 (Z.to_nat (nr_entries dinfo))).

(** What [pnlfs_readdir] reports of slot [i]: the stored name up to its
    first NUL, and the type it derives from a mode. *)
Definition entry_name (dir_block : list Z) (i : nat) : list Z :=
  take (c_strnlen (file_filename dir_block i) (Z.to_nat PNLFS_FILENAME_LEN))
       (file_filename dir_block i).

Definition d_type_of (mode : Z) : Z :=
  if S_ISDIR mode then DT_DIR else if S_ISREG mode then DT_REG else DT_UNKNOWN.

Definition entry_dirent (v : volume) (dir_block : list Z) (i : nat) : dirent :=
  let ino := file_inode dir_block i in
  mk_dirent (entry_name dir_block i) (2 + Z.of_nat i) ino
    (from_option (fun p => d_type_of (i_mode p)) DT_UNKNOWN (icache v !! ino)).

(** The in-memory superblock information is as [pnlfs_fill_super] builds
    it: counters and block counts that fit [uint32_t], bitmaps of
    [PNLFS_NR_WORDS_IN_BLOCK] words per bitmap block, words that fit
    [unsigned long]. *)
Definition sbi_wf (s : pnlfs_sb_info) : Prop :=
  0 ≤ nr_free_inodes s < 2 ^ 32 ∧ 0 ≤ nr_free_blocks s < 2 ^ 32 ∧
  0 ≤ nr_ifree_blocks s < 2 ^ 32 ∧ 0 ≤ nr_bfree_blocks s < 2 ^ 32 ∧
  length (ifree_bitmap s)
  = Z.to_nat (nr_ifree_blocks s * PNLFS_NR_WORDS_IN_BLOCK) ∧
  length (bfree_bitmap s)
  = Z.to_nat (nr_bfree_blocks s * PNLFS_NR_WORDS_IN_BLOCK) ∧
  Forall (fun w => 0 ≤ w < 2 ^ 64) (ifree_bitmap s) ∧
  Forall (fun w => 0 ≤ w < 2 ^ 64) (bfree_bitmap s).

(** [sbi_wf] is decidable, so that it can be settled by evaluation on a
    concrete state. *)
#[global] Instance sbi_wf_dec (s : pnlfs_sb_info) : Decision (sbi_wf s).
Proof. unfold sbi_wf. apply _. Defined.



(** The superblock [psb] carries the layout fields of the mounted volume
    (the fields [pnlfs_fill_super] copied and nothing writes afterwards),
    the layout does not wrap around in [uint32_t], and the blocks of both
    bitmaps can be read. *)
Definition layout_on_disk (v : volume) (psb : list Z) : Prop :=
  let s := sbi v in
  sb_bread v PNLFS_SB_BLOCK_NR = Some psb ∧
  length psb = Z.to_nat PNLFS_BLOCK_SIZE ∧
  superblock_field psb 1 = nr_blocks s ∧
  superblock_field psb 2 = nr_inodes s ∧
  superblock_field psb 3 = nr_istore_blocks s ∧
  superblock_field psb 4 = nr_ifree_blocks s ∧
  superblock_field psb 5 = nr_bfree_blocks s ∧
  0 ≤ nr_istore_blocks s ∧
  1 + nr_istore_blocks s + nr_ifree_blocks s + nr_bfree_blocks s < 2 ^ 32 ∧
  ∀ b, 1 + nr_istore_blocks s ≤ b
       < 1 + nr_istore_blocks s + nr_ifree_blocks s + nr_bfree_blocks s →
       ∃ bh, sb_bread v b = Some bh ∧ length bh = Z.to_nat PNLFS_BLOCK_SIZE.




(** ** Further scenario volumes *)

(** An image of 512 blocks and 64 inodes after thirty creates in the root:
    inodes 1 to 30 are in use, 31 to 63 are free. *)
Definition vol_thirty : volume := create_files (mount (mkfs 512 64)) 0 0 30.

(** The same image after thirty-one creates. *)
Definition vol_thirty_one : volume :=
  create_files (mount (mkfs 512 64)) 0 0 31.

(** Two more ASCII names, and the S1 volume after [/abcdef] was created
    and unlinked again. *)
Definition name_abc : list Z := [97; 98; 99].
Definition name_abcdef : list Z := [97; 98; 99; 100; 101; 102].

Definition vol_stale : volume :=
  state_after
    (pnlfs_unlink (state_after (pnlfs_create vol0 0 name_abcdef mode_file))
       0 name_abcdef 1).

(** The S1 volume with the directory [/a] (inode 1) and the file [/b]
    (inode 2). *)
Definition vol_dir_file : volume :=
  state_after
    (pnlfs_create (state_after (pnlfs_mkdir vol0 0 name_a mode_dir))
       0 name_b mode_file).

(** The S1 volume with the directory [/a] (inode 1) and the file [/a/f]
    (inode 2). *)
Definition vol_a_f : volume :=
  state_after
    (pnlfs_create (state_after (pnlfs_mkdir vol0 0 name_a mode_dir))
       1 name_f mode_file).

Arguments delete_dir_entry : simpl never.
Arguments dir_remove : simpl never.

(** * Proofs *)

(** Closed goals about the scenario volumes are settled by evaluation. *)
Ltac evaluate := vm_compute; reflexivity.
Ltac evaluate_all := vm_compute; repeat split; reflexivity.
Ltac evaluate_range := vm_compute; split; congruence.

(** ** Integer and buffer lemmas *)

Lemma u32_small (x : Z) : 0 ≤ x < 2 ^ 32 → u32 x = x.
Proof. intros H. unfold u32. by apply Z.mod_small. Qed.

Lemma le32_decompose (x : Z) :
  x mod 2 ^ 8 + 2 ^ 8 * ((x / 2 ^ 8) mod 2 ^ 8)
  + 2 ^ 16 * ((x / 2 ^ 16) mod 2 ^ 8) + 2 ^ 24 * ((x / 2 ^ 24) mod 2 ^ 8)
  = x mod 2 ^ 32.
Proof.
  replace (2 ^ 32) with (2 ^ 8 * (2 ^ 8 * (2 ^ 8 * 2 ^ 8))) by reflexivity.
  rewrite !Z.rem_mul_r by lia.
  replace (x / 2 ^ 16) with (x / 2 ^ 8 / 2 ^ 8)
    by (rewrite Z.div_div by lia; reflexivity).
  replace (x / 2 ^ 24) with (x / 2 ^ 8 / 2 ^ 8 / 2 ^ 8)
    by (rewrite !Z.div_div by lia; reflexivity).
  lia.
Qed.

Lemma write_bytes_length (b : list Z) off data :
  length (write_bytes b off data) = length b.
Proof. apply length_inserts. Qed.

Lemma write_bytes_spec (b : list Z) (off : nat) (data : list Z) :
  (off + length data ≤ length b)%nat →
  write_bytes b off data = take off b ++ data ++ drop (off + length data) b.
Proof.
  intros Hlen. unfold write_bytes.
  rewrite <- (take_drop off b) at 1.
  assert (Hoff : length (take off b) = off) by (rewrite length_take; lia).
  rewrite <- (Nat.add_0_r off) at 1. rewrite <- Hoff at 1.
  rewrite (list_inserts_app_r data (take off b) (drop off b) 0). f_equal.
  rewrite <- (take_drop (length data) (drop off b)) at 1.
  rewrite list_inserts_0_r by (rewrite length_take, length_drop; lia).
  by rewrite drop_drop.
Qed.

Lemma write_bytes_take (b : list Z) (off off' : nat) (data : list Z) :
  (off ≤ off')%nat → take off (write_bytes b off' data) = take off b.
Proof.
  intros Hle. apply list_eq. intros j.
  destruct (decide (j < off)%nat) as [Hj|Hj].
  - rewrite !lookup_take_lt by done. unfold write_bytes.
    apply list_lookup_inserts_lt. lia.
  - rewrite !lookup_take_ge by lia. done.
Qed.

Lemma write_bytes_drop (b : list Z) (off : nat) (data : list Z) :
  (off + length data ≤ length b)%nat →
  drop off (write_bytes b off data) = data ++ drop (off + length data) b.
Proof.
  intros Hlen. rewrite write_bytes_spec by done.
  rewrite drop_app_length'; [done|]. rewrite length_take. lia.
Qed.

Lemma byte_at_write_lt (b : list Z) (off j : nat) (data : list Z) :
  (j < off)%nat → byte_at (write_bytes b off data) j = byte_at b j.
Proof.
  intros Hj. unfold byte_at, write_bytes.
  by rewrite list_lookup_inserts_lt.
Qed.

Lemma le32_at_write_later (b : list Z) (off off' : nat) (data : list Z) :
  (off + 4 ≤ off')%nat → le32_at (write_bytes b off' data) off = le32_at b off.
Proof.
  intros H. unfold le32_at. rewrite !byte_at_write_lt by lia. done.
Qed.

Lemma le32_at_write_same (b : list Z) (off : nat) (x : Z) :
  (off + 4 ≤ length b)%nat →
  le32_at (write_bytes b off (cpu_to_le32 x)) off = u32 x.
Proof.
  intros H. unfold le32_at, byte_at, write_bytes.
  rewrite !list_lookup_inserts by (simpl; lia).
  replace (off - off)%nat with 0%nat by lia.
  replace (off + 1 - off)%nat with 1%nat by lia.
  replace (off + 2 - off)%nat with 2%nat by lia.
  replace (off + 3 - off)%nat with 3%nat by lia.
  simpl. apply le32_decompose.
Qed.

Lemma le32_at_agree (b b' : list Z) (m off : nat) :
  take m b = take m b' → (off + 4 ≤ m)%nat → le32_at b off = le32_at b' off.
Proof.
  intros Heq Hle.
  assert (Hb : ∀ j, (j < m)%nat → byte_at b j = byte_at b' j).
  { intros j Hj. unfold byte_at.
    rewrite <- (lookup_take_lt b m j), <- (lookup_take_lt b' m j) by done.
    by rewrite Heq. }
  unfold le32_at. rewrite !Hb by lia. done.
Qed.

(** ** String lemmas *)

Lemma c_strncmp_take (s1 s2 : list Z) (n : nat) :
  c_strncmp s1 s2 n = c_strncmp s1 (take n s2) n.
Proof.
  revert s1 s2. induction n as [|n IH]; intros s1 s2; [done|].
  destruct s2 as [|c2 s2]; [done|]. simpl.
  repeat case_decide; auto.
Qed.


Lemma c_strncmp_strcpy (name rest : list Z) (n : nat) :
  c_strncmp name (c_strcpy name ++ rest) n = true.
Proof.
  revert n. induction name as [|c name IH]; intros [|n]; try done; simpl.
  destruct (decide (c = 0)) as [->|Hc]; simpl; [done|].
  rewrite decide_True by done. apply IH.
Qed.

Lemma c_strncpy_length (src : list Z) (n : nat) : length (c_strncpy src n) = n.
Proof.
  revert src. induction n as [|n IH]; intros src; [done|].
  destruct src as [|c src]; simpl.
  - f_equal. apply length_replicate.
  - case_decide; simpl; f_equal; [apply length_replicate | apply IH].
Qed.

Lemma c_strcpy_length (src : list Z) : (length (c_strcpy src) ≤ S (length src))%nat.
Proof.
  induction src as [|c src IH]; simpl; [lia|].
  case_decide; simpl; lia.
Qed.

(** ** Directory scans *)

Lemma scan_dir_None (name blk : list Z) (n i : nat) :
  scan_dir name blk n i = None ↔
  ∀ k, (i ≤ k < i + n)%nat → name_matches name blk k = false.
Proof.
  revert i. induction n as [|n IH]; intros i; simpl.
  - split; [intros _ k Hk; lia | done].
  - destruct (name_matches name blk i) eqn:Hm.
    + split; [done|]. intros H. rewrite H in Hm by lia. done.
    + rewrite IH. split; intros H k Hk.
      * destruct (decide (k = i)) as [->|]; [done|]. apply H. lia.
      * apply H. lia.
Qed.

Lemma scan_dir_Some (name blk : list Z) (n i k : nat) :
  scan_dir name blk n i = Some k ↔
  (i ≤ k < i + n)%nat ∧ name_matches name blk k = true ∧
  ∀ j, (i ≤ j < k)%nat → name_matches name blk j = false.
Proof.
  revert i. induction n as [|n IH]; intros i; simpl.
  - split; [done | intros [? _]; lia].
  - destruct (name_matches name blk i) eqn:Hm.
    + split.
      * intros [= <-]. split; [lia|]. split; [done|]. intros j Hj. lia.
      * intros (Hk & Hmk & Hlt). f_equal.
        destruct (decide (i = k)) as [|Hne]; [done|].
        rewrite Hlt in Hm by lia. done.
    + rewrite IH. split.
      * intros (Hk & Hmk & Hlt). split; [lia|]. split; [done|].
        intros j Hj. destruct (decide (j = i)) as [->|]; [done|]. apply Hlt. lia.
      * intros (Hk & Hmk & Hlt).
        assert (k ≠ i) by (intros ->; congruence).
        split; [lia|]. split; [done|]. intros j Hj. apply Hlt. lia.
Qed.

Lemma file_off_eq (i : nat) : file_off i = (i * 32)%nat.
Proof. reflexivity. Qed.

Lemma filename_off_eq (i : nat) : filename_off i = (i * 32 + 4)%nat.
Proof. reflexivity. Qed.

Lemma take_drop_agree (b b' : list Z) (m off len : nat) :
  take m b = take m b' → (off + len ≤ m)%nat →
  take len (drop off b) = take len (drop off b').
Proof.
  intros Heq Hle. rewrite !take_drop_commute.
  replace (take (off + len) b) with (take (off + len) (take m b))
    by (rewrite take_take; f_equal; lia).
  replace (take (off + len) b') with (take (off + len) (take m b'))
    by (rewrite take_take; f_equal; lia).
  by rewrite Heq.
Qed.

(** A name of at most [PNLFS_FILENAME_LEN] bytes is compared with the
    [filename] field alone: the test at slot [j] only reads the block
    before slot [j + 1]. *)
Lemma name_matches_agree (name b b' : list Z) (m j : nat) :
  take (file_off m) b = take (file_off m) b' →
  (length name ≤ Z.to_nat PNLFS_FILENAME_LEN)%nat → (j < m)%nat →
  name_matches name b j = name_matches name b' j.
Proof.
  intros Heq Hlen Hj. unfold name_matches.
  rewrite (c_strncmp_take _ (drop _ b)), (c_strncmp_take _ (drop _ b')).
  f_equal. apply (take_drop_agree _ _ (file_off m)); [done|].
  rewrite filename_off_eq, file_off_eq.
  change (Z.to_nat PNLFS_FILENAME_LEN) with 28%nat in Hlen. lia.
Qed.

Lemma scan_dir_agree (name b b' : list Z) (m n i : nat) :
  take (file_off m) b = take (file_off m) b' →
  (length name ≤ Z.to_nat PNLFS_FILENAME_LEN)%nat → (i + n ≤ m)%nat →
  scan_dir name b n i = scan_dir name b' n i.
Proof.
  intros Heq Hlen. revert i. induction n as [|n IH]; intros i Hi; [done|].
  simpl. rewrite (name_matches_agree name b b' m i) by (done || lia).
  destruct (name_matches name b' i); [done|]. apply IH. lia.
Qed.

Lemma scan_dir_extend (name b : list Z) (n n' i k : nat) :
  scan_dir name b n i = Some k → (n ≤ n')%nat → scan_dir name b n' i = Some k.
Proof.
  rewrite !scan_dir_Some. intros (Hk & Hm & Hlt) Hn. repeat split; auto; lia.
Qed.

(** ** The allocators return whenever a bit is set *)


Lemma land_lor_all_zero (w : Z) (masks : list Z) :
  Forall (fun m => Z.land w m = 0) masks →
  Z.land w (foldr Z.lor 0 masks) = 0.
Proof.
  induction 1 as [|m masks Hm _ IH]; simpl.
  - apply Z.land_0_r.
  - by rewrite Z.land_lor_distr_r, Hm, IH.
Qed.

Lemma scan_bit_None (w : Z) (fuel : nat) (b : Z) :
  scan_bit w fuel b = None →
  ∀ k, b ≤ k < b + Z.of_nat fuel → Z.land w (bit_mask (k - 1)) = 0.
Proof.
  revert b. induction fuel as [|fuel IH]; intros b; simpl; [lia|].
  case_decide as Hz; [|done]. intros Hrest k Hk.
  destruct (decide (k = b)) as [->|]; [done|].
  apply (IH _ Hrest). lia.
Qed.

Lemma scan_bit_Some (w : Z) (fuel : nat) (b r : Z) :
  scan_bit w fuel b = Some r →
  b ≤ r < b + Z.of_nat fuel ∧ Z.land w (bit_mask (r - 1)) ≠ 0.
Proof.
  revert b. induction fuel as [|fuel IH]; intros b; simpl; [done|].
  case_decide as Hz.
  - intros Hr. apply IH in Hr. split; [lia | tauto].
  - intros [= <-]. split; [lia | done].
Qed.

(** The 32 tests of the bit loop cover the 64 bits of a word: the last one,
    with [1 << 31] sign-extended, looks at bits 31 to 63 at once. *)
Lemma scan_bit_finds (w : Z) :
  0 < w < 2 ^ 64 → ∃ r, scan_bit w 32 1 = Some r ∧ 1 ≤ r ≤ 32.
Proof.
  intros Hw. destruct (scan_bit w 32 1) as [r|] eqn:Hscan.
  - exists r. split; [done|]. apply scan_bit_Some in Hscan. lia.
  - exfalso.
    assert (Hall : Forall (fun m => Z.land w m = 0)
                     ((fun k => bit_mask (Z.of_nat k)) <$> seq 0 32)).
    { apply Forall_fmap, Forall_seq. intros k Hk. simpl.
      replace (Z.of_nat k) with (Z.of_nat k + 1 - 1) by lia.
      apply (scan_bit_None w 32 1 Hscan). lia. }
    apply land_lor_all_zero in Hall.
    change (foldr Z.lor 0 _) with (Z.ones 64) in Hall.
    rewrite Z.land_ones in Hall by lia.
    rewrite Z.mod_small in Hall by lia. lia.
Qed.

Lemma scan_words_finds (bm : list Z) (n cur i : nat) (w : Z) :
  (cur ≤ i < cur + n)%nat → (cur + n ≤ length bm)%nat →
  bm !! i = Some w → w ≠ 0 →
  ∃ j w', scan_words bm n cur = Some j ∧ bm !! j = Some w' ∧ w' ≠ 0.
Proof.
  revert cur. induction n as [|n IH]; intros cur Hi Hlen Hw Hnz; [lia|].
  simpl. destruct (lookup_lt_is_Some_2 bm cur) as [w0 Hw0]; [lia|].
  rewrite Hw0. simpl. case_decide as Hz.
  - apply IH; try done; [|lia].
    destruct (decide (i = cur)) as [->|]; [congruence | lia].
  - eauto.
Qed.

(** [get_next_ifree] returns whenever the counter is not zero and some word
    of the bitmap is not zero; the number it returns is at most 31 above a
    multiple of 64, and the counter goes down by one. *)
Lemma get_next_ifree_returns (s : pnlfs_sb_info) (i : nat) (w : Z) :
  0 < nr_free_inodes s < 2 ^ 32 →
  length (ifree_bitmap s)
  = Z.to_nat (nr_ifree_blocks s * PNLFS_NR_WORDS_IN_BLOCK) →
  Forall (fun x => 0 ≤ x < 2 ^ 64) (ifree_bitmap s) →
  ifree_bitmap s !! i = Some w → w ≠ 0 →
  ∃ ino s',
    get_next_ifree s = Some (ino, s') ∧
    nr_free_inodes s' = nr_free_inodes s - 1 ∧
    0 ≤ ino mod 64 ≤ 31.
Proof.
  intros Hnr Hlen Hrange Hw Hnz.
  pose proof (lookup_lt_Some _ _ _ Hw) as Hi.
  destruct (scan_words_finds (ifree_bitmap s)
              (Z.to_nat (nr_ifree_blocks s * PNLFS_NR_WORDS_IN_BLOCK))
              0 i w) as (j & w' & Hscan & Hw' & Hnz'); try done; [lia..|].
  assert (Hr : 0 ≤ w' < 2 ^ 64).
  { rewrite Forall_lookup in Hrange. exact (Hrange _ _ Hw'). }
  destruct (scan_bit_finds w') as (r & Hbit & Hr'); [lia|].
  eexists _, _. unfold get_next_ifree.
  rewrite decide_False by lia. rewrite Hscan.
  cbv beta iota delta [mbind option_bind]. rewrite Hw'.
  cbv beta iota delta [mbind option_bind]. rewrite Hbit.
  cbv beta iota. split; [reflexivity|]. split.
  - simpl. apply Z.mod_small. lia.
  - unfold u64, PNLFS_WORD_SIZE.
    rewrite Z.mod_mod_divide by (by exists (2 ^ 58)).
    replace (Z.of_nat j * 8 * 8 + r - 1) with ((r - 1) + Z.of_nat j * 64) by lia.
    rewrite Z.mod_add by lia. rewrite Z.mod_small by lia. lia.
Qed.

(** ** The inode cache and the allocator leave the rest alone *)

Lemma pnlfs_iget_spec (v : volume) (ino : Z) (r : option Z) (v' : volume) :
  pnlfs_iget v ino = (r, v') →
  sbi v' = sbi v ∧ blocks v' = blocks v ∧
  (∀ k, k ≠ ino → icache v' !! k = icache v !! k) ∧
  (∀ p, r = Some p → p = ino ∧ is_Some (icache v' !! ino)).
Proof.
  unfold pnlfs_iget. destruct (icache v !! ino) as [p0|] eqn:Hc.
  - intros [= <- <-]. do 3 (split; [done|]). intros p [= <-].
    split; [done|]. rewrite Hc. eauto.
  - destruct (sb_bread v _) as [bh|]; intros [= <- <-].
    + do 2 (split; [done|]). split.
      * intros k Hk. simpl. by rewrite lookup_insert_ne.
      * intros p [= <-]. split; [done|]. simpl. rewrite lookup_insert_eq. eauto.
    + do 3 (split; [done|]). by intros p [=].
Qed.

Lemma pnlfs_new_inode_spec (v : volume) (mode : Z) (ino : Z) (v1 : volume) :
  pnlfs_new_inode v mode = Some (Some ino, v1) →
  ino ≠ 0 ∧ blocks v1 = blocks v ∧
  (∀ k, k ≠ ino → icache v1 !! k = icache v !! k).
Proof.
  unfold pnlfs_new_inode.
  destruct (get_next_ifree (sbi v)) as [[i s1]|]; simpl; [|done].
  case_decide as Hi; [done|].
  destruct (pnlfs_iget (with_sbi v s1) i) as [[p|] v2] eqn:Hg; [|done].
  apply pnlfs_iget_spec in Hg as (Hs & Hb & Hk & Hp).
  destruct (Hp p eq_refl) as [-> _].
  destruct (get_next_bfree (sbi v2)) as [[blk s3]|]; simpl; [|done].
  intros [= <- <-]. simpl in *. split; [done|]. split; [done|].
  intros k Hne. rewrite lookup_insert_ne by done. by rewrite Hk.
Qed.



(** ** Removal of a directory entry *)


Lemma dir_remove_length (name blk : list Z) (nr : Z) :
  length (dir_remove name blk nr) = length blk.
Proof.
  unfold dir_remove. destruct (dir_remove_scan name blk nr); [|done].
  apply write_bytes_length.
Qed.

Lemma dir_remove_not_found (name blk : list Z) (nr : Z) :
  dir_remove_scan name blk nr = None → dir_remove name blk nr = blk.
Proof. unfold dir_remove. by intros ->. Qed.

Section delete_dir_entry.
Variables (v : volume) (dir : Z) (dinfo : pnlfs_inode_info).
Variables (blk name : list Z).

Lemma delete_dir_entry_sbi :
  sbi (delete_dir_entry v dir dinfo blk name) = sbi v.
Proof. reflexivity. Qed.

Lemma delete_dir_entry_dir :
  icache (delete_dir_entry v dir dinfo blk name) !! dir
  = Some (with_nr_entries dinfo (u32 (nr_entries dinfo - 1))).
Proof. apply lookup_insert_eq. Qed.

Lemma delete_dir_entry_other (k : Z) :
  k ≠ dir →
  icache (delete_dir_entry v dir dinfo blk name) !! k = icache v !! k.
Proof. intros Hk. by apply lookup_insert_ne. Qed.

Lemma delete_dir_entry_block :
  sb_bread (delete_dir_entry v dir dinfo blk name) (index_block dinfo)
  = Some (dir_remove name blk (nr_entries dinfo)).
Proof. apply lookup_insert_eq. Qed.

Lemma delete_dir_entry_block_other (b : Z) :
  b ≠ index_block dinfo →
  sb_bread (delete_dir_entry v dir dinfo blk name) b = sb_bread v b.
Proof. intros Hb. by apply lookup_insert_ne. Qed.

Lemma delete_dir_entry_readable (b : Z) :
  is_Some (sb_bread v b) →
  is_Some (sb_bread (delete_dir_entry v dir dinfo blk name) b).
Proof.
  intros Hb. destruct (decide (b = index_block dinfo)) as [->|Hne].
  - rewrite delete_dir_entry_block. eauto.
  - by rewrite delete_dir_entry_block_other.
Qed.

End delete_dir_entry.

(** ** What the namespace operations do when they succeed *)

Lemma pnlfs_unlink_spec (v : volume) (dir inode : Z) (name : list Z)
    (tinfo dinfo : pnlfs_inode_info) (blk : list Z) :
  icache v !! inode = Some tinfo → S_ISREG (i_mode tinfo) = true →
  icache v !! dir = Some dinfo → nr_entries dinfo ≠ 0 →
  sb_bread v (index_block dinfo) = Some blk →
  is_Some (sb_bread v (index_block tinfo)) →
  inode ≠ dir →
  ∃ v',
    pnlfs_unlink v dir name inode = Some (0, v') ∧
    icache v' = icache (delete_dir_entry v dir dinfo blk name) ∧
    blocks v' = blocks (delete_dir_entry v dir dinfo blk name).
Proof.
  intros Ht Hreg Hd Hnr Hblk Hfib Hne.
  apply (delete_dir_entry_readable v dir dinfo blk name) in Hfib
    as [fib Hfib].
  unfold pnlfs_unlink. rewrite Ht. simpl. rewrite Hreg. simpl.
  rewrite Hd. simpl. rewrite decide_False by done. rewrite Hblk.
  cbv zeta. rewrite lookup_insert_ne by done. rewrite Ht. simpl.
  rewrite Hfib. eexists. split; [reflexivity|]. done.
Qed.

Lemma pnlfs_rmdir_spec (v : volume) (dir inode : Z) (name : list Z)
    (tinfo dinfo : pnlfs_inode_info) (blk : list Z) :
  icache v !! inode = Some tinfo → S_ISDIR (i_mode tinfo) = true →
  nr_entries tinfo = 0 →
  icache v !! dir = Some dinfo → nr_entries dinfo ≠ 0 →
  sb_bread v (index_block dinfo) = Some blk →
  inode ≠ dir →
  ∃ v',
    pnlfs_rmdir v dir name inode = Some (0, v') ∧
    icache v' !! dir = icache (delete_dir_entry v dir dinfo blk name) !! dir ∧
    blocks v' = blocks (delete_dir_entry v dir dinfo blk name).
Proof.
  intros Ht Hdir Hempty Hd Hnr Hblk Hne.
  unfold pnlfs_rmdir. rewrite Ht. simpl. rewrite Hdir. simpl.
  rewrite Hd. simpl. rewrite decide_False by done.
  rewrite decide_False by (intros H; by apply H).
  rewrite Hblk. cbv zeta. rewrite lookup_insert_ne by done.
  rewrite Ht. simpl.
  eexists. split; [reflexivity|]. simpl. split; [|done].
  rewrite lookup_insert_ne by done. done.
Qed.

Lemma pnlfs_rename_spec (v : volume) (old_dir new_dir old_inode : Z)
    (old_name new_name : list Z) (new_inode : option Z) (flags : Z)
    (oinfo ninfo : pnlfs_inode_info) (oblk nblk : list Z) :
  icache v !! old_dir = Some oinfo → nr_entries oinfo ≠ 0 →
  sb_bread v (index_block oinfo) = Some oblk →
  let v1 := delete_dir_entry v old_dir oinfo oblk old_name in
  icache v1 !! new_dir = Some ninfo →
  0 ≤ nr_entries ninfo < PNLFS_MAX_DIR_ENTRIES →
  sb_bread v1 (index_block ninfo) = Some nblk →
  length nblk = Z.to_nat PNLFS_BLOCK_SIZE →
  (length new_name < Z.to_nat PNLFS_FILENAME_LEN)%nat →
  let m := Z.to_nat (nr_entries ninfo) in
  ∃ v2 blk2,
    pnlfs_rename v old_dir old_name old_inode new_dir new_name new_inode flags
    = Some (0, v2) ∧
    sbi v2 = sbi v ∧
    icache v2
    = <[new_dir := with_nr_entries ninfo (nr_entries ninfo + 1)]> (icache v1) ∧
    blocks v2 = <[index_block ninfo := blk2]> (blocks v1) ∧
    take (file_off m) blk2 = take (file_off m) nblk ∧
    file_inode blk2 m = u32 (default old_inode new_inode) ∧
    name_matches new_name blk2 m = true.
Proof.
  intros Ho Hnr Hoblk v1 Hn Hroom Hnblk Hlen Hname m.
  unfold PNLFS_MAX_DIR_ENTRIES in Hroom.
  change (Z.to_nat PNLFS_BLOCK_SIZE) with 4096%nat in Hlen.
  change (Z.to_nat PNLFS_FILENAME_LEN) with 28%nat in Hname.
  assert (Hm : (m < 128)%nat) by (unfold m; lia).
  pose proof (c_strcpy_length new_name) as Hcpy.
  eexists _, _. split.
  { unfold pnlfs_rename. rewrite Ho. simpl. rewrite decide_False by done.
    rewrite Hoblk. cbv zeta.
    unfold v1, delete_dir_entry in Hn. simpl in Hn. rewrite Hn. simpl.
    rewrite decide_False by (unfold PNLFS_MAX_DIR_ENTRIES; lia).
    fold (delete_dir_entry v old_dir oinfo oblk old_name). fold v1.
    rewrite Hnblk. reflexivity. }
  simpl. split; [done|]. split.
  { f_equal. unfold with_nr_entries. f_equal. apply u32_small. lia. }
  split; [done|]. fold m. rewrite file_off_eq, filename_off_eq.
  split; [|split].
  - rewrite !write_bytes_take by lia. done.
  - unfold file_inode. rewrite file_off_eq.
    rewrite le32_at_write_later by lia.
    apply le32_at_write_same. lia.
  - unfold name_matches. rewrite filename_off_eq.
    rewrite write_bytes_drop by (rewrite write_bytes_length; lia).
    apply c_strncmp_strcpy.
Qed.

(** ** The removal step when the loop finds nothing *)

Lemma delete_dir_entry_not_found (v : volume) (dir : Z)
    (dinfo : pnlfs_inode_info) (blk name : list Z) :
  0 < nr_entries dinfo < 2 ^ 32 →
  dir_remove_scan name blk (nr_entries dinfo) = None →
  let v' := delete_dir_entry v dir dinfo blk name in
  sb_bread v' (index_block dinfo) = Some blk ∧
  icache v' !! dir = Some (with_nr_entries dinfo (nr_entries dinfo - 1)) ∧
  pnlfs_inode_by_name v' dir name = Some 0.
Proof.
  intros Hnr Hscan v'.
  assert (Hu : u32 (nr_entries dinfo - 1) = nr_entries dinfo - 1)
    by (apply u32_small; lia).
  assert (Hb : sb_bread v' (index_block dinfo) = Some blk).
  { unfold v'. rewrite delete_dir_entry_block.
    by rewrite dir_remove_not_found. }
  assert (Hd : icache v' !! dir
               = Some (with_nr_entries dinfo (nr_entries dinfo - 1))).
  { unfold v'. by rewrite delete_dir_entry_dir, Hu. }
  do 2 (split; [done|]).
  unfold pnlfs_inode_by_name. rewrite Hd. simpl. rewrite Hb.
  unfold dir_remove_scan in Hscan. rewrite Hu in Hscan. by rewrite Hscan.
Qed.

Lemma dir_remove_scan_last_slot (name blk : list Z) (nr : Z) :
  0 < nr < 2 ^ 32 →
  (∀ j, (j < Z.to_nat nr - 1)%nat → name_matches name blk j = false) →
  dir_remove_scan name blk nr = None.
Proof.
  intros Hnr Hfirst. unfold dir_remove_scan.
  rewrite u32_small by lia. apply scan_dir_None.
  intros k Hk. apply Hfirst. lia.
Qed.


(** ** Scenarios S1 and S3 of the spec *)

(** S1: on the fresh image [create(root, "a.txt")] yields inode 1, which the
    lookup finds, and a full enumeration lists ".", ".." and "a.txt". *)
Example scenario_S1 :
  status_of (pnlfs_create vol0 0 name_a_txt mode_file) = Some 0 ∧
  status_of (pnlfs_lookup vol_a_txt 0 name_a_txt) = Some (Some 1) ∧
  names_of (pnlfs_readdir vol_a_txt 0 0 (mk_ctx 0 16 []))
  = [([46], 0); ([46; 46], 1); (name_a_txt, 2)].
Proof. evaluate_all. Qed.

(** S3: a directory with an entry cannot be removed; once emptied it can. *)
Example scenario_S3 :
  let v1 := state_after (pnlfs_mkdir vol0 0 name_a mode_dir) in
  let v2 := state_after (pnlfs_create v1 1 name_f mode_file) in
  let v3 := state_after (pnlfs_unlink v2 1 name_f 2) in
  pnlfs_inode_by_name v1 0 name_a = Some 1 ∧
  pnlfs_inode_by_name v2 1 name_f = Some 2 ∧
  pnlfs_rmdir v2 0 name_a 1 = Some (-1, v2) ∧
  status_of (pnlfs_unlink v2 1 name_f 2) = Some 0 ∧
  status_of (pnlfs_rmdir v3 0 name_a 1) = Some 0 ∧
  pnlfs_inode_by_name (state_after (pnlfs_rmdir v3 0 name_a 1)) 0 name_a
  = Some 0.
Proof. evaluate_all. Qed.

(** ** Freeing never moves a counter *)

Lemma free_ifree_counters (s : pnlfs_sb_info) (ino : Z) :
  nr_free_inodes (free_ifree s ino) = nr_free_inodes s ∧
  nr_free_blocks (free_ifree s ino) = nr_free_blocks s.
Proof. done. Qed.

Lemma free_bfree_counters (s : pnlfs_sb_info) (block : Z) :
  nr_free_inodes (free_bfree s block) = nr_free_inodes s ∧
  nr_free_blocks (free_bfree s block) = nr_free_blocks s.
Proof. done. Qed.

Lemma free_file_blocks_counters (s : pnlfs_sb_info) (fib : list Z) (n i : nat) :
  nr_free_inodes (free_file_blocks s fib n i) = nr_free_inodes s ∧
  nr_free_blocks (free_file_blocks s fib n i) = nr_free_blocks s.
Proof.
  revert s i. induction n as [|n IH]; intros s i; [done|].
  simpl. destruct (IH (free_bfree s (le32_at fib (i * 4))) (S i)) as [-> ->].
  done.
Qed.

(** Whatever [pnlfs_unlink] and [pnlfs_rmdir] return, both counters are
    what they were before the call. *)
Lemma pnlfs_unlink_counters (v : volume) (dir inode : Z) (name : list Z)
    (r : Z) (v' : volume) :
  pnlfs_unlink v dir name inode = Some (r, v') →
  nr_free_inodes (sbi v') = nr_free_inodes (sbi v) ∧
  nr_free_blocks (sbi v') = nr_free_blocks (sbi v).
Proof.
  unfold pnlfs_unlink.
  destruct (icache v !! inode) as [tinfo|]; simpl; [|done].
  destruct (S_ISREG (i_mode tinfo)); simpl; [|by intros [= <- <-]].
  destruct (icache v !! dir) as [dinfo|]; simpl; [|done].
  case_decide; [by intros [= <- <-]|].
  destruct (sb_bread v (index_block dinfo)) as [blk|]; [|by intros [= <- <-]].
  cbv zeta.
  destruct (_ !! inode) as [iinfo|]; simpl; [|done].
  destruct (sb_bread _ (index_block iinfo)) as [fib|]; intros [= <- <-]; [|done].
  simpl.
  destruct (free_file_blocks_counters (sbi v) fib
              (Z.to_nat (nr_entries iinfo)) 0) as [<- <-].
  done.
Qed.

Lemma pnlfs_rmdir_counters (v : volume) (dir inode : Z) (name : list Z)
    (r : Z) (v' : volume) :
  pnlfs_rmdir v dir name inode = Some (r, v') →
  nr_free_inodes (sbi v') = nr_free_inodes (sbi v) ∧
  nr_free_blocks (sbi v') = nr_free_blocks (sbi v).
Proof.
  unfold pnlfs_rmdir.
  destruct (icache v !! inode) as [tinfo|]; simpl; [|done].
  destruct (S_ISDIR (i_mode tinfo)); simpl; [|by intros [= <- <-]].
  destruct (icache v !! dir) as [dinfo|]; simpl; [|done].
  case_decide; [by intros [= <- <-]|].
  case_decide; [by intros [= <- <-]|].
  destruct (sb_bread v (index_block dinfo)) as [blk|]; [|by intros [= <- <-]].
  cbv zeta.
  destruct (_ !! inode) as [iinfo|]; simpl; [|done].
  by intros [= <- <-].
Qed.

(** ** The cursor of [pnlfs_readdir] *)

Lemma dir_emit_dots_past (dir parent : Z) (ctx : dir_context) :
  2 ≤ pos ctx → dir_emit_dots dir parent ctx = (true, ctx).
Proof.
  intros Hpos. unfold dir_emit_dots.
  rewrite decide_False by lia. by rewrite decide_False by lia.
Qed.

(** From any cursor between 2 and [nr_entries + 2] the enumeration is the
    loop run from slot 0: where the cursor stands does not select the first
    entry emitted. *)
Lemma pnlfs_readdir_from_cursor (v : volume) (dir parent : Z)
    (ctx : dir_context) (dinfo : pnlfs_inode_info) (blk : list Z) :
  icache v !! dir = Some dinfo →
  sb_bread v (index_block dinfo) = Some blk →
  2 ≤ pos ctx < u32 (nr_entries dinfo + 2) →
  pnlfs_readdir v dir parent ctx
  = readdir_loop blk (Z.to_nat (nr_entries dinfo)) 0 v ctx.
Proof.
  intros Hd Hblk Hpos. unfold pnlfs_readdir. rewrite Hd. simpl.
  rewrite decide_False by lia. rewrite dir_emit_dots_past by lia.
  by rewrite Hblk.
Qed.

(** ** Which bit the free functions set *)

Lemma bit_mask_small (k : Z) : 0 ≤ k < 31 → bit_mask k = 2 ^ k.
Proof.
  intros Hk. unfold bit_mask, ulong_of_int, u64, int_shl1.
  rewrite decide_True by lia. apply Z.mod_small. split; [lia|].
  apply Z.pow_lt_mono_r; lia.
Qed.

(** Both functions apply this update to their bitmap: the word is chosen
    by [n / sizeof(long)] and the bit by [n % sizeof(long)].  In the
    numbering of the allocators, 64 bits to a word, the bit set is
    [64 * (n / 8) + n % 8] and no other bit changes. *)
Lemma bitmap_bit_free (bm : list Z) (n i : Z) :
  0 ≤ n → 0 ≤ i →
  bitmap_bit
    (alter (fun w => Z.lor w (bit_mask (n mod PNLFS_WORD_SIZE)))
       (Z.to_nat (n / PNLFS_WORD_SIZE)) bm) i
  = bitmap_bit bm i
    || (bool_decide (i = 64 * (n / 8) + n mod 8)
        && bool_decide (Z.to_nat (n / 8) < length bm)%nat).
Proof.
  intros Hn Hi. unfold bitmap_bit, PNLFS_WORD_SIZE.
  assert (Hk : 0 ≤ n mod 8 < 8) by (apply Z.mod_pos_bound; lia).
  assert (Hj : 0 ≤ i mod 64 < 64) by (apply Z.mod_pos_bound; lia).
  rewrite bit_mask_small by lia.
  pose proof (Z.div_mod i 64 ltac:(lia)) as Hdm.
  assert (Hn8 : 0 ≤ n / 8) by (apply Z.div_pos; lia).
  assert (Hi64 : 0 ≤ i / 64) by (apply Z.div_pos; lia).
  destruct (decide (i / 64 = n / 8)) as [Heq|Hne].
  - rewrite Heq, list_lookup_alter_eq.
    destruct (bm !! Z.to_nat (n / 8)) as [w|] eqn:Hw; simpl.
    + rewrite Z.lor_spec. rewrite Z.pow2_bits_eqb; [|lia].
      rewrite (bool_decide_eq_true_2 (_ < _)%nat)
        by (by apply lookup_lt_Some in Hw).
      rewrite andb_true_r. f_equal.
      destruct (Z.eqb_spec (n mod 8) (i mod 64)) as [Hb|Hb].
      * rewrite bool_decide_eq_true_2; [done|]. lia.
      * rewrite bool_decide_eq_false_2; [done|]. lia.
    + rewrite (bool_decide_eq_false_2 (_ < _)%nat)
        by (apply lookup_ge_None in Hw; lia).
      by rewrite andb_false_r, orb_false_r.
  - rewrite list_lookup_alter_ne by (intros H; apply Hne; lia).
    rewrite bool_decide_eq_false_2; [by rewrite orb_false_r|].
    intros ->. apply Hne.
    rewrite Z.add_comm, Z.mul_comm, Z.div_add by lia.
    rewrite Z.div_small by lia. done.
Qed.

(** ** Failures that leave a changed volume behind *)

(** When the target directory is full, [pnlfs_rename] returns -1 with the
    entry already removed from the source directory. *)
Lemma pnlfs_rename_full_target (v : volume) (old_dir new_dir old_inode : Z)
    (old_name new_name : list Z) (new_inode : option Z) (flags : Z)
    (oinfo ninfo : pnlfs_inode_info) (oblk : list Z) :
  icache v !! old_dir = Some oinfo → nr_entries oinfo ≠ 0 →
  sb_bread v (index_block oinfo) = Some oblk →
  icache (delete_dir_entry v old_dir oinfo oblk old_name) !! new_dir
  = Some ninfo →
  PNLFS_MAX_DIR_ENTRIES ≤ nr_entries ninfo →
  pnlfs_rename v old_dir old_name old_inode new_dir new_name new_inode flags
  = Some (-1, delete_dir_entry v old_dir oinfo oblk old_name).
Proof.
  intros Ho Hnr Hoblk Hn Hfull.
  unfold pnlfs_rename. rewrite Ho. simpl. rewrite decide_False by done.
  rewrite Hoblk. cbv zeta.
  unfold delete_dir_entry in Hn. simpl in Hn. rewrite Hn. simpl.
  by rewrite decide_True.
Qed.

(** When no block is free, [pnlfs_new_inode] still hands out the inode it
    took from the inode bitmap, with 0 as its index block. *)
Lemma pnlfs_new_inode_no_block (v : volume) (mode ino : Z)
    (s1 : pnlfs_sb_info) (p : pnlfs_inode_info) :
  get_next_ifree (sbi v) = Some (ino, s1) → ino ≠ 0 →
  icache v !! ino = Some p →
  nr_free_blocks s1 = 0 →
  pnlfs_new_inode v mode
  = Some (Some ino, with_inode (with_sbi v s1) ino (mk_inode mode 0 1 0 0)).
Proof.
  intros Hi Hnz Hp Hb. unfold pnlfs_new_inode. rewrite Hi. simpl.
  rewrite decide_False by done. unfold pnlfs_iget. simpl. rewrite Hp.
  unfold get_next_bfree. simpl. by rewrite decide_True.
Qed.

(** ** The claims *)

(** *** C1 *)

(** C1.  The counters do not follow the bitmaps.  [pnlfs_unlink] and
    [pnlfs_rmdir] set bits in both bitmaps and, whatever they return, leave
    both counters where they were; only the allocation side updates them.
    On the mounted S1 image both popcounts equal their counters;
    [create(root, a.txt)] followed by [unlink(root, a.txt)] both return 0,
    and afterwards the bitmaps are back to 31 free inodes and 59 free
    blocks while the counters say 30 and 58. *)
Theorem create_unlink_breaks_counters :
  (∀ v dir name inode r v',
     pnlfs_unlink v dir name inode = Some (r, v') →
     nr_free_inodes (sbi v') = nr_free_inodes (sbi v) ∧
     nr_free_blocks (sbi v') = nr_free_blocks (sbi v)) ∧
  (∀ v dir name inode r v',
     pnlfs_rmdir v dir name inode = Some (r, v') →
     nr_free_inodes (sbi v') = nr_free_inodes (sbi v) ∧
     nr_free_blocks (sbi v') = nr_free_blocks (sbi v)) ∧
  pnlfs_fill_super fresh_image = Some (Some vol0) ∧
  popcount (ifree_bitmap (sbi vol0)) = nr_free_inodes (sbi vol0) ∧
  popcount (bfree_bitmap (sbi vol0)) = nr_free_blocks (sbi vol0) ∧
  status_of (pnlfs_create vol0 0 name_a_txt mode_file) = Some 0 ∧
  status_of (pnlfs_unlink vol_a_txt 0 name_a_txt 1) = Some 0 ∧
  let v := state_after (pnlfs_unlink vol_a_txt 0 name_a_txt 1) in
  popcount (ifree_bitmap (sbi v)) = 31 ∧ nr_free_inodes (sbi v) = 30 ∧
  popcount (bfree_bitmap (sbi v)) = 59 ∧ nr_free_blocks (sbi v) = 58.
Proof.
  split; [intros; by eapply pnlfs_unlink_counters|].
  split; [intros; by eapply pnlfs_rmdir_counters|].
  evaluate_all.
Qed.

(** The sequence need not contain a removal.  The bit loop tests
    [1 << 31] last, which as an [unsigned long] operand covers bits 31 to
    63, and then clears all of them at once.  After 26 creates on the S1
    image the counters still agree with the bitmaps; the 27th create takes
    block 31, returns 0 and leaves a block bitmap without a set bit next to
    a counter of 32; the call after it never leaves [get_next_bfree]. *)
Lemma creates_alone_break_block_counter :
  let v26 := create_files vol0 0 0 26 in
  let v27 := create_files vol0 0 0 27 in
  icache v26 !! 0 = Some (root_info 26) ∧
  popcount (bfree_bitmap (sbi v26)) = 33 ∧ nr_free_blocks (sbi v26) = 33 ∧
  status_of (pnlfs_create v26 0 (file_name 26) mode_file) = Some 0 ∧
  icache v27 !! 27 = Some (file_info 31) ∧
  popcount (bfree_bitmap (sbi v27)) = 0 ∧ nr_free_blocks (sbi v27) = 32 ∧
  pnlfs_create v27 0 (file_name 27) mode_file = None.
Proof. evaluate_all. Qed.

(** *** C2 *)

(** C2.  [free_ifree] and [free_bfree] never change a counter, and the one
    bit they set is bit [n % 8] of word [n / 8]: in the numbering of the
    allocators, 64 bits to a word, that is bit [64 * (n / 8) + n % 8], which
    is bit [n] only for [n < 8].  In [vol8], where inode 8 owns block 12:
    freeing inode 8 leaves bit 8 clear and sets bit 64; freeing block 12
    leaves bit 12 clear and sets bit 68. *)
Theorem free_keeps_counter_and_misplaces_bit :
  (∀ s ino, nr_free_inodes (free_ifree s ino) = nr_free_inodes s) ∧
  (∀ s blk, nr_free_blocks (free_bfree s blk) = nr_free_blocks s) ∧
  (∀ s ino i, 0 ≤ ino → 0 ≤ i →
     bitmap_bit (ifree_bitmap (free_ifree s ino)) i
     = bitmap_bit (ifree_bitmap s) i
       || (bool_decide (i = 64 * (ino / 8) + ino mod 8)
           && bool_decide (Z.to_nat (ino / 8) < length (ifree_bitmap s))%nat)) ∧
  (∀ s blk i, 0 ≤ blk → 0 ≤ i →
     bitmap_bit (bfree_bitmap (free_bfree s blk)) i
     = bitmap_bit (bfree_bitmap s) i
       || (bool_decide (i = 64 * (blk / 8) + blk mod 8)
           && bool_decide (Z.to_nat (blk / 8) < length (bfree_bitmap s))%nat)) ∧
  icache vol8 !! 8 = Some (file_info 12) ∧
  let s := sbi vol8 in
  bitmap_bit (ifree_bitmap s) 8 = false ∧
  bitmap_bit (ifree_bitmap (free_ifree s 8)) 8 = false ∧
  bitmap_bit (ifree_bitmap s) 64 = false ∧
  bitmap_bit (ifree_bitmap (free_ifree s 8)) 64 = true ∧
  bitmap_bit (bfree_bitmap s) 12 = false ∧
  bitmap_bit (bfree_bitmap (free_bfree s 12)) 12 = false ∧
  bitmap_bit (bfree_bitmap s) 68 = false ∧
  bitmap_bit (bfree_bitmap (free_bfree s 12)) 68 = true.
Proof.
  split; [done|]. split; [done|].
  split; [intros s ino i Hino Hi; by apply bitmap_bit_free|].
  split; [intros s blk i Hblk Hi; by apply bitmap_bit_free|].
  evaluate_all.
Qed.

(** *** C3 *)




(** *** C4 *)

(** C4 (as stated, refuted).  In the root of [vol_a_txt] the only live
    entry, slot 0, carries the name [a.txt], yet the removal loop, which runs
    over [nr_entries - 1 = 0] slots, does not find it. *)
Lemma remove_scan_skips_last_slot :
  icache vol_a_txt !! 0 = Some (root_info 1) ∧
  name_matches name_a_txt (block_of vol_a_txt 4) 0 = true ∧
  dir_remove_scan name_a_txt (block_of vol_a_txt 4) 1 = None.
Proof. evaluate_all. Qed.

(** C4 (amended).  The removal step shared by [pnlfs_unlink], [pnlfs_rmdir]
    and [pnlfs_rename] scans the first [nr_entries - 1] slots only.  When the
    first entry matching the name sits in the last live slot, the loop does
    not find it and shifts nothing; the unconditional [--nr_entries] drops
    the slot all the same, and the name no longer resolves afterwards. *)
Theorem last_slot_dropped_by_decrement (v : volume) (dir : Z) (name : list Z)
    (dinfo : pnlfs_inode_info) (blk : list Z) :
  icache v !! dir = Some dinfo →
  sb_bread v (index_block dinfo) = Some blk →
  0 < nr_entries dinfo < 2 ^ 32 →
  let n := Z.to_nat (nr_entries dinfo) in
  name_matches name blk (n - 1) = true →
  (∀ j, (j < n - 1)%nat → name_matches name blk j = false) →
  let v' := delete_dir_entry v dir dinfo blk name in
  pnlfs_inode_by_name v dir name = Some (file_inode blk (n - 1)) ∧
  dir_remove_scan name blk (nr_entries dinfo) = None ∧
  sb_bread v' (index_block dinfo) = Some blk ∧
  icache v' !! dir = Some (with_nr_entries dinfo (nr_entries dinfo - 1)) ∧
  pnlfs_inode_by_name v' dir name = Some 0.
Proof.
  intros Hdir Hblk Hnr n Hlast Hfirst v'.
  assert (Hscan : dir_remove_scan name blk (nr_entries dinfo) = None)
    by (by apply dir_remove_scan_last_slot).
  split.
  { unfold pnlfs_inode_by_name. rewrite Hdir. simpl. rewrite Hblk. fold n.
    replace (scan_dir name blk n 0) with (Some (n - 1)%nat); [done|].
    symmetry. apply scan_dir_Some. split; [lia|]. split; [done|].
    intros j Hj. apply Hfirst. lia. }
  split; [done|].
  by apply delete_dir_entry_not_found.
Qed.

Lemma last_slot_dropped_by_decrement_witness :
  icache vol_a_txt !! 0 = Some (root_info 1) ∧
  sb_bread vol_a_txt 4 = Some (block_of vol_a_txt 4) ∧
  name_matches name_a_txt (block_of vol_a_txt 4) 0 = true ∧
  pnlfs_inode_by_name vol_a_txt 0 name_a_txt = Some 1 ∧
  pnlfs_inode_by_name
    (delete_dir_entry vol_a_txt 0 (root_info 1) (block_of vol_a_txt 4)
       name_a_txt) 0 name_a_txt = Some 0.
Proof.
  assert (H1 : icache vol_a_txt !! 0 = Some (root_info 1))
    by evaluate.
  assert (H2 : sb_bread vol_a_txt (index_block (root_info 1))
               = Some (block_of vol_a_txt 4)) by evaluate.
  assert (H3 : name_matches name_a_txt (block_of vol_a_txt 4) 0 = true)
    by evaluate.
  do 3 (split; [assumption|]).
  assert (H4 : 0 < nr_entries (root_info 1) < 2 ^ 32) by evaluate_range.
  assert (H5 : ∀ j, (j < Z.to_nat (nr_entries (root_info 1)) - 1)%nat →
               name_matches name_a_txt (block_of vol_a_txt 4) j = false)
    by (intros j Hj; simpl in Hj; lia).
  pose proof (last_slot_dropped_by_decrement vol_a_txt 0 name_a_txt
                (root_info 1) (block_of vol_a_txt 4) H1 H2 H4 H3 H5)
    as (Hbefore & _ & _ & _ & Hafter).
  split; [|exact Hafter].
  rewrite Hbefore. vm_compute. reflexivity.
Defined.

(** The same at the level of [pnlfs_unlink]: the call succeeds, the block is
    untouched, the count goes down and the name is gone. *)
Lemma pnlfs_unlink_last_slot (v : volume) (dir inode : Z) (name : list Z)
    (tinfo dinfo : pnlfs_inode_info) (blk : list Z) :
  icache v !! inode = Some tinfo → S_ISREG (i_mode tinfo) = true →
  icache v !! dir = Some dinfo → 0 < nr_entries dinfo < 2 ^ 32 →
  sb_bread v (index_block dinfo) = Some blk →
  is_Some (sb_bread v (index_block tinfo)) →
  inode ≠ dir →
  (∀ j, (j < Z.to_nat (nr_entries dinfo) - 1)%nat →
        name_matches name blk j = false) →
  ∃ v',
    pnlfs_unlink v dir name inode = Some (0, v') ∧
    sb_bread v' (index_block dinfo) = Some blk ∧
    icache v' !! dir = Some (with_nr_entries dinfo (nr_entries dinfo - 1)) ∧
    pnlfs_inode_by_name v' dir name = Some 0.
Proof.
  intros Ht Hreg Hd Hnr Hblk Hfib Hne Hfirst.
  destruct (pnlfs_unlink_spec v dir inode name tinfo dinfo blk)
    as (v' & Hrun & Hic & Hbl); try done; [lia|].
  assert (Hscan : dir_remove_scan name blk (nr_entries dinfo) = None)
    by (by apply dir_remove_scan_last_slot).
  destruct (delete_dir_entry_not_found v dir dinfo blk name Hnr Hscan)
    as (Hb' & Hd' & Hn').
  exists v'. split; [done|].
  unfold pnlfs_inode_by_name, sb_bread in *. rewrite Hic, Hbl. done.
Qed.

(** And at the level of [pnlfs_rmdir]. *)
Lemma pnlfs_rmdir_last_slot (v : volume) (dir inode : Z) (name : list Z)
    (tinfo dinfo : pnlfs_inode_info) (blk : list Z) :
  icache v !! inode = Some tinfo → S_ISDIR (i_mode tinfo) = true →
  nr_entries tinfo = 0 →
  icache v !! dir = Some dinfo → 0 < nr_entries dinfo < 2 ^ 32 →
  sb_bread v (index_block dinfo) = Some blk →
  inode ≠ dir →
  (∀ j, (j < Z.to_nat (nr_entries dinfo) - 1)%nat →
        name_matches name blk j = false) →
  ∃ v',
    pnlfs_rmdir v dir name inode = Some (0, v') ∧
    sb_bread v' (index_block dinfo) = Some blk ∧
    icache v' !! dir = Some (with_nr_entries dinfo (nr_entries dinfo - 1)) ∧
    pnlfs_inode_by_name v' dir name = Some 0.
Proof.
  intros Ht Hdir Hempty Hd Hnr Hblk Hne Hfirst.
  destruct (pnlfs_rmdir_spec v dir inode name tinfo dinfo blk)
    as (v' & Hrun & Hic & Hbl); try done; [lia|].
  assert (Hscan : dir_remove_scan name blk (nr_entries dinfo) = None)
    by (by apply dir_remove_scan_last_slot).
  destruct (delete_dir_entry_not_found v dir dinfo blk name Hnr Hscan)
    as (Hb' & Hd' & Hn').
  exists v'. split; [done|].
  unfold pnlfs_inode_by_name, sb_bread in *. rewrite Hic, Hbl. done.
Qed.

(** *** C5 *)

(** C5 (as stated, refuted).  In the root of [vol_ab], [a] is inode 1 and
    [b] is inode 2.  Renaming [a] onto [b] returns 0; afterwards [b] still
    resolves to inode 2, and inode 2 and its index block 6 are still
    allocated: neither bitmap and neither counter has moved. *)
Lemma rename_over_target_keeps_target :
  pnlfs_inode_by_name vol_ab 0 name_a = Some 1 ∧
  pnlfs_inode_by_name vol_ab 0 name_b = Some 2 ∧
  icache vol_ab !! 2 = Some (file_info 6) ∧
  status_of (pnlfs_rename vol_ab 0 name_a 1 0 name_b (Some 2) 0) = Some 0 ∧
  let v := state_after (pnlfs_rename vol_ab 0 name_a 1 0 name_b (Some 2) 0) in
  pnlfs_inode_by_name v 0 name_b = Some 2 ∧
  bitmap_bit (ifree_bitmap (sbi v)) 2 = false ∧
  bitmap_bit (bfree_bitmap (sbi v)) 6 = false ∧
  sbi v = sbi vol_ab.
Proof. evaluate_all. Qed.

(** C5 (amended).  [pnlfs_rename] does not replace an existing target.  When
    [new_name] resolves to [tgt] in the target directory once [old_name] has
    been removed from its own, a successful rename appends one entry named
    [new_name] behind the entries of the target directory, whose
    [nr_entries] grows by one; [new_name] still resolves to [tgt], and
    nothing of [tgt] is freed: both bitmaps and both counters are as before
    the call. *)
Theorem rename_over_target_frees_nothing (v : volume)
    (old_dir new_dir src tgt : Z) (old_name new_name : list Z) (flags : Z)
    (oinfo ninfo : pnlfs_inode_info) (oblk nblk : list Z) :
  icache v !! old_dir = Some oinfo → nr_entries oinfo ≠ 0 →
  sb_bread v (index_block oinfo) = Some oblk →
  let v1 := delete_dir_entry v old_dir oinfo oblk old_name in
  icache v1 !! new_dir = Some ninfo →
  0 ≤ nr_entries ninfo < PNLFS_MAX_DIR_ENTRIES →
  sb_bread v1 (index_block ninfo) = Some nblk →
  length nblk = Z.to_nat PNLFS_BLOCK_SIZE →
  (length new_name < Z.to_nat PNLFS_FILENAME_LEN)%nat →
  pnlfs_inode_by_name v1 new_dir new_name = Some tgt → tgt ≠ 0 →
  ∃ v2,
    pnlfs_rename v old_dir old_name src new_dir new_name (Some tgt) flags
    = Some (0, v2) ∧
    ifree_bitmap (sbi v2) = ifree_bitmap (sbi v) ∧
    bfree_bitmap (sbi v2) = bfree_bitmap (sbi v) ∧
    nr_free_inodes (sbi v2) = nr_free_inodes (sbi v) ∧
    nr_free_blocks (sbi v2) = nr_free_blocks (sbi v) ∧
    icache v2 !! new_dir = Some (with_nr_entries ninfo (nr_entries ninfo + 1)) ∧
    name_matches new_name (block_of v2 (index_block ninfo))
      (Z.to_nat (nr_entries ninfo)) = true ∧
    pnlfs_inode_by_name v2 new_dir new_name = Some tgt.
Proof.
  intros Ho Hnr Hoblk v1 Hn Hroom Hnblk Hlen Hname Htgt Hnz.
  destruct (pnlfs_rename_spec v old_dir new_dir src old_name new_name
              (Some tgt) flags oinfo ninfo oblk nblk)
    as (v2 & blk2 & Hrun & Hs & Hic & Hbl & Htake & _ & Hm); try done.
  assert (Hd2 : icache v2 !! new_dir
                = Some (with_nr_entries ninfo (nr_entries ninfo + 1)))
    by (by rewrite Hic, lookup_insert_eq).
  assert (Hb2 : sb_bread v2 (index_block ninfo) = Some blk2)
    by (unfold sb_bread; by rewrite Hbl, lookup_insert_eq).
  exists v2. split; [done|]. rewrite Hs. do 4 (split; [done|]).
  split; [done|]. split; [unfold block_of; by rewrite Hb2|].
  unfold PNLFS_MAX_DIR_ENTRIES in Hroom.
  unfold pnlfs_inode_by_name in Htgt |- *.
  fold v1 in Hn. rewrite Hn in Htgt. simpl in Htgt. rewrite Hnblk in Htgt.
  rewrite Hd2. simpl. rewrite Hb2.
  destruct (scan_dir new_name nblk (Z.to_nat (nr_entries ninfo)) 0)
    as [k|] eqn:Hscan; [|congruence].
  pose proof (proj1 (scan_dir_Some _ _ _ _ _) Hscan) as (Hk & _ & _).
  replace (Z.to_nat (nr_entries ninfo + 1))
    with (S (Z.to_nat (nr_entries ninfo))) by lia.
  rewrite (scan_dir_extend new_name blk2 (Z.to_nat (nr_entries ninfo)) _ 0 k);
    [| |lia].
  - rewrite <- Htgt. f_equal. unfold file_inode.
    apply (le32_at_agree _ _ (file_off (Z.to_nat (nr_entries ninfo))));
      [done|]. rewrite !file_off_eq. lia.
  - rewrite <- Hscan.
    apply (scan_dir_agree _ _ _ (Z.to_nat (nr_entries ninfo))); [done| |lia].
    lia.
Qed.

Lemma rename_over_target_frees_nothing_witness :
  icache vol_ab !! 0 = Some (root_info 2) ∧
  sb_bread vol_ab 4 = Some (block_of vol_ab 4) ∧
  pnlfs_inode_by_name
    (delete_dir_entry vol_ab 0 (root_info 2) (block_of vol_ab 4) name_a)
    0 name_b = Some 2 ∧
  ∃ v2,
    pnlfs_rename vol_ab 0 name_a 1 0 name_b (Some 2) 0 = Some (0, v2) ∧
    ifree_bitmap (sbi v2) = ifree_bitmap (sbi vol_ab) ∧
    bfree_bitmap (sbi v2) = bfree_bitmap (sbi vol_ab) ∧
    nr_free_inodes (sbi v2) = nr_free_inodes (sbi vol_ab) ∧
    nr_free_blocks (sbi v2) = nr_free_blocks (sbi vol_ab) ∧
    icache v2 !! 0 = Some (root_info 2) ∧
    name_matches name_b (block_of v2 4) 1 = true ∧
    pnlfs_inode_by_name v2 0 name_b = Some 2.
Proof.
  assert (H1 : icache vol_ab !! 0 = Some (root_info 2))
    by evaluate.
  assert (H2 : sb_bread vol_ab (index_block (root_info 2))
               = Some (block_of vol_ab 4)) by evaluate.
  assert (H3 : pnlfs_inode_by_name
                 (delete_dir_entry vol_ab 0 (root_info 2) (block_of vol_ab 4)
                    name_a) 0 name_b = Some 2) by evaluate.
  split; [exact H1|]. split; [exact H2|]. split; [exact H3|].
  apply (rename_over_target_frees_nothing vol_ab 0 0 1 2 name_a name_b 0
           (root_info 2) (root_info 1) (block_of vol_ab 4)
           (dir_remove name_a (block_of vol_ab 4) 2)).
  - exact H1.
  - vm_compute. congruence.
  - exact H2.
  - apply delete_dir_entry_dir.
  - evaluate_range.
  - exact (delete_dir_entry_block vol_ab 0 (root_info 2) (block_of vol_ab 4)
             name_a).
  - rewrite dir_remove_length. vm_compute. reflexivity.
  - vm_compute. lia.
  - exact H3.
  - done.
Defined.

(** *** C6 *)

(** C6 (as stated, refuted).  Renaming [a] to itself in the root of [vol_ab]
    returns 0 and rewrites the directory block: slot 0 held inode 1 before
    the call and holds inode 2 after it. *)
Lemma rename_same_name_rewrites_block :
  pnlfs_inode_by_name vol_ab 0 name_a = Some 1 ∧
  status_of (pnlfs_rename vol_ab 0 name_a 1 0 name_a (Some 1) 0) = Some 0 ∧
  let v := state_after (pnlfs_rename vol_ab 0 name_a 1 0 name_a (Some 1) 0) in
  file_inode (block_of vol_ab 4) 0 = 1 ∧
  file_inode (block_of v 4) 0 = 2 ∧
  block_of v 4 ≠ block_of vol_ab 4.
Proof.
  assert (H1 : file_inode (block_of vol_ab 4) 0 = 1)
    by evaluate.
  assert (H2 : file_inode
                 (block_of
                    (state_after
                       (pnlfs_rename vol_ab 0 name_a 1 0 name_a (Some 1) 0)) 4)
                 0 = 2) by evaluate.
  split; [evaluate|]. split; [evaluate|].
  cbv zeta. split; [exact H1|]. split; [exact H2|].
  intros Heq. rewrite Heq, H1 in H2. discriminate H2.
Qed.

(** C6 (amended).  [rename(d, n, d, n, flags)] on a directory with at least
    one entry returns 0 and leaves the in-memory inodes ([nr_entries] among
    them), both bitmaps and both counters as they were.  The directory block
    is the one block that changes: the removal step is applied to it and the
    entry is written again in the last live slot. *)
Theorem rename_same_name_keeps_counts (v : volume) (d src : Z) (name : list Z)
    (new_inode : option Z) (flags : Z) (dinfo : pnlfs_inode_info)
    (blk : list Z) :
  icache v !! d = Some dinfo →
  0 < nr_entries dinfo ≤ PNLFS_MAX_DIR_ENTRIES →
  sb_bread v (index_block dinfo) = Some blk →
  length blk = Z.to_nat PNLFS_BLOCK_SIZE →
  (length name < Z.to_nat PNLFS_FILENAME_LEN)%nat →
  let last := (Z.to_nat (nr_entries dinfo) - 1)%nat in
  ∃ v2 blk2,
    pnlfs_rename v d name src d name new_inode flags = Some (0, v2) ∧
    sbi v2 = sbi v ∧
    icache v2 = icache v ∧
    blocks v2 = <[index_block dinfo := blk2]> (blocks v) ∧
    take (file_off last) blk2
    = take (file_off last) (dir_remove name blk (nr_entries dinfo)) ∧
    file_inode blk2 last = u32 (default src new_inode) ∧
    name_matches name blk2 last = true.
Proof.
  intros Hd Hnr Hblk Hlen Hname last.
  unfold PNLFS_MAX_DIR_ENTRIES in Hnr.
  assert (Hu : u32 (nr_entries dinfo - 1) = nr_entries dinfo - 1)
    by (apply u32_small; lia).
  destruct (pnlfs_rename_spec v d d src name name new_inode flags dinfo
              (with_nr_entries dinfo (u32 (nr_entries dinfo - 1)))
              blk (dir_remove name blk (nr_entries dinfo)))
    as (v2 & blk2 & Hrun & Hs & Hic & Hbl & Htake & Hino & Hm); try done.
  - lia.
  - apply delete_dir_entry_dir.
  - simpl. rewrite Hu. unfold PNLFS_MAX_DIR_ENTRIES. lia.
  - exact (delete_dir_entry_block v d dinfo blk name).
  - by rewrite dir_remove_length.
  - simpl in Htake, Hino, Hm. rewrite Hu in Htake, Hino, Hm.
    replace (Z.to_nat (nr_entries dinfo - 1)) with last in * by (unfold last; lia).
    exists v2, blk2. do 2 (split; [done|]). split; [|split; [|done]].
    + rewrite Hic. unfold delete_dir_entry. simpl.
      rewrite insert_insert_eq. apply insert_id. rewrite Hd. f_equal.
      destruct dinfo. unfold with_nr_entries. simpl in *. f_equal. lia.
    + rewrite Hbl. unfold delete_dir_entry. simpl.
      by rewrite insert_insert_eq.
Qed.

Lemma rename_same_name_keeps_counts_witness :
  icache vol_ab !! 0 = Some (root_info 2) ∧
  sb_bread vol_ab 4 = Some (block_of vol_ab 4) ∧
  ∃ v2 blk2,
    pnlfs_rename vol_ab 0 name_a 1 0 name_a (Some 1) 0 = Some (0, v2) ∧
    sbi v2 = sbi vol_ab ∧
    icache v2 = icache vol_ab ∧
    blocks v2 = <[4 := blk2]> (blocks vol_ab) ∧
    file_inode blk2 1 = 1 ∧
    name_matches name_a blk2 1 = true.
Proof.
  assert (H1 : icache vol_ab !! 0 = Some (root_info 2))
    by evaluate.
  assert (H2 : sb_bread vol_ab (index_block (root_info 2))
               = Some (block_of vol_ab 4)) by evaluate.
  split; [exact H1|]. split; [exact H2|].
  destruct (rename_same_name_keeps_counts vol_ab 0 1 name_a (Some 1) 0
              (root_info 2) (block_of vol_ab 4))
    as (v2 & blk2 & Hrun & Hs & Hic & Hbl & _ & Hino & Hm).
  - exact H1.
  - evaluate_range.
  - exact H2.
  - evaluate.
  - vm_compute. lia.
  - exists v2, blk2. repeat split; assumption.
Defined.

(** *** C7 *)

(** C7.  Two failures that are not clean.  (1) [pnlfs_rename] tests the
    target directory after it has removed the entry from the source
    directory: with a full target it returns -1 and leaves the source
    directory without the entry.  In [vol_full] the directory [/b] is full;
    [rename(/a, f, /b, f)] returns -1 and [f] resolves in neither directory
    afterwards.  (2) [pnlfs_new_inode] does not test what [get_next_bfree]
    returns: with no free block the inode stays allocated and gets index
    block 0.  In [vol_no_block] inodes are free and blocks are not;
    [create(root, a.txt)] returns 0, keeps inode 4 and gives it block 0, the
    superblock, as its index block. *)
Theorem failed_rename_and_blockless_create_mutate :
  (∀ v old_dir new_dir old_inode old_name new_name new_inode flags
     oinfo ninfo oblk,
     icache v !! old_dir = Some oinfo → nr_entries oinfo ≠ 0 →
     sb_bread v (index_block oinfo) = Some oblk →
     icache (delete_dir_entry v old_dir oinfo oblk old_name) !! new_dir
     = Some ninfo →
     PNLFS_MAX_DIR_ENTRIES ≤ nr_entries ninfo →
     pnlfs_rename v old_dir old_name old_inode new_dir new_name new_inode flags
     = Some (-1, delete_dir_entry v old_dir oinfo oblk old_name)) ∧
  (∀ v mode ino s1 p,
     get_next_ifree (sbi v) = Some (ino, s1) → ino ≠ 0 →
     icache v !! ino = Some p →
     nr_free_blocks s1 = 0 →
     pnlfs_new_inode v mode
     = Some (Some ino,
             with_inode (with_sbi v s1) ino (mk_inode mode 0 1 0 0))) ∧
  (icache vol_full !! 1 = Some (dir_info 6 1) ∧
   icache vol_full !! 2 = Some (dir_info 7 128) ∧
   pnlfs_inode_by_name vol_full 1 name_f = Some 3 ∧
   status_of (pnlfs_rename vol_full 1 name_f 3 2 name_f None 0) = Some (-1) ∧
   let v := state_after (pnlfs_rename vol_full 1 name_f 3 2 name_f None 0) in
   icache v !! 1 = Some (dir_info 6 0) ∧
   pnlfs_inode_by_name v 1 name_f = Some 0 ∧
   pnlfs_inode_by_name v 2 name_f = Some 0) ∧
  (nr_free_inodes (sbi vol_no_block) = 28 ∧
   nr_free_blocks (sbi vol_no_block) = 0 ∧
   status_of (pnlfs_create vol_no_block 0 name_a_txt mode_file) = Some 0 ∧
   let w := state_after (pnlfs_create vol_no_block 0 name_a_txt mode_file) in
   nr_free_inodes (sbi w) = 27 ∧
   pnlfs_inode_by_name w 0 name_a_txt = Some 4 ∧
   icache w !! 4 = Some (file_info 0)).
Proof.
  split; [intros; by eapply pnlfs_rename_full_target|].
  split; [intros; by eapply pnlfs_new_inode_no_block|].
  evaluate_all.
Qed.

(** *** C8 *)




(** *** C9 *)

(** C9.  [pnlfs_readdir] does not resume at entry [pos - 2]: from any
    cursor between 2 and [nr_entries + 2] it runs its loop from slot 0.  The
    root of [vol_ab] holds [a] and [b].  A first call with room for three
    entries emits ".", ".." and [a] and leaves the cursor at 3; the next
    call, from cursor 3, starts again at entry 0 and emits [a] a second time
    (at offset 3), then [b]. *)
Theorem readdir_restarts_at_entry_zero :
  (∀ v dir parent ctx dinfo blk,
     icache v !! dir = Some dinfo →
     sb_bread v (index_block dinfo) = Some blk →
     2 ≤ pos ctx < u32 (nr_entries dinfo + 2) →
     pnlfs_readdir v dir parent ctx
     = readdir_loop blk (Z.to_nat (nr_entries dinfo)) 0 v ctx) ∧
  icache vol_ab !! 0 = Some (root_info 2) ∧
  names_of (pnlfs_readdir vol_ab 0 0 (mk_ctx 0 3 []))
  = [([46], 0); ([46; 46], 1); (name_a, 2)] ∧
  pos_of (pnlfs_readdir vol_ab 0 0 (mk_ctx 0 3 [])) = Some 3 ∧
  names_of (pnlfs_readdir vol_ab 0 0 (mk_ctx 3 3 []))
  = [(name_a, 3); (name_b, 4)].
Proof.
  split; [intros; by eapply pnlfs_readdir_from_cursor|].
  evaluate_all.
Qed.

(** *** C10 *)

(** C10 (as stated, refuted).  In the root of [vol_zero_shadowed] the
    entry of slot 1 is named [a] and stores inode number 0, so it matches
    the name [a] and references inode 0.  The entry [a.txt] of slot 0
    matches [a] as well, the comparison being over the length of the name
    looked up, and it comes first: [pnlfs_inode_by_name] returns 1, and
    [pnlfs_lookup] resolves [a] to inode 1 instead of reporting that there
    is no such name. *)
Lemma matching_zero_entry_can_be_shadowed :
  icache vol_zero_shadowed !! 0 = Some (root_info 2) ∧
  name_matches name_a (block_of vol_zero_shadowed 4) 1 = true ∧
  file_inode (block_of vol_zero_shadowed 4) 1 = 0 ∧
  take 2 (file_filename (block_of vol_zero_shadowed 4) 1) = [97; 0] ∧
  name_matches name_a (block_of vol_zero_shadowed 4) 0 = true ∧
  file_inode (block_of vol_zero_shadowed 4) 0 = 1 ∧
  pnlfs_inode_by_name vol_zero_shadowed 0 name_a = Some 1 ∧
  pnlfs_lookup vol_zero_shadowed 0 name_a = Some (Some 1, vol_zero_shadowed).
Proof. evaluate_all. Qed.

(** C10 (amended).  [pnlfs_inode_by_name] uses 0 as its "not found" value.
    For every live directory and every name it returns a number, which is 0
    when the directory block cannot be read, 0 when no live entry matches
    the name, and otherwise the number stored in the first matching entry,
    hence 0 when that first entry stores inode number 0.  Whenever it
    returns 0, [pnlfs_lookup] attaches no inode to the dentry and leaves the
    volume as it was; [pnlfs_lookup] never resolves a name to inode 0. *)
Theorem inode_zero_is_not_found (v : volume) (dir : Z) (name : list Z)
    (dinfo : pnlfs_inode_info) :
  icache v !! dir = Some dinfo →
  let n := Z.to_nat (nr_entries dinfo) in
  ∃ ino,
    pnlfs_inode_by_name v dir name = Some ino ∧
    (sb_bread v (index_block dinfo) = None → ino = 0) ∧
    (∀ blk, sb_bread v (index_block dinfo) = Some blk →
       ((∀ i, (i < n)%nat → name_matches name blk i = false) → ino = 0) ∧
       (∀ i, (i < n)%nat → name_matches name blk i = true →
             (∀ j, (j < i)%nat → name_matches name blk j = false) →
             ino = file_inode blk i ∧
             (file_inode blk i = 0 → ino = 0))) ∧
    (ino = 0 → pnlfs_lookup v dir name = Some (None, v)) ∧
    (∀ v', pnlfs_lookup v dir name ≠ Some (Some 0, v')).
Proof.
  intros Hdir n.
  assert (Hrun : ∃ ino, pnlfs_inode_by_name v dir name = Some ino).
  { unfold pnlfs_inode_by_name. rewrite Hdir. simpl.
    destruct (sb_bread v (index_block dinfo)) as [blk|]; [|eauto].
    destruct (scan_dir name blk _ 0); eauto. }
  destruct Hrun as [ino Hrun]. exists ino. split; [done|].
  unfold pnlfs_inode_by_name in Hrun. rewrite Hdir in Hrun. simpl in Hrun.
  fold n in Hrun. split; [|split; [|split]].
  - intros Hnone. rewrite Hnone in Hrun. congruence.
  - intros blk Hblk. rewrite Hblk in Hrun. split.
    + intros Hno.
      replace (scan_dir name blk n 0) with (@None nat) in Hrun; [congruence|].
      symmetry. apply scan_dir_None. intros k Hk. apply Hno. lia.
    + intros i Hi Hm Hfirst.
      replace (scan_dir name blk n 0) with (Some i) in Hrun.
      { split; congruence. }
      symmetry. apply scan_dir_Some. split; [lia|]. split; [done|].
      intros j Hj. apply Hfirst. lia.
  - intros ->. unfold pnlfs_lookup, pnlfs_inode_by_name.
    rewrite Hdir. simpl. fold n. by rewrite Hrun.
  - intros v'. unfold pnlfs_lookup, pnlfs_inode_by_name.
    rewrite Hdir. simpl. fold n. rewrite Hrun. simpl.
    case_decide as Hino; [done|].
    destruct (pnlfs_iget v ino) as [r v''] eqn:Hg. intros [= -> ->].
    apply pnlfs_iget_spec in Hg as (_ & _ & _ & Hp).
    destruct (Hp 0 eq_refl) as [? _]. congruence.
Qed.

Lemma inode_zero_is_not_found_witness :
  icache vol_zero_entry !! 0 = Some (root_info 1) ∧
  sb_bread vol_zero_entry 4 = Some (block_of vol_zero_entry 4) ∧
  name_matches name_a_txt (block_of vol_zero_entry 4) 0 = true ∧
  file_inode (block_of vol_zero_entry 4) 0 = 0 ∧
  pnlfs_inode_by_name vol_zero_entry 0 name_a_txt = Some 0 ∧
  pnlfs_lookup vol_zero_entry 0 name_a_txt = Some (None, vol_zero_entry).
Proof.
  assert (H1 : icache vol_zero_entry !! 0 = Some (root_info 1))
    by evaluate.
  assert (H2 : sb_bread vol_zero_entry (index_block (root_info 1))
               = Some (block_of vol_zero_entry 4))
    by evaluate.
  assert (H3 : name_matches name_a_txt (block_of vol_zero_entry 4) 0 = true)
    by evaluate.
  assert (H4 : file_inode (block_of vol_zero_entry 4) 0 = 0)
    by evaluate.
  do 4 (split; [assumption|]).
  destruct (inode_zero_is_not_found vol_zero_entry 0 name_a_txt
              (root_info 1) H1) as (ino & Hrun & _ & Hblk & Hlook & _).
  destruct (Hblk _ H2) as [_ Hfirst].
  destruct (Hfirst 0%nat) as [_ Hzero].
  - vm_compute. lia.
  - exact H3.
  - intros j Hj. lia.
  - specialize (Hzero H4). subst ino. split; [exact Hrun | exact (Hlook eq_refl)].
Defined.

(** * Further properties *)

(** ** Which bit the allocators take *)

Lemma land_pow2_zero (w k : Z) :
  0 ≤ k → Z.land w (2 ^ k) = 0 ↔ Z.testbit w k = false.
Proof.
  intros Hk. split.
  - intros H. apply (f_equal (fun x => Z.testbit x k)) in H.
    rewrite Z.land_spec, Z.pow2_bits_true, Z.bits_0 in H by done.
    by rewrite andb_true_r in H.
  - intros H. apply Z.bits_inj'. intros n Hn.
    rewrite Z.land_spec, Z.bits_0, Z.pow2_bits_eqb by done.
    destruct (Z.eqb_spec k n) as [->|]; [by rewrite H | apply andb_false_r].
Qed.

Lemma scan_bit_first (w : Z) (fuel : nat) (b r : Z) :
  b ≤ r < b + Z.of_nat fuel →
  Z.land w (bit_mask (r - 1)) ≠ 0 →
  (∀ r', b ≤ r' < r → Z.land w (bit_mask (r' - 1)) = 0) →
  scan_bit w fuel b = Some r.
Proof.
  revert b. induction fuel as [|fuel IH]; intros b Hr Hnz Hlow; [lia|].
  simpl. case_decide as Hz.
  - destruct (decide (r = b)) as [->|]; [done|].
    apply IH; [lia | done |]. intros r' Hr'. apply Hlow. lia.
  - destruct (decide (r = b)) as [->|]; [done|].
    exfalso. apply Hz, Hlow. lia.
Qed.

Lemma clear_mask_small_bits (k i : Z) :
  0 ≤ k < 31 → 0 ≤ i < 64 →
  Z.testbit (clear_mask k) i = negb (k =? i).
Proof.
  intros Hk Hi. unfold clear_mask, ulong_of_int, u64, int_shl1.
  rewrite decide_True by lia.
  rewrite Z.mod_pow2_bits_low by lia.
  rewrite Z.lnot_spec by lia. by rewrite Z.pow2_bits_eqb by lia.
Qed.

Lemma word_low_bits_zero (w : Z) (n : Z) :
  0 ≤ n → (∀ k, 0 ≤ k < n → Z.testbit w k = false) → w mod 2 ^ n = 0.
Proof.
  intros Hn Hlow. apply Z.bits_inj'. intros k Hk. rewrite Z.bits_0.
  destruct (decide (k < n)).
  - rewrite Z.mod_pow2_bits_low by lia. apply Hlow. lia.
  - apply Z.mod_pow2_bits_high. lia.
Qed.

Lemma word_zero_bits (w : Z) :
  0 ≤ w < 2 ^ 64 → (∀ k, 0 ≤ k < 64 → Z.testbit w k = false) → w = 0.
Proof.
  intros Hw Hlow. rewrite <- (Z.mod_small w (2 ^ 64)) by done.
  by apply word_low_bits_zero.
Qed.

Lemma bitmap_bit_lookup (bm : list Z) (j : nat) (w k : Z) :
  bm !! j = Some w → 0 ≤ k < 64 →
  bitmap_bit bm (64 * Z.of_nat j + k) = Z.testbit w k.
Proof.
  intros Hw Hk. unfold bitmap_bit.
  replace ((64 * Z.of_nat j + k) / 64) with (Z.of_nat j)
    by (rewrite Z.add_comm, Z.mul_comm, Z.div_add, Z.div_small by lia; lia).
  replace ((64 * Z.of_nat j + k) mod 64) with k
    by (rewrite Z.add_comm, Z.mul_comm, Z.mod_add, Z.mod_small by lia; lia).
  by rewrite Nat2Z.id, Hw.
Qed.

Lemma bitmap_bit_split (i : Z) :
  0 ≤ i →
  i = 64 * Z.of_nat (Z.to_nat (i / 64)) + i mod 64 ∧ 0 ≤ i mod 64 < 64.
Proof.
  intros Hi. pose proof (Z.div_mod i 64 ltac:(lia)).
  assert (0 ≤ i / 64) by (apply Z.div_pos; lia).
  pose proof (Z.mod_pos_bound i 64 ltac:(lia)). lia.
Qed.

(** The two loops of an allocator on a bitmap whose lowest set bit is [i]:
    the word loop stops at word [i / 64]. *)
Lemma scan_words_lowest (bm : list Z) (n : nat) (i : Z) :
  Forall (fun w => 0 ≤ w < 2 ^ 64) bm → length bm = n → 0 ≤ i →
  bitmap_bit bm i = true →
  (∀ i', 0 ≤ i' < i → bitmap_bit bm i' = false) →
  ∃ w, scan_words bm n 0 = Some (Z.to_nat (i / 64)) ∧
       bm !! Z.to_nat (i / 64) = Some w ∧
       Z.testbit w (i mod 64) = true ∧
       ∀ k, 0 ≤ k < i mod 64 → Z.testbit w k = false.
Proof.
  intros Hrange Hlen Hi Hset Hlow.
  destruct (bitmap_bit_split i Hi) as [Hsplit Hmod].
  set (j := Z.to_nat (i / 64)) in *.
  destruct (bm !! j) as [w|] eqn:Hw; cycle 1.
  { unfold bitmap_bit in Hset. fold j in Hset. rewrite Hw in Hset.
    simpl in Hset. by rewrite Z.bits_0 in Hset. }
  exists w.
  assert (Hbit : Z.testbit w (i mod 64) = true).
  { rewrite <- (bitmap_bit_lookup bm j w) by done. by rewrite <- Hsplit. }
  assert (Hbelow : ∀ k, 0 ≤ k < i mod 64 → Z.testbit w k = false).
  { intros k Hk. rewrite <- (bitmap_bit_lookup bm j w) by (done || lia).
    apply Hlow. lia. }
  split; [|done].
  assert (Hzero : ∀ j' w', (j' < j)%nat → bm !! j' = Some w' → w' = 0).
  { intros j' w' Hj' Hw'. apply word_zero_bits.
    - rewrite Forall_lookup in Hrange. exact (Hrange _ _ Hw').
    - intros k Hk. rewrite <- (bitmap_bit_lookup bm j' w') by done.
      apply Hlow. lia. }
  assert (Hnz : w ≠ 0) by (intros ->; by rewrite Z.bits_0 in Hbit).
  pose proof (lookup_lt_Some _ _ _ Hw) as Hj.
  assert (Hgen : ∀ m cur, (cur ≤ j)%nat → (cur + m = n)%nat →
                 scan_words bm m cur = Some j).
  { induction m as [|m IH]; intros cur Hcur Hm; [lia|].
    simpl. destruct (decide (cur = j)) as [->|Hne].
    - rewrite Hw. simpl. by rewrite decide_False.
    - destruct (lookup_lt_is_Some_2 bm cur) as [w' Hw']; [lia|].
      rewrite Hw'. simpl. rewrite decide_True by (apply (Hzero cur); [lia|done]).
      apply IH; lia. }
  apply Hgen; lia.
Qed.

Lemma scan_bit_lowest (w k : Z) :
  0 ≤ k ≤ 30 → Z.testbit w k = true →
  (∀ k', 0 ≤ k' < k → Z.testbit w k' = false) →
  scan_bit w 32 1 = Some (k + 1).
Proof.
  intros Hk Hset Hlow. apply scan_bit_first; [lia| |].
  - replace (k + 1 - 1) with k by lia. rewrite bit_mask_small by lia.
    rewrite land_pow2_zero by lia. congruence.
  - intros r' Hr'. rewrite bit_mask_small by lia.
    apply land_pow2_zero; [lia|]. apply Hlow. lia.
Qed.

Lemma scan_bit_high (w : Z) :
  0 < w < 2 ^ 64 →
  (∀ k, 0 ≤ k ≤ 30 → Z.testbit w k = false) →
  scan_bit w 32 1 = Some 32 ∧ Z.land w (clear_mask 31) = 0.
Proof.
  intros Hw Hlow.
  assert (Hmod : w mod 2 ^ 31 = 0)
    by (apply word_low_bits_zero; [lia|]; intros k Hk; apply Hlow; lia).
  split.
  - destruct (scan_bit_finds w Hw) as (r & Hr & Hrange). rewrite Hr. f_equal.
    apply scan_bit_Some in Hr as [_ Hnz].
    destruct (decide (r = 32)) as [|Hne]; [done|]. exfalso. apply Hnz.
    rewrite bit_mask_small by lia. apply land_pow2_zero; [lia|].
    apply Hlow. lia.
  - change (clear_mask 31) with (Z.ones 31). by rewrite Z.land_ones by lia.
Qed.

(** The bitmap after the bit [i] found by the two loops has been cleared
    with [~(1 << k)], [k <= 30]. *)
Lemma bitmap_bit_cleared (bm : list Z) (w i i' : Z) :
  0 ≤ i → 0 ≤ i' → i mod 64 ≤ 30 →
  bm !! Z.to_nat (i / 64) = Some w →
  bitmap_bit
    (<[Z.to_nat (i / 64) := Z.land w (clear_mask (i mod 64))]> bm) i'
  = bitmap_bit bm i' && negb (bool_decide (i' = i)).
Proof.
  intros Hi Hi' Hk Hw.
  destruct (bitmap_bit_split i Hi) as [Hsplit Hmod].
  destruct (bitmap_bit_split i' Hi') as [Hsplit' Hmod'].
  pose proof (lookup_lt_Some _ _ _ Hw) as Hj.
  unfold bitmap_bit.
  destruct (decide (Z.to_nat (i' / 64) = Z.to_nat (i / 64))) as [Heq|Hne].
  - rewrite Heq, list_lookup_insert_eq by done. rewrite Hw. simpl.
    rewrite Z.land_spec, clear_mask_small_bits by lia. f_equal.
    destruct (Z.eqb_spec (i mod 64) (i' mod 64)) as [Hb|Hb].
    + rewrite bool_decide_eq_true_2; [done|]. lia.
    + rewrite bool_decide_eq_false_2; [done|]. intros ->. done.
  - rewrite list_lookup_insert_ne by done.
    rewrite bool_decide_eq_false_2; [by rewrite andb_true_r|].
    intros ->. done.
Qed.

Lemma u64_bit_number (j : nat) (k : Z) (n : Z) :
  0 ≤ n < 2 ^ 32 → (j < Z.to_nat (n * PNLFS_NR_WORDS_IN_BLOCK))%nat →
  0 ≤ k < 64 →
  u64 (Z.of_nat j * PNLFS_WORD_SIZE * 8 + (k + 1) - 1) = 64 * Z.of_nat j + k.
Proof.
  intros Hn Hj Hk. unfold u64, PNLFS_WORD_SIZE.
  change PNLFS_NR_WORDS_IN_BLOCK with 512 in Hj.
  rewrite Z.mod_small; lia.
Qed.

Lemma u32_bit_number (j : nat) (k : Z) :
  0 ≤ k < 64 → 64 * Z.of_nat j + k < 2 ^ 32 →
  u32 (Z.of_nat j * PNLFS_WORD_SIZE * 8 + (k + 1) - 1) = 64 * Z.of_nat j + k.
Proof.
  intros Hk Hj. unfold u32, PNLFS_WORD_SIZE. rewrite Z.mod_small; lia.
Qed.

(** X1.  [get_next_ifree] takes the lowest free inode: when the lowest set bit
    [i] of the inode bitmap is not above position 30 of its word, the
    function returns [i], clears that bit and no other, lowers
    [nr_free_inodes] by one and touches nothing of the block side. *)
Theorem get_next_ifree_lowest (s : pnlfs_sb_info) (i : Z) :
  sbi_wf s → nr_free_inodes s ≠ 0 → 0 ≤ i → i mod 64 ≤ 30 →
  bitmap_bit (ifree_bitmap s) i = true →
  (∀ i', 0 ≤ i' < i → bitmap_bit (ifree_bitmap s) i' = false) →
  ∃ s',
    get_next_ifree s = Some (i, s') ∧
    nr_free_inodes s' = nr_free_inodes s - 1 ∧
    nr_free_blocks s' = nr_free_blocks s ∧
    bfree_bitmap s' = bfree_bitmap s ∧
    ∀ i', 0 ≤ i' →
      bitmap_bit (ifree_bitmap s') i'
      = bitmap_bit (ifree_bitmap s) i' && negb (bool_decide (i' = i)).
Proof.
  intros (Hfi & Hfb & Hni & Hnb & Hli & Hlb & Hri & Hrb) Hnz Hi Hk Hset Hlow.
  destruct (bitmap_bit_split i Hi) as [Hsplit Hmod].
  destruct (scan_words_lowest (ifree_bitmap s) _ i Hri Hli Hi Hset Hlow)
    as (w & Hscan & Hw & Hbit & Hbelow).
  pose proof (lookup_lt_Some _ _ _ Hw) as Hj.
  eexists. unfold get_next_ifree. rewrite decide_False by done.
  rewrite Hscan. cbv beta iota delta [mbind option_bind]. rewrite Hw.
  cbv beta iota delta [mbind option_bind].
  rewrite (scan_bit_lowest w (i mod 64)) by (done || lia).
  cbv beta iota.
  rewrite (u64_bit_number _ _ (nr_ifree_blocks s)) by (done || lia).
  rewrite <- Hsplit. split; [reflexivity|]. simpl.
  split; [apply u32_small; lia|]. do 2 (split; [done|]).
  intros i' Hi'. replace (i mod 64 + 1 - 1) with (i mod 64) by lia.
  by apply bitmap_bit_cleared.
Qed.

(** X2.  [get_next_bfree] does the same on the block side. *)
Theorem get_next_bfree_lowest (s : pnlfs_sb_info) (i : Z) :
  sbi_wf s → nr_free_blocks s ≠ 0 → 0 ≤ i < 2 ^ 32 → i mod 64 ≤ 30 →
  bitmap_bit (bfree_bitmap s) i = true →
  (∀ i', 0 ≤ i' < i → bitmap_bit (bfree_bitmap s) i' = false) →
  ∃ s',
    get_next_bfree s = Some (i, s') ∧
    nr_free_blocks s' = nr_free_blocks s - 1 ∧
    nr_free_inodes s' = nr_free_inodes s ∧
    ifree_bitmap s' = ifree_bitmap s ∧
    ∀ i', 0 ≤ i' →
      bitmap_bit (bfree_bitmap s') i'
      = bitmap_bit (bfree_bitmap s) i' && negb (bool_decide (i' = i)).
Proof.
  intros (Hfi & Hfb & Hni & Hnb & Hli & Hlb & Hri & Hrb) Hnz Hi Hk Hset Hlow.
  destruct (bitmap_bit_split i ltac:(lia)) as [Hsplit Hmod].
  destruct (scan_words_lowest (bfree_bitmap s) _ i Hrb Hlb ltac:(lia) Hset Hlow)
    as (w & Hscan & Hw & Hbit & Hbelow).
  eexists. unfold get_next_bfree. rewrite decide_False by done.
  rewrite Hscan. cbv beta iota delta [mbind option_bind]. rewrite Hw.
  cbv beta iota delta [mbind option_bind].
  rewrite (scan_bit_lowest w (i mod 64)) by (done || lia).
  cbv beta iota.
  rewrite u32_bit_number by lia.
  rewrite <- Hsplit. split; [reflexivity|]. simpl.
  split; [apply u32_small; lia|]. do 2 (split; [done|]).
  intros i' Hi'. replace (i mod 64 + 1 - 1) with (i mod 64) by lia.
  apply bitmap_bit_cleared; (done || lia).
Qed.

(** X3.  When the first word with a set bit has none among its positions 0 to
    30, [get_next_ifree] returns position 31 of that word and leaves the
    whole word zero: whichever of the positions 31 to 63 were free, none of
    them is free afterwards, and the counter has gone down by one. *)
Theorem get_next_ifree_high_half (s : pnlfs_sb_info) (j : nat) (w : Z) :
  sbi_wf s → nr_free_inodes s ≠ 0 →
  ifree_bitmap s !! j = Some w → w ≠ 0 →
  (∀ j' w', (j' < j)%nat → ifree_bitmap s !! j' = Some w' → w' = 0) →
  (∀ k, 0 ≤ k ≤ 30 → Z.testbit w k = false) →
  ∃ s',
    get_next_ifree s = Some (64 * Z.of_nat j + 31, s') ∧
    nr_free_inodes s' = nr_free_inodes s - 1 ∧
    ifree_bitmap s' !! j = Some 0 ∧
    ∀ k, 0 ≤ k < 64 →
      bitmap_bit (ifree_bitmap s') (64 * Z.of_nat j + k) = false.
Proof.
  intros (Hfi & Hfb & Hni & Hnb & Hli & Hlb & Hri & Hrb) Hnz Hw Hwnz Hzero Hlow.
  pose proof (lookup_lt_Some _ _ _ Hw) as Hj.
  assert (Hwr : 0 < w < 2 ^ 64).
  { rewrite Forall_lookup in Hri. specialize (Hri _ _ Hw). simpl in Hri. lia. }
  destruct (scan_bit_high w Hwr Hlow) as [Hbit Hclear].
  assert (Hscan : ∀ m cur, (cur ≤ j)%nat →
                  (cur + m = length (ifree_bitmap s))%nat →
                  scan_words (ifree_bitmap s) m cur = Some j).
  { induction m as [|m IH]; intros cur Hcur Hm; [lia|].
    simpl. destruct (decide (cur = j)) as [->|Hne].
    - rewrite Hw. simpl. by rewrite decide_False.
    - destruct (lookup_lt_is_Some_2 (ifree_bitmap s) cur) as [w' Hw']; [lia|].
      rewrite Hw'. simpl.
      rewrite decide_True by (apply (Hzero cur); [lia|done]).
      apply IH; lia. }
  eexists. unfold get_next_ifree. rewrite decide_False by done.
  rewrite <- Hli, (Hscan _ 0%nat) by lia.
  cbv beta iota delta [mbind option_bind]. rewrite Hw.
  cbv beta iota delta [mbind option_bind]. rewrite Hbit. cbv beta iota.
  change (32 - 1) with 31. rewrite Hclear.
  replace (Z.of_nat j * PNLFS_WORD_SIZE * 8 + 32 - 1)
    with (Z.of_nat j * PNLFS_WORD_SIZE * 8 + (31 + 1) - 1) by lia.
  rewrite (u64_bit_number j 31 (nr_ifree_blocks s)) by lia.
  split; [reflexivity|]. simpl. split; [apply u32_small; lia|].
  assert (Hnew : <[j:=0]> (ifree_bitmap s) !! j = Some 0)
    by (by apply list_lookup_insert_eq).
  split; [done|]. intros k Hk.
  rewrite (bitmap_bit_lookup _ j 0) by done. apply Z.bits_0.
Qed.

Lemma get_next_ifree_lowest_witness :
  sbi_wf (sbi vol0) ∧ bitmap_bit (ifree_bitmap (sbi vol0)) 1 = true ∧
  ∃ s',
    get_next_ifree (sbi vol0) = Some (1, s') ∧
    nr_free_inodes s' = 30 ∧
    bitmap_bit (ifree_bitmap s') 1 = false ∧
    bitmap_bit (ifree_bitmap s') 2 = true.
Proof.
  assert (H1 : sbi_wf (sbi vol0))
    by (apply (bool_decide_unpack _); vm_compute; exact I).
  assert (H2 : nr_free_inodes (sbi vol0) ≠ 0) by (vm_compute; congruence).
  assert (H3 : 0 ≤ 1) by lia.
  assert (H4 : 1 mod 64 ≤ 30) by (vm_compute; congruence).
  assert (H5 : bitmap_bit (ifree_bitmap (sbi vol0)) 1 = true) by evaluate.
  assert (H6 : ∀ i', 0 ≤ i' < 1 →
               bitmap_bit (ifree_bitmap (sbi vol0)) i' = false)
    by (intros i' Hi'; replace i' with 0 by lia; evaluate).
  do 2 (split; [assumption|]).
  destruct (get_next_ifree_lowest (sbi vol0) 1 H1 H2 H3 H4 H5 H6)
    as (s' & Hr & Hn & _ & _ & Hbits).
  exists s'. split; [exact Hr|]. split; [rewrite Hn; evaluate|].
  split; rewrite Hbits by lia; evaluate.
Defined.

Lemma get_next_bfree_lowest_witness :
  sbi_wf (sbi vol0) ∧ bitmap_bit (bfree_bitmap (sbi vol0)) 5 = true ∧
  ∃ s',
    get_next_bfree (sbi vol0) = Some (5, s') ∧
    nr_free_blocks s' = 58 ∧
    bitmap_bit (bfree_bitmap s') 5 = false ∧
    bitmap_bit (bfree_bitmap s') 6 = true.
Proof.
  assert (H1 : sbi_wf (sbi vol0))
    by (apply (bool_decide_unpack _); vm_compute; exact I).
  assert (H2 : nr_free_blocks (sbi vol0) ≠ 0) by (vm_compute; congruence).
  assert (H3 : 0 ≤ 5 < 2 ^ 32) by lia.
  assert (H4 : 5 mod 64 ≤ 30) by (vm_compute; congruence).
  assert (H5 : bitmap_bit (bfree_bitmap (sbi vol0)) 5 = true) by evaluate.
  assert (H6 : ∀ i', 0 ≤ i' < 5 →
               bitmap_bit (bfree_bitmap (sbi vol0)) i' = false).
  { intros i' Hi'.
    assert (Hc : i' = 0 ∨ i' = 1 ∨ i' = 2 ∨ i' = 3 ∨ i' = 4) by lia.
    destruct Hc as [->|[->|[->|[->| ->]]]]; evaluate. }
  do 2 (split; [assumption|]).
  destruct (get_next_bfree_lowest (sbi vol0) 5 H1 H2 H3 H4 H5 H6)
    as (s' & Hr & Hn & _ & _ & Hbits).
  exists s'. split; [exact Hr|]. split; [rewrite Hn; evaluate|].
  split; rewrite Hbits by lia; evaluate.
Defined.

Lemma get_next_ifree_high_half_witness :
  ifree_bitmap (sbi vol_thirty) !! 0%nat = Some (2 ^ 64 - 2 ^ 31) ∧
  nr_free_inodes (sbi vol_thirty) = 33 ∧
  ∃ s',
    get_next_ifree (sbi vol_thirty) = Some (31, s') ∧
    nr_free_inodes s' = 32 ∧
    ifree_bitmap s' !! 0%nat = Some 0 ∧
    bitmap_bit (ifree_bitmap s') 32 = false.
Proof.
  assert (H1 : sbi_wf (sbi vol_thirty))
    by (apply (bool_decide_unpack _); vm_compute; exact I).
  assert (H2 : nr_free_inodes (sbi vol_thirty) ≠ 0) by (vm_compute; congruence).
  assert (H3 : ifree_bitmap (sbi vol_thirty) !! 0%nat = Some (2 ^ 64 - 2 ^ 31))
    by evaluate.
  assert (H4 : 2 ^ 64 - 2 ^ 31 ≠ 0) by lia.
  assert (H5 : ∀ (j' : nat) w', (j' < 0)%nat →
               ifree_bitmap (sbi vol_thirty) !! j' = Some w' → w' = 0)
    by (intros j' w' Hj'; lia).
  assert (H6 : ∀ k, 0 ≤ k ≤ 30 → Z.testbit (2 ^ 64 - 2 ^ 31) k = false).
  { intros k Hk. change (2 ^ 64 - 2 ^ 31) with (Z.shiftl (2 ^ 33 - 1) 31).
    apply Z.shiftl_spec_low. lia. }
  split; [assumption|]. split; [evaluate|].
  destruct (get_next_ifree_high_half (sbi vol_thirty) 0 _ H1 H2 H3 H4 H5 H6)
    as (s' & Hr & Hn & Hw & Hbits).
  exists s'. split; [exact Hr|]. split; [rewrite Hn; evaluate|].
  split; [exact Hw|]. apply (Hbits 32). lia.
Defined.

Lemma scan_words_all_zero (bm : list Z) (n cur : nat) :
  Forall (fun w => w = 0) bm → scan_words bm n cur = None.
Proof.
  intros Hz. revert cur. induction n as [|n IH]; intros cur; [done|].
  simpl. destruct (bm !! cur) as [w|] eqn:Hw; [|done]. simpl.
  rewrite Forall_lookup in Hz. rewrite decide_True by (by eapply Hz).
  apply IH.
Qed.

(** X4.  With a counter that is not zero and a bitmap that holds no set bit,
    neither allocator returns: the word scan wraps around for ever. *)
Theorem allocators_spin_on_empty_bitmap (s : pnlfs_sb_info) :
  (nr_free_inodes s ≠ 0 → Forall (fun w => w = 0) (ifree_bitmap s) →
   get_next_ifree s = None) ∧
  (nr_free_blocks s ≠ 0 → Forall (fun w => w = 0) (bfree_bitmap s) →
   get_next_bfree s = None).
Proof.
  split; intros Hnz Hz.
  - unfold get_next_ifree. rewrite decide_False by done.
    by rewrite scan_words_all_zero.
  - unfold get_next_bfree. rewrite decide_False by done.
    by rewrite scan_words_all_zero.
Qed.

Lemma allocators_spin_on_empty_bitmap_witness :
  nr_free_inodes (sbi vol_thirty_one) = 32 ∧
  Forall (fun w => w = 0) (ifree_bitmap (sbi vol_thirty_one)) ∧
  get_next_ifree (sbi vol_thirty_one) = None.
Proof.
  assert (H1 : nr_free_inodes (sbi vol_thirty_one) = 32) by evaluate.
  assert (H2 : nr_free_inodes (sbi vol_thirty_one) ≠ 0)
    by (vm_compute; congruence).
  assert (H3 : Forall (fun w => w = 0) (ifree_bitmap (sbi vol_thirty_one)))
    by (apply (bool_decide_unpack _); vm_compute; exact I).
  do 2 (split; [assumption|]).
  exact (proj1 (allocators_spin_on_empty_bitmap (sbi vol_thirty_one)) H2 H3).
Defined.

(** ** Directory entries as 32-byte records *)


Lemma file_entry_lookup (b : list Z) (j i : nat) :
  (i < 32)%nat → file_entry b j !! i = b !! (j * 32 + i)%nat.
Proof.
  intros Hi. unfold file_entry. rewrite file_off_eq.
  change (Z.to_nat sizeof_pnlfs_file) with 32%nat.
  rewrite lookup_take_lt by done. by rewrite lookup_drop.
Qed.

Lemma file_entry_length (b : list Z) (j : nat) :
  (j * 32 + 32 ≤ length b)%nat → length (file_entry b j) = 32%nat.
Proof.
  intros Hj. unfold file_entry. rewrite file_off_eq.
  change (Z.to_nat sizeof_pnlfs_file) with 32%nat.
  rewrite length_take, length_drop. lia.
Qed.

Lemma file_entry_eq (b b' : list Z) (j j' : nat) :
  (j * 32 + 32 ≤ length b)%nat → (j' * 32 + 32 ≤ length b')%nat →
  (∀ i, (i < 32)%nat → b !! (j * 32 + i)%nat = b' !! (j' * 32 + i)%nat) →
  file_entry b j = file_entry b' j'.
Proof.
  intros Hj Hj' Heq. apply list_eq. intros i.
  destruct (decide (i < 32)%nat) as [Hi|Hi].
  - rewrite !file_entry_lookup by done. by apply Heq.
  - rewrite !lookup_ge_None_2; [done| |]; rewrite file_entry_length; lia.
Qed.

Lemma file_entry_filename (b : list Z) (j : nat) :
  file_filename b j = drop 4 (file_entry b j).
Proof.
  unfold file_filename, file_entry. rewrite filename_off_eq, file_off_eq.
  change (Z.to_nat sizeof_pnlfs_file) with 32%nat.
  change (Z.to_nat PNLFS_FILENAME_LEN) with 28%nat.
  rewrite <- drop_drop. change 32%nat with (4 + 28)%nat.
  by rewrite <- take_drop_commute.
Qed.

Lemma name_matches_filename (name b : list Z) (j : nat) :
  (length name ≤ Z.to_nat PNLFS_FILENAME_LEN)%nat →
  name_matches name b j = c_strncmp name (file_filename b j) (length name).
Proof.
  intros Hlen. unfold name_matches, file_filename.
  rewrite c_strncmp_take. symmetry. rewrite c_strncmp_take.
  by rewrite take_take, Nat.min_l.
Qed.

Lemma name_matches_entry (name b b' : list Z) (j j' : nat) :
  (length name ≤ Z.to_nat PNLFS_FILENAME_LEN)%nat →
  file_entry b j = file_entry b' j' →
  name_matches name b j = name_matches name b' j'.
Proof.
  intros Hlen Heq. rewrite !name_matches_filename by done.
  by rewrite !file_entry_filename, Heq.
Qed.

Lemma file_inode_entry (b b' : list Z) (j j' : nat) :
  file_entry b j = file_entry b' j' → file_inode b j = file_inode b' j'.
Proof.
  intros Heq. unfold file_inode, le32_at, byte_at. rewrite !file_off_eq.
  assert (H : ∀ i, (i < 32)%nat → b !! (j * 32 + i)%nat = b' !! (j' * 32 + i)%nat).
  { intros i Hi. by rewrite <- !file_entry_lookup, Heq. }
  rewrite <- (Nat.add_0_r (j * 32)) at 1.
  rewrite <- (Nat.add_0_r (j' * 32)) at 1.
  by rewrite !H by lia.
Qed.


(** ** [pnlfs_create] and [pnlfs_mkdir] *)

Lemma pnlfs_create_result (v : volume) (dir : Z) (name : list Z) (mode : Z)
    (dinfo : pnlfs_inode_info) (blk : list Z) (ino : Z) (v1 : volume) :
  icache v !! dir = Some dinfo →
  nr_entries dinfo < PNLFS_MAX_DIR_ENTRIES →
  sb_bread v (index_block dinfo) = Some blk →
  pnlfs_new_inode v mode = Some (Some ino, v1) →
  ino ≠ dir →
  let n := Z.to_nat (nr_entries dinfo) in
  pnlfs_create v dir name mode
  = Some (0, with_inode
               (with_block v1 (index_block dinfo)
                  (write_bytes
                     (write_bytes blk (file_off n) (cpu_to_le32 ino))
                     (filename_off n) (c_strncpy name (length name))))
               dir (with_nr_entries dinfo (u32 (nr_entries dinfo + 1)))).
Proof.
  intros Hdir Hnr Hblk Hnew Hne n.
  destruct (pnlfs_new_inode_spec _ _ _ _ Hnew) as (_ & Hb1 & Hc1).
  unfold pnlfs_create. rewrite Hdir. simpl.
  rewrite decide_False by lia. rewrite Hblk, Hnew. simpl.
  rewrite (Hc1 dir) by done. rewrite Hdir. simpl.
  unfold sb_bread in *. rewrite Hb1, Hblk. simpl. reflexivity.
Qed.



(** X7.  [pnlfs_create] stores the name with [strncpy] over exactly its length:
    no terminator is written, and the bytes of the slot after the name
    are those the block held before. *)
Theorem create_leaves_name_tail (v : volume) (dir : Z) (name : list Z)
    (mode : Z) (dinfo : pnlfs_inode_info) (blk : list Z) (ino : Z)
    (v1 : volume) :
  icache v !! dir = Some dinfo →
  0 ≤ nr_entries dinfo < PNLFS_MAX_DIR_ENTRIES →
  sb_bread v (index_block dinfo) = Some blk →
  length blk = Z.to_nat PNLFS_BLOCK_SIZE →
  (length name ≤ Z.to_nat PNLFS_FILENAME_LEN)%nat →
  pnlfs_new_inode v mode = Some (Some ino, v1) →
  ino ≠ dir →
  let n := Z.to_nat (nr_entries dinfo) in
  ∃ v2 blk2,
    pnlfs_create v dir name mode = Some (0, v2) ∧
    sb_bread v2 (index_block dinfo) = Some blk2 ∧
    file_filename blk2 n
    = c_strncpy name (length name) ++ drop (length name) (file_filename blk n).
Proof.
  intros Hdir Hnr Hblk Hlen Hname Hnew Hne n.
  eexists _, _. split.
  { apply (pnlfs_create_result v dir name mode dinfo blk ino v1);
      (done || lia). }
  unfold sb_bread. simpl. rewrite lookup_insert_eq. split; [done|].
  fold n. unfold PNLFS_MAX_DIR_ENTRIES in Hnr.
  change (Z.to_nat PNLFS_BLOCK_SIZE) with 4096%nat in Hlen.
  change (Z.to_nat PNLFS_FILENAME_LEN) with 28%nat in Hname.
  assert (Hn : (n < 128)%nat) by (unfold n; lia).
  unfold file_filename. rewrite filename_off_eq, file_off_eq.
  change (Z.to_nat PNLFS_FILENAME_LEN) with 28%nat.
  rewrite write_bytes_drop
    by (rewrite write_bytes_length, c_strncpy_length; lia).
  rewrite c_strncpy_length.
  rewrite take_app_ge by (rewrite c_strncpy_length; lia).
  rewrite c_strncpy_length. f_equal.
  apply list_eq. intros i.
  rewrite lookup_drop.
  destruct (decide (i < 28 - length name)%nat) as [Hi|Hi].
  - rewrite !lookup_take_lt by lia. rewrite !lookup_drop.
    unfold write_bytes. rewrite list_lookup_inserts_ge
      by (change (length (cpu_to_le32 ino)) with 4%nat; lia).
    f_equal. lia.
  - by rewrite !lookup_take_ge by lia.
Qed.



Lemma create_leaves_name_tail_witness :
  icache vol_stale !! 0 = Some (root_info 0) ∧
  sb_bread vol_stale 4 = Some (block_of vol_stale 4) ∧
  pnlfs_new_inode vol_stale mode_file
  = Some (Some 1, state_after (pnlfs_new_inode vol_stale mode_file)) ∧
  ∃ v2 blk2,
    pnlfs_create vol_stale 0 name_abc mode_file = Some (0, v2) ∧
    sb_bread v2 4 = Some blk2 ∧
    take 6 (file_filename blk2 0) = name_abcdef.
Proof.
  assert (H1 : icache vol_stale !! 0 = Some (root_info 0)) by evaluate.
  assert (H2 : 0 ≤ nr_entries (root_info 0) < PNLFS_MAX_DIR_ENTRIES)
    by evaluate_range.
  assert (H3 : sb_bread vol_stale (index_block (root_info 0))
               = Some (block_of vol_stale 4)) by evaluate.
  assert (H4 : length (block_of vol_stale 4) = Z.to_nat PNLFS_BLOCK_SIZE)
    by evaluate.
  assert (H5 : (length name_abc ≤ Z.to_nat PNLFS_FILENAME_LEN)%nat)
    by (vm_compute; lia).
  assert (H6 : pnlfs_new_inode vol_stale mode_file
               = Some (Some 1,
                       state_after (pnlfs_new_inode vol_stale mode_file)))
    by evaluate.
  assert (H7 : 1 ≠ 0) by lia.
  do 3 (split; [assumption|]).
  destruct (create_leaves_name_tail vol_stale 0 name_abc mode_file
              (root_info 0) (block_of vol_stale 4) 1 _ H1 H2 H3 H4 H5 H6 H7)
    as (v2 & blk2 & Hc & Hb & Hf).
  exists v2, blk2. split; [exact Hc|]. split; [exact Hb|].
  change (Z.to_nat (nr_entries (root_info 0))) with 0%nat in Hf.
  rewrite Hf. evaluate.
Defined.

(** ** Removal of the entry a name resolves to *)

Lemma dir_remove_scan_found (name blk : list Z) (nr : Z) (k : nat) :
  0 < nr < 2 ^ 32 →
  scan_dir name blk (Z.to_nat nr) 0 = Some k →
  dir_remove_scan name blk nr
  = if decide (k < Z.to_nat nr - 1)%nat then Some k else None.
Proof.
  intros Hnr Hscan. unfold dir_remove_scan. rewrite u32_small by lia.
  apply scan_dir_Some in Hscan as (Hk & Hm & Hbefore).
  case_decide as Hlast.
  - apply scan_dir_Some. split; [lia|]. split; [done|].
    intros j Hj. apply Hbefore. lia.
  - apply scan_dir_None. intros j Hj. apply Hbefore. lia.
Qed.

(** When the loop finds the name in slot [k], the entries from [k + 1] to
    the last one move down by one slot and nothing else changes. *)
Lemma dir_remove_entries (name blk : list Z) (nr : Z) (k j : nat) :
  0 < nr ≤ PNLFS_MAX_DIR_ENTRIES →
  length blk = Z.to_nat PNLFS_BLOCK_SIZE →
  dir_remove_scan name blk nr = Some k →
  (j < 128)%nat →
  file_entry (dir_remove name blk nr) j
  = file_entry blk (if decide (k ≤ j < Z.to_nat nr - 1)%nat then S j else j).
Proof.
  intros Hnr Hlen Hscan Hj.
  unfold PNLFS_MAX_DIR_ENTRIES in Hnr.
  change (Z.to_nat PNLFS_BLOCK_SIZE) with 4096%nat in Hlen.
  assert (Hk : (k < Z.to_nat nr - 1)%nat).
  { unfold dir_remove_scan in Hscan. rewrite u32_small in Hscan by lia.
    apply scan_dir_Some in Hscan. lia. }
  unfold dir_remove. rewrite Hscan. unfold c_memcpy, write_bytes.
  rewrite !file_off_eq. rewrite u32_small by lia.
  set (cnt := Z.to_nat (sizeof_pnlfs_file * (nr - Z.of_nat k - 1))).
  assert (Hcnt : cnt = ((Z.to_nat nr - 1 - k) * 32)%nat)
    by (unfold cnt, sizeof_pnlfs_file, PNLFS_FILENAME_LEN; lia).
  assert (Hdata : length (take cnt (drop (S k * 32) blk)) = cnt)
    by (rewrite length_take, length_drop; lia).
  apply file_entry_eq.
  - fold (write_bytes blk (k * 32) (take cnt (drop (S k * 32) blk))).
    rewrite write_bytes_length. lia.
  - case_decide; lia.
  - intros i Hi. case_decide as Hmid.
    + rewrite list_lookup_inserts by (rewrite ?Hdata; lia).
      rewrite lookup_take_lt by lia. rewrite lookup_drop. f_equal. lia.
    + destruct (decide (j < k)%nat).
      * by rewrite list_lookup_inserts_lt by lia.
      * by rewrite list_lookup_inserts_ge by (rewrite Hdata; lia).
Qed.

(** The removal step seen on the entries: when [name] resolves to slot
    [k], the directory afterwards holds the entries it held without the
    one of slot [k], whether the loop moved them or the decrement of the
    count dropped the last one. *)
Lemma delete_dir_entry_view (name blk : list Z) (nr : Z) (k j : nat) :
  0 < nr ≤ PNLFS_MAX_DIR_ENTRIES →
  length blk = Z.to_nat PNLFS_BLOCK_SIZE →
  scan_dir name blk (Z.to_nat nr) 0 = Some k →
  (j < Z.to_nat nr - 1)%nat →
  file_entry (dir_remove name blk nr) j
  = file_entry blk (if decide (k ≤ j)%nat then S j else j).
Proof.
  intros Hnr Hlen Hscan Hj.
  assert (Hnr' : 0 < nr < 2 ^ 32) by (unfold PNLFS_MAX_DIR_ENTRIES in Hnr; lia).
  pose proof (dir_remove_scan_found name blk nr k Hnr' Hscan) as Hfound.
  apply scan_dir_Some in Hscan as (Hk & _).
  case_decide as Hlast.
  - rewrite (dir_remove_entries name blk nr k)
      by (done || unfold PNLFS_MAX_DIR_ENTRIES in Hnr; lia).
    repeat case_decide; (done || lia).
  - rewrite dir_remove_not_found by done.
    rewrite decide_False by lia. done.
Qed.

Lemma delete_dir_entry_list (name blk : list Z) (nr : Z) (k : nat) :
  0 < nr ≤ PNLFS_MAX_DIR_ENTRIES →
  length blk = Z.to_nat PNLFS_BLOCK_SIZE →
  scan_dir name blk (Z.to_nat nr) 0 = Some k →
  file_entry (dir_remove name blk nr) <$> seq 0 (Z.to_nat (nr - 1))
  = delete k (file_entry blk <$> seq 0 (Z.to_nat nr)).
Proof.
  intros Hnr Hlen Hscan.
  pose proof (fun j => delete_dir_entry_view name blk nr k j Hnr Hlen Hscan)
    as Hview.
  apply scan_dir_Some in Hscan as (Hk & _).
  apply list_eq. intros j.
  rewrite list_lookup_fmap.
  destruct (decide (j < Z.to_nat nr - 1)%nat) as [Hj|Hj].
  - rewrite lookup_seq_lt by lia. simpl. rewrite Hview by done.
    destruct (decide (k ≤ j)%nat).
    + rewrite list_lookup_delete_ge by done. rewrite list_lookup_fmap.
      by rewrite lookup_seq_lt by lia.
    + rewrite list_lookup_delete_lt by lia. rewrite list_lookup_fmap.
      by rewrite lookup_seq_lt by lia.
  - rewrite lookup_seq_ge by lia. simpl. symmetry.
    apply lookup_ge_None_2. rewrite length_delete.
    + rewrite length_fmap, length_seq. lia.
    + rewrite list_lookup_fmap, lookup_seq_lt by lia. eauto.
Qed.

Lemma scan_dir_after_removal_gone (name blk blk' : list Z) (n k : nat) :
  (length name ≤ Z.to_nat PNLFS_FILENAME_LEN)%nat →
  (∀ j, (j < n - 1)%nat →
     file_entry blk' j = file_entry blk (if decide (k ≤ j)%nat then S j else j)) →
  (∀ j, (j < n)%nat → j ≠ k → name_matches name blk j = false) →
  scan_dir name blk' (n - 1) 0 = None.
Proof.
  intros Hlen Hview Hothers. apply scan_dir_None. intros j Hj.
  rewrite (name_matches_entry name blk' blk j _ Hlen (Hview j ltac:(lia))).
  apply Hothers; case_decide; lia.
Qed.

Lemma scan_dir_after_removal_kept (name blk blk' : list Z) (n k j : nat) :
  (length name ≤ Z.to_nat PNLFS_FILENAME_LEN)%nat →
  (k < n)%nat →
  (∀ j, (j < n - 1)%nat →
     file_entry blk' j = file_entry blk (if decide (k ≤ j)%nat then S j else j)) →
  scan_dir name blk n 0 = Some j →
  name_matches name blk k = false →
  ∃ j', scan_dir name blk' (n - 1) 0 = Some j' ∧
        file_entry blk' j' = file_entry blk j.
Proof.
  intros Hlen Hk Hview Hscan Hnot.
  apply scan_dir_Some in Hscan as (Hj & Hm & Hbefore).
  assert (Hjk : j ≠ k) by (intros ->; congruence).
  exists (if decide (k < j)%nat then (j - 1)%nat else j).
  assert (He : file_entry blk' (if decide (k < j)%nat then (j - 1)%nat else j)
               = file_entry blk j).
  { rewrite Hview by (case_decide; lia).
    f_equal. repeat case_decide; lia. }
  split; [|done]. apply scan_dir_Some. split; [case_decide; lia|]. split.
  - by rewrite (name_matches_entry name blk' blk _ j Hlen He).
  - intros i Hi.
    rewrite (name_matches_entry name blk' blk i _ Hlen
               (Hview i ltac:(case_decide; lia))).
    destruct (decide (k ≤ i)%nat).
    + destruct (decide (S i = k)) as [<-|]; [lia|].
      apply Hbefore. case_decide; lia.
    + apply Hbefore. case_decide; lia.
Qed.

(** What the step shared by [pnlfs_unlink], [pnlfs_rmdir] and
    [pnlfs_rename] does to the directory when the name resolves. *)
Lemma delete_dir_entry_resolved (v v' : volume) (dir : Z) (name : list Z)
    (dinfo : pnlfs_inode_info) (blk : list Z) (k : nat) :
  0 < nr_entries dinfo ≤ PNLFS_MAX_DIR_ENTRIES →
  length blk = Z.to_nat PNLFS_BLOCK_SIZE →
  (length name ≤ Z.to_nat PNLFS_FILENAME_LEN)%nat →
  let n := Z.to_nat (nr_entries dinfo) in
  scan_dir name blk n 0 = Some k →
  icache v' !! dir = icache (delete_dir_entry v dir dinfo blk name) !! dir →
  sb_bread v' (index_block dinfo)
  = sb_bread (delete_dir_entry v dir dinfo blk name) (index_block dinfo) →
  dir_entries v' dir = Some (delete k (file_entry blk <$> seq 0 n)) ∧
  ((∀ j, (j < n)%nat → j ≠ k → name_matches name blk j = false) →
   pnlfs_inode_by_name v' dir name = Some 0) ∧
  (∀ name' j, (length name' ≤ Z.to_nat PNLFS_FILENAME_LEN)%nat →
     scan_dir name' blk n 0 = Some j → name_matches name' blk k = false →
     pnlfs_inode_by_name v' dir name' = Some (file_inode blk j)).
Proof.
  intros Hnr Hlen Hname n Hscan Hic Hbl.
  assert (Hu : u32 (nr_entries dinfo - 1) = nr_entries dinfo - 1)
    by (apply u32_small; unfold PNLFS_MAX_DIR_ENTRIES in Hnr; lia).
  assert (Hd : icache v' !! dir
               = Some (with_nr_entries dinfo (nr_entries dinfo - 1)))
    by (by rewrite Hic, delete_dir_entry_dir, Hu).
  assert (Hb : sb_bread v' (index_block dinfo)
               = Some (dir_remove name blk (nr_entries dinfo))).
  { rewrite Hbl. exact (delete_dir_entry_block v dir dinfo blk name). }
  pose proof (fun j => delete_dir_entry_view name blk _ k j Hnr Hlen Hscan)
    as Hview.
  fold n in Hview.
  assert (Hk : (k < n)%nat) by (apply scan_dir_Some in Hscan; lia).
  assert (Hn1 : Z.to_nat (nr_entries dinfo - 1) = (n - 1)%nat) by lia.
  split; [|split].
  - unfold dir_entries. rewrite Hd. simpl. rewrite Hb. simpl. f_equal.
    by apply delete_dir_entry_list.
  - intros Hothers. unfold pnlfs_inode_by_name. rewrite Hd. simpl.
    rewrite Hb, Hn1.
    by rewrite (scan_dir_after_removal_gone name blk _ n k).
  - intros name' j Hlen' Hfound Hnot.
    unfold pnlfs_inode_by_name. rewrite Hd. simpl. rewrite Hb, Hn1.
    destruct (scan_dir_after_removal_kept name' blk _ n k j Hlen' Hk Hview
                Hfound Hnot) as (j' & -> & He).
    f_equal. by apply file_inode_entry.
Qed.



(** X10.  [pnlfs_rename] between two directories moves the entry: the old
    directory loses the entry the old name resolves to, and the new name
    resolves in the new directory to the inode of the target dentry, or to
    the renamed inode when the target did not exist. *)
Theorem rename_moves_entry (v : volume) (old_dir new_dir old_inode : Z)
    (old_name new_name : list Z) (new_inode : option Z) (flags : Z)
    (oinfo ninfo : pnlfs_inode_info) (oblk nblk : list Z) (k : nat) :
  old_dir ≠ new_dir →
  icache v !! old_dir = Some oinfo →
  0 < nr_entries oinfo ≤ PNLFS_MAX_DIR_ENTRIES →
  sb_bread v (index_block oinfo) = Some oblk →
  length oblk = Z.to_nat PNLFS_BLOCK_SIZE →
  icache v !! new_dir = Some ninfo →
  0 ≤ nr_entries ninfo < PNLFS_MAX_DIR_ENTRIES →
  index_block ninfo ≠ index_block oinfo →
  sb_bread v (index_block ninfo) = Some nblk →
  length nblk = Z.to_nat PNLFS_BLOCK_SIZE →
  (length old_name ≤ Z.to_nat PNLFS_FILENAME_LEN)%nat →
  (length new_name < Z.to_nat PNLFS_FILENAME_LEN)%nat →
  let n := Z.to_nat (nr_entries oinfo) in
  scan_dir old_name oblk n 0 = Some k →
  ∃ v2,
    pnlfs_rename v old_dir old_name old_inode new_dir new_name new_inode flags
    = Some (0, v2) ∧
    sbi v2 = sbi v ∧
    dir_entries v2 old_dir = Some (delete k (file_entry oblk <$> seq 0 n)) ∧
    ((∀ j, (j < n)%nat → j ≠ k → name_matches old_name oblk j = false) →
     pnlfs_inode_by_name v2 old_dir old_name = Some 0) ∧
    (scan_dir new_name nblk (Z.to_nat (nr_entries ninfo)) 0 = None →
     pnlfs_inode_by_name v2 new_dir new_name
     = Some (u32 (default old_inode new_inode))).
Proof.
  intros Hdirs Ho Hnr Hoblk Holen Hn Hroom Hblocks Hnblk Hnlen Honame Hnname
    n Hscan.
  destruct (pnlfs_rename_spec v old_dir new_dir old_inode old_name new_name
              new_inode flags oinfo ninfo oblk nblk)
    as (v2 & blk2 & Hr & Hs & Hic & Hbl & Htake & Hino & Hmatch);
    try done; [lia|by rewrite delete_dir_entry_other
              |by rewrite delete_dir_entry_block_other|].
  exists v2. split; [done|]. split; [done|].
  destruct (delete_dir_entry_resolved v v2 old_dir old_name oinfo oblk k)
    as (He & Hgone & _); try done.
  { rewrite Hic. by rewrite lookup_insert_ne. }
  { unfold sb_bread at 1. rewrite Hbl. by rewrite lookup_insert_ne. }
  do 2 (split; [done|]). intros Hnone.
  unfold pnlfs_inode_by_name, sb_bread. rewrite Hic, Hbl.
  rewrite lookup_insert_eq. simpl. rewrite lookup_insert_eq.
  set (m := Z.to_nat (nr_entries ninfo)) in *.
  replace (Z.to_nat (nr_entries ninfo + 1)) with (S m) by lia.
  assert (Hfound : scan_dir new_name blk2 (S m) 0 = Some m).
  { apply scan_dir_Some. split; [lia|]. split; [done|].
    intros j Hj.
    rewrite (name_matches_agree new_name blk2 nblk m) by (done || lia).
    rewrite scan_dir_None in Hnone. apply Hnone. lia. }
  by rewrite Hfound, Hino.
Qed.



Lemma rename_moves_entry_witness :
  icache vol_a_f !! 1 = Some (dir_info 5 1) ∧
  icache vol_a_f !! 0 = Some (root_info 1) ∧
  pnlfs_inode_by_name vol_a_f 1 name_f = Some 2 ∧
  pnlfs_inode_by_name vol_a_f 0 name_b = Some 0 ∧
  ∃ v2,
    pnlfs_rename vol_a_f 1 name_f 2 0 name_b None 0 = Some (0, v2) ∧
    dir_entries v2 1 = Some [] ∧
    pnlfs_inode_by_name v2 1 name_f = Some 0 ∧
    pnlfs_inode_by_name v2 0 name_b = Some 2.
Proof.
  assert (H0 : 1 ≠ 0) by lia.
  assert (H1 : icache vol_a_f !! 1 = Some (dir_info 5 1)) by evaluate.
  assert (H2 : 0 < nr_entries (dir_info 5 1) ≤ PNLFS_MAX_DIR_ENTRIES)
    by evaluate_range.
  assert (H3 : sb_bread vol_a_f (index_block (dir_info 5 1))
               = Some (block_of vol_a_f 5)) by evaluate.
  assert (H4 : length (block_of vol_a_f 5) = Z.to_nat PNLFS_BLOCK_SIZE)
    by evaluate.
  assert (H5 : icache vol_a_f !! 0 = Some (root_info 1)) by evaluate.
  assert (H6 : 0 ≤ nr_entries (root_info 1) < PNLFS_MAX_DIR_ENTRIES)
    by evaluate_range.
  assert (H7 : index_block (root_info 1) ≠ index_block (dir_info 5 1))
    by (vm_compute; congruence).
  assert (H8 : sb_bread vol_a_f (index_block (root_info 1))
               = Some (block_of vol_a_f 4)) by evaluate.
  assert (H9 : length (block_of vol_a_f 4) = Z.to_nat PNLFS_BLOCK_SIZE)
    by evaluate.
  assert (H10 : (length name_f ≤ Z.to_nat PNLFS_FILENAME_LEN)%nat)
    by (vm_compute; lia).
  assert (H11 : (length name_b < Z.to_nat PNLFS_FILENAME_LEN)%nat)
    by (vm_compute; lia).
  assert (H12 : scan_dir name_f (block_of vol_a_f 5)
                  (Z.to_nat (nr_entries (dir_info 5 1))) 0 = Some 0%nat)
    by evaluate.
  assert (H13 : pnlfs_inode_by_name vol_a_f 1 name_f = Some 2) by evaluate.
  assert (H14 : pnlfs_inode_by_name vol_a_f 0 name_b = Some 0) by evaluate.
  split; [assumption|]. do 3 (split; [assumption|]).
  destruct (rename_moves_entry vol_a_f 1 0 2 name_f name_b None 0
              (dir_info 5 1) (root_info 1) (block_of vol_a_f 5)
              (block_of vol_a_f 4) 0
              H0 H1 H2 H3 H4 H5 H6 H7 H8 H9 H10 H11 H12)
    as (v2 & Hr & _ & He & Hgone & Hnew).
  exists v2. split; [exact Hr|]. split; [exact He|]. split.
  - apply Hgone. intros j Hj Hj0. simpl in Hj. lia.
  - rewrite Hnew; evaluate.
Defined.

(** ** Enumeration and lookup *)

Lemma pnlfs_iget_cached (v : volume) (ino : Z) :
  is_Some (icache v !! ino) → pnlfs_iget v ino = (Some ino, v).
Proof. intros [p Hp]. unfold pnlfs_iget. by rewrite Hp. Qed.

Lemma readdir_loop_all (blk : list Z) (v : volume) (m i : nat)
    (ctx : dir_context) :
  (∀ j, (i ≤ j < i + m)%nat → is_Some (icache v !! file_inode blk j)) →
  (m ≤ room ctx)%nat →
  pos ctx = 2 + Z.of_nat i →
  readdir_loop blk m i v ctx
  = Some (0, v, mk_ctx (pos ctx + Z.of_nat m) (room ctx - m)
                  (emitted ctx ++ (entry_dirent v blk <$> seq i m))).
Proof.
  revert i ctx. induction m as [|m IH]; intros i ctx Hcached Hroom Hpos.
  - simpl. rewrite app_nil_r, Z.add_0_r, Nat.sub_0_r. by destruct ctx.
  - simpl. rewrite pnlfs_iget_cached by (apply Hcached; lia).
    destruct (Hcached i ltac:(lia)) as [p Hp]. rewrite Hp. simpl.
    unfold dir_emit. destruct (room ctx) as [|r] eqn:Hr; [lia|].
    rewrite IH; simpl.
    + f_equal. f_equal. f_equal; [lia|].
      rewrite <- app_assoc. f_equal. simpl. f_equal.
      unfold entry_dirent. rewrite Hp. simpl. rewrite Hpos. done.
    + intros j Hj. apply Hcached. lia.
    + lia.
    + lia.
Qed.

(** X11.  One call of [pnlfs_readdir] from position 0, with room for everything
    and the inodes of the entries in the inode cache, reports ".", ".."
    and then every entry in slot order at the offsets 2, 3, ...; it
    changes nothing on the volume and leaves the cursor past the last
    entry, where a further call reports nothing. *)
Theorem readdir_lists_directory (v : volume) (dir parent : Z) (r : nat)
    (dinfo : pnlfs_inode_info) (blk : list Z) :
  icache v !! dir = Some dinfo →
  0 ≤ nr_entries dinfo < 2 ^ 32 - 2 →
  sb_bread v (index_block dinfo) = Some blk →
  let n := Z.to_nat (nr_entries dinfo) in
  (∀ i, (i < n)%nat → is_Some (icache v !! file_inode blk i)) →
  (n + 2 ≤ r)%nat →
  ∃ ctx',
    pnlfs_readdir v dir parent (mk_ctx 0 r []) = Some (0, v, ctx') ∧
    pos ctx' = nr_entries dinfo + 2 ∧
    emitted ctx'
    = mk_dirent [46] 0 dir DT_DIR :: mk_dirent [46; 46] 1 parent DT_DIR
      :: (entry_dirent v blk <$> seq 0 n) ∧
    pnlfs_readdir v dir parent ctx' = Some (0, v, ctx').
Proof.
  intros Hdir Hnr Hblk n Hcached Hroom.
  assert (Hu : u32 (nr_entries dinfo + 2) = nr_entries dinfo + 2)
    by (apply u32_small; lia).
  destruct r as [|[|r]]; [lia..|].
  eexists. split; [|split; [|split]].
  - unfold pnlfs_readdir. rewrite Hdir. simpl.
    rewrite Hu. rewrite decide_False by lia.
    unfold dir_emit_dots, dir_emit. simpl. rewrite Hblk.
    rewrite readdir_loop_all; [reflexivity| | |]; simpl.
    + intros j Hj. apply Hcached. lia.
    + lia.
    + done.
  - simpl. lia.
  - done.
  - unfold pnlfs_readdir. rewrite Hdir. simpl. rewrite Hu.
    rewrite decide_True by (simpl; lia). done.
Qed.

Lemma readdir_lists_directory_witness :
  icache vol_dir_file !! 0 = Some (root_info 2) ∧
  sb_bread vol_dir_file 4 = Some (block_of vol_dir_file 4) ∧
  ∃ ctx',
    pnlfs_readdir vol_dir_file 0 0 (mk_ctx 0 8 [])
    = Some (0, vol_dir_file, ctx') ∧
    pos ctx' = 4 ∧
    emitted ctx'
    = [mk_dirent [46] 0 0 DT_DIR; mk_dirent [46; 46] 1 0 DT_DIR;
       mk_dirent name_a 2 1 DT_DIR; mk_dirent name_b 3 2 DT_REG].
Proof.
  assert (H1 : icache vol_dir_file !! 0 = Some (root_info 2)) by evaluate.
  assert (H2 : 0 ≤ nr_entries (root_info 2) < 2 ^ 32 - 2) by evaluate_range.
  assert (H3 : sb_bread vol_dir_file (index_block (root_info 2))
               = Some (block_of vol_dir_file 4)) by evaluate.
  assert (H4 : ∀ i, (i < Z.to_nat (nr_entries (root_info 2)))%nat →
               is_Some (icache vol_dir_file
                        !! file_inode (block_of vol_dir_file 4) i)).
  { intros i Hi. simpl in Hi.
    assert (Hc : i = 0%nat ∨ i = 1%nat) by lia.
    destruct Hc as [-> | ->]; vm_compute; eauto. }
  assert (H5 : (Z.to_nat (nr_entries (root_info 2)) + 2 ≤ 8)%nat)
    by (vm_compute; lia).
  do 2 (split; [assumption|]).
  destruct (readdir_lists_directory vol_dir_file 0 0 8 (root_info 2)
              (block_of vol_dir_file 4) H1 H2 H3 H4 H5)
    as (ctx' & Hr & Hp & He & _).
  exists ctx'. split; [exact Hr|]. split; [rewrite Hp; evaluate|].
  rewrite He. evaluate.
Defined.

(** X12.  [pnlfs_lookup] changes nothing but the inode cache, which it only
    extends: the allocation state and every block are as before and a
    cached inode stays cached.  A positive result is the non-zero number
    [pnlfs_inode_by_name] returned, cached afterwards; a negative one
    leaves the volume as it was. *)
Theorem lookup_only_extends_cache (v : volume) (dir : Z) (name : list Z)
    (r : option Z) (v' : volume) :
  pnlfs_lookup v dir name = Some (r, v') →
  sbi v' = sbi v ∧ blocks v' = blocks v ∧
  (∀ k p, icache v !! k = Some p → icache v' !! k = Some p) ∧
  (∀ ino, r = Some ino →
     ino ≠ 0 ∧ pnlfs_inode_by_name v dir name = Some ino ∧
     is_Some (icache v' !! ino)) ∧
  (r = None → v' = v).
Proof.
  unfold pnlfs_lookup.
  destruct (pnlfs_inode_by_name v dir name) as [ino|]; simpl; [|done].
  case_decide as Hz.
  - intros [= <- <-]. do 3 (split; [done|]). split; [by intros ? [=]|done].
  - intros [= Hg].
    pose proof (pnlfs_iget_spec _ _ _ _ Hg) as (Hs & Hb & Hk & Hp).
    do 2 (split; [done|]). split; [|split].
    + intros k p Hc. destruct (decide (k = ino)) as [->|Hne].
      * rewrite pnlfs_iget_cached in Hg by eauto. by injection Hg as _ <-.
      * by rewrite Hk.
    + intros i ->. destruct (Hp i eq_refl) as [-> Hc]. done.
    + intros ->. unfold pnlfs_iget in Hg.
      destruct (icache v !! ino); [done|].
      destruct (sb_bread v _); [done|]. by injection Hg as <-.
Qed.

Lemma lookup_only_extends_cache_witness :
  pnlfs_lookup vol_a_txt 0 name_a_txt = Some (Some 1, vol_a_txt) ∧
  pnlfs_inode_by_name vol_a_txt 0 name_a_txt = Some 1 ∧
  is_Some (icache vol_a_txt !! 1).
Proof.
  assert (H1 : pnlfs_lookup vol_a_txt 0 name_a_txt = Some (Some 1, vol_a_txt))
    by evaluate.
  split; [assumption|].
  destruct (lookup_only_extends_cache vol_a_txt 0 name_a_txt (Some 1)
              vol_a_txt H1) as (_ & _ & _ & Hpos & _).
  destruct (Hpos 1 eq_refl) as (_ & Hn & Hc). split; assumption.
Defined.

(** ** Write-back of an inode *)

Lemma byte_at_write_ge (b : list Z) (off j : nat) (data : list Z) :
  (off + length data ≤ j)%nat →
  byte_at (write_bytes b off data) j = byte_at b j.
Proof.
  intros Hj. unfold byte_at, write_bytes.
  by rewrite list_lookup_inserts_ge.
Qed.

Lemma le32_at_write_earlier (b : list Z) (off off' : nat) (data : list Z) :
  (off' + length data ≤ off)%nat →
  le32_at (write_bytes b off' data) off = le32_at b off.
Proof.
  intros Hoff. unfold le32_at. by rewrite !byte_at_write_ge by lia.
Qed.

Lemma cpu_to_le32_length (x : Z) : length (cpu_to_le32 x) = 4%nat.
Proof. reflexivity. Qed.

(** The sixteen bytes [pnlfs_write_inode] stores at [off], read back, and
    the bytes around them. *)
Lemma inode_record_read_back (bh : list Z) (off : nat) (a b c d : Z) :
  (off + 16 ≤ length bh)%nat →
  let bh' :=
    write_bytes
      (write_bytes
         (write_bytes (write_bytes bh off (cpu_to_le32 a))
            (off + 4) (cpu_to_le32 b))
         (off + 8) (cpu_to_le32 c))
      (off + 12) (cpu_to_le32 d) in
  le32_at bh' off = u32 a ∧ le32_at bh' (off + 4) = u32 b ∧
  le32_at bh' (off + 8) = u32 c ∧ le32_at bh' (off + 12) = u32 d.
Proof.
  intros Hoff bh'. unfold bh'. repeat split.
  - rewrite !le32_at_write_later by lia. apply le32_at_write_same. lia.
  - rewrite !le32_at_write_later by lia.
    apply le32_at_write_same. rewrite write_bytes_length. lia.
  - rewrite !le32_at_write_later by lia.
    apply le32_at_write_same. rewrite !write_bytes_length. lia.
  - apply le32_at_write_same. rewrite !write_bytes_length. lia.
Qed.

Lemma inode_record_frame (bh : list Z) (off off' : nat) (a b c d : Z) :
  (off' + 4 ≤ off ∨ off + 16 ≤ off')%nat →
  le32_at
    (write_bytes
       (write_bytes
          (write_bytes (write_bytes bh off (cpu_to_le32 a))
             (off + 4) (cpu_to_le32 b))
          (off + 8) (cpu_to_le32 c))
       (off + 12) (cpu_to_le32 d)) off'
  = le32_at bh off'.
Proof.
  intros [Hlt|Hge].
  - by rewrite !le32_at_write_later by lia.
  - by rewrite !le32_at_write_earlier by (rewrite cpu_to_le32_length; lia).
Qed.

Lemma inode_slot (ino : Z) :
  0 ≤ ino < 2 ^ 32 →
  u32 (1 + ino / PNLFS_NR_INODES_IN_BLOCK) = 1 + ino / 256 ∧
  u16 (ino mod PNLFS_NR_INODES_IN_BLOCK) = ino mod 256 ∧
  0 ≤ ino mod 256 < 256 ∧ 0 ≤ ino / 256.
Proof.
  intros Hino. change PNLFS_NR_INODES_IN_BLOCK with 256.
  pose proof (Z.mod_pos_bound ino 256 ltac:(lia)).
  pose proof (Z.div_pos ino 256 ltac:(lia) ltac:(lia)).
  assert (ino / 256 < 2 ^ 24) by (apply Z.div_lt_upper_bound; lia).
  unfold u32, u16. rewrite !Z.mod_small by lia. lia.
Qed.

(** X13.  [pnlfs_write_inode] followed by [pnlfs_iget] of the same number on an
    inode cache that no longer holds it gives back the mode, the size, the
    index block and the entry count that were written; [i_blocks] is not
    stored and comes back as 1 for a directory and as [nr_entries + 1]
    otherwise.  The function itself changes neither the allocation state
    nor the inode cache. *)
Theorem write_inode_then_iget (v : volume) (ino : Z) (p : pnlfs_inode_info)
    (bh : list Z) :
  0 ≤ ino < 2 ^ 32 →
  icache v !! ino = Some p →
  sb_bread v (1 + ino / 256) = Some bh →
  length bh = Z.to_nat PNLFS_BLOCK_SIZE →
  0 ≤ i_mode p < 2 ^ 16 → 0 ≤ i_size p < 2 ^ 32 →
  0 ≤ index_block p < 2 ^ 32 → 0 ≤ nr_entries p < 2 ^ 32 →
  ∃ v',
    pnlfs_write_inode v ino = Some (0, v') ∧
    sbi v' = sbi v ∧ icache v' = icache v ∧
    ∀ s ic, ic !! ino = None →
      pnlfs_iget (mk_volume s ic (blocks v')) ino
      = (Some ino,
         mk_volume s
           (<[ino := mk_inode (i_mode p) (i_size p)
                       (if S_ISDIR (i_mode p) then 1
                        else u32 (nr_entries p + 1))
                       (index_block p) (nr_entries p)]> ic)
           (blocks v')).
Proof.
  intros Hino Hc Hbh Hlen Hmode Hsize Hidx Hnr.
  destruct (inode_slot ino Hino) as (Hblk & Hslot & Hrange & Hdiv).
  change (Z.to_nat PNLFS_BLOCK_SIZE) with 4096%nat in Hlen.
  eexists. split.
  { unfold pnlfs_write_inode. rewrite Hc. simpl. rewrite Hblk, Hbh.
    reflexivity. }
  do 2 (split; [done|]). intros s ic Hic.
  unfold pnlfs_iget, sb_bread. simpl. rewrite Hic, Hblk.
  rewrite lookup_insert_eq. rewrite Hslot.
  change PNLFS_NR_INODES_IN_BLOCK with 256.
  change (Z.to_nat sizeof_pnlfs_inode) with 16%nat.
  destruct (inode_record_read_back bh (Z.to_nat (ino mod 256) * 16)
              (i_mode p) (index_block p) (i_size p) (nr_entries p))
    as (-> & -> & -> & ->); [lia|].
  rewrite (u32_small (i_mode p)), (u32_small (index_block p)),
    (u32_small (i_size p)), (u32_small (nr_entries p)) by lia.
  unfold with_inode, u16. simpl. rewrite Z.mod_small by lia. done.
Qed.

(** X14.  [pnlfs_write_inode] changes one inode record and nothing else: every
    other block is as before, and every other inode reads from the inode
    store as it did. *)
Theorem write_inode_keeps_other_inodes (v : volume) (ino : Z) (r : Z)
    (v' : volume) :
  0 ≤ ino < 2 ^ 32 →
  pnlfs_write_inode v ino = Some (r, v') →
  sbi v' = sbi v ∧ icache v' = icache v ∧
  (∀ b, b ≠ 1 + ino / 256 → sb_bread v' b = sb_bread v b) ∧
  (∀ ino' s ic, 0 ≤ ino' < 2 ^ 32 → ino' ≠ ino →
     fst (pnlfs_iget (mk_volume s ic (blocks v')) ino')
     = fst (pnlfs_iget (mk_volume s ic (blocks v)) ino') ∧
     icache (snd (pnlfs_iget (mk_volume s ic (blocks v')) ino'))
     = icache (snd (pnlfs_iget (mk_volume s ic (blocks v)) ino'))).
Proof.
  intros Hino. destruct (inode_slot ino Hino) as (Hblk & Hslot & Hrange & Hdiv).
  unfold pnlfs_write_inode.
  destruct (icache v !! ino) as [p|]; simpl; [|done]. rewrite Hblk.
  destruct (sb_bread v (1 + ino / 256)) as [bh|] eqn:Hbh.
  2:{ intros [= <- <-]. done. }
  intros [= <- <-]. do 2 (split; [done|]). split.
  { intros b Hb. unfold sb_bread. simpl. by rewrite lookup_insert_ne. }
  intros ino' s ic Hino' Hne.
  destruct (inode_slot ino' Hino') as (Hblk' & Hslot' & Hrange' & Hdiv').
  unfold pnlfs_iget, sb_bread. simpl.
  destruct (ic !! ino'); [done|]. rewrite Hblk'.
  destruct (decide (1 + ino' / 256 = 1 + ino / 256)) as [Heq|Hneq].
  - rewrite Heq, lookup_insert_eq. unfold sb_bread in Hbh. rewrite Hbh.
    cbv beta iota zeta. unfold with_inode. cbn [fst snd icache sbi blocks].
    rewrite Hslot. change PNLFS_NR_INODES_IN_BLOCK with 256.
    change (Z.to_nat sizeof_pnlfs_inode) with 16%nat.
    assert (Hmod : ino' mod 256 ≠ ino mod 256).
    { intros Hm. apply Hne.
      pose proof (Z.div_mod ino 256 ltac:(lia)) as H1.
      pose proof (Z.div_mod ino' 256 ltac:(lia)) as H2.
      rewrite H1, H2, Hm. f_equal. f_equal. lia. }
    revert Hmod Hrange Hrange'.
    generalize (ino mod 256) (ino' mod 256). intros a a' Hmod Ha Ha'.
    assert (Hoff : (Z.to_nat a' * 16 + 4 ≤ Z.to_nat a * 16
                    ∨ Z.to_nat a * 16 + 16 ≤ Z.to_nat a' * 16)%nat) by lia.
    assert (Hoff4 : (Z.to_nat a' * 16 + 4 + 4 ≤ Z.to_nat a * 16
                     ∨ Z.to_nat a * 16 + 16 ≤ Z.to_nat a' * 16 + 4)%nat) by lia.
    assert (Hoff8 : (Z.to_nat a' * 16 + 8 + 4 ≤ Z.to_nat a * 16
                     ∨ Z.to_nat a * 16 + 16 ≤ Z.to_nat a' * 16 + 8)%nat) by lia.
    assert (Hoff12 : (Z.to_nat a' * 16 + 12 + 4 ≤ Z.to_nat a * 16
                      ∨ Z.to_nat a * 16 + 16 ≤ Z.to_nat a' * 16 + 12)%nat)
      by lia.
    rewrite (inode_record_frame bh _ _ _ _ _ _ Hoff).
    rewrite (inode_record_frame bh _ _ _ _ _ _ Hoff4).
    rewrite (inode_record_frame bh _ _ _ _ _ _ Hoff8).
    rewrite (inode_record_frame bh _ _ _ _ _ _ Hoff12).
    done.
  - rewrite lookup_insert_ne by done. by destruct (blocks v !! _).
Qed.

Lemma write_inode_then_iget_witness :
  icache vol_a_txt !! 1 = Some (file_info 5) ∧
  sb_bread vol_a_txt 1 = Some (block_of vol_a_txt 1) ∧
  pnlfs_iget (mk_volume (sbi vol_a_txt) ∅ (blocks vol_a_txt)) 1
  = (Some 1,
     mk_volume (sbi vol_a_txt) {[1 := mk_inode 0 0 1 0 0]} (blocks vol_a_txt)) ∧
  ∃ v',
    pnlfs_write_inode vol_a_txt 1 = Some (0, v') ∧
    pnlfs_iget (mk_volume (sbi v') ∅ (blocks v')) 1
    = (Some 1, mk_volume (sbi v') {[1 := file_info 5]} (blocks v')).
Proof.
  assert (H0 : 0 ≤ 1 < 2 ^ 32) by lia.
  assert (H1 : icache vol_a_txt !! 1 = Some (file_info 5)) by evaluate.
  assert (H2 : sb_bread vol_a_txt (1 + 1 / 256) = Some (block_of vol_a_txt 1))
    by evaluate.
  assert (H3 : length (block_of vol_a_txt 1) = Z.to_nat PNLFS_BLOCK_SIZE)
    by evaluate.
  assert (H4 : 0 ≤ i_mode (file_info 5) < 2 ^ 16) by evaluate_range.
  assert (H5 : 0 ≤ i_size (file_info 5) < 2 ^ 32) by evaluate_range.
  assert (H6 : 0 ≤ index_block (file_info 5) < 2 ^ 32) by evaluate_range.
  assert (H7 : 0 ≤ nr_entries (file_info 5) < 2 ^ 32) by evaluate_range.
  split; [assumption|]. split; [exact H2|]. split; [evaluate|].
  destruct (write_inode_then_iget vol_a_txt 1 (file_info 5)
              (block_of vol_a_txt 1) H0 H1 H2 H3 H4 H5 H6 H7)
    as (v' & Hw & _ & _ & Hread).
  exists v'. split; [exact Hw|]. exact (Hread (sbi v') ∅ eq_refl).
Defined.

Lemma write_inode_keeps_other_inodes_witness :
  pnlfs_write_inode vol_a_txt 1
  = Some (0, state_after (pnlfs_write_inode vol_a_txt 1)) ∧
  fst (pnlfs_iget
         (mk_volume (sbi vol_a_txt) ∅
            (blocks (state_after (pnlfs_write_inode vol_a_txt 1)))) 0)
  = fst (pnlfs_iget (mk_volume (sbi vol_a_txt) ∅ (blocks vol_a_txt)) 0) ∧
  sb_bread (state_after (pnlfs_write_inode vol_a_txt 1)) 4
  = sb_bread vol_a_txt 4.
Proof.
  assert (H0 : 0 ≤ 1 < 2 ^ 32) by lia.
  assert (H1 : pnlfs_write_inode vol_a_txt 1
               = Some (0, state_after (pnlfs_write_inode vol_a_txt 1)))
    by evaluate.
  split; [assumption|].
  destruct (write_inode_keeps_other_inodes vol_a_txt 1 0 _ H0 H1)
    as (_ & _ & Hblocks & Hinodes).
  split.
  - apply (Hinodes 0 (sbi vol_a_txt) ∅); lia.
  - apply Hblocks. vm_compute. congruence.
Defined.

(** ** Write-back of the allocation state *)

Lemma byte_at_drop (b : list Z) (off i : nat) :
  byte_at (drop off b) i = byte_at b (off + i).
Proof. unfold byte_at. by rewrite lookup_drop. Qed.

Lemma le32_at_drop (b : list Z) (off i : nat) :
  le32_at (drop off b) i = le32_at b (off + i).
Proof.
  unfold le32_at. rewrite !byte_at_drop. by rewrite !Nat.add_assoc.
Qed.

Lemma le64_at_drop (b : list Z) (off : nat) :
  le64_at b off = le64_at (drop off b) 0.
Proof.
  unfold le64_at. rewrite !le32_at_drop. by rewrite Nat.add_0_r.
Qed.

Lemma le32_at_cpu_to_le32 (x : Z) (rest : list Z) :
  le32_at (cpu_to_le32 x ++ rest) 0 = u32 x.
Proof. unfold le32_at, byte_at, cpu_to_le32. simpl. apply le32_decompose. Qed.

Lemma le64_at_cpu_to_le64 (w : Z) (rest : list Z) :
  0 ≤ w < 2 ^ 64 → le64_at (cpu_to_le64 w ++ rest) 0 = w.
Proof.
  intros Hw. unfold le64_at, cpu_to_le64. rewrite <- app_assoc.
  rewrite le32_at_cpu_to_le32.
  replace (le32_at (cpu_to_le32 (w mod 2 ^ 32)
                    ++ cpu_to_le32 (w / 2 ^ 32) ++ rest) (0 + 4))
    with (le32_at (cpu_to_le32 (w / 2 ^ 32) ++ rest) 0).
  2:{ rewrite <- (le32_at_drop _ 4 0). reflexivity. }
  rewrite le32_at_cpu_to_le32. unfold u32.
  rewrite Z.mod_mod by lia.
  assert (0 ≤ w / 2 ^ 32 < 2 ^ 32).
  { split; [apply Z.div_pos; lia|apply Z.div_lt_upper_bound; lia]. }
  rewrite (Z.mod_small (w / 2 ^ 32)) by lia.
  pose proof (Z.div_mod w (2 ^ 32) ltac:(lia)). lia.
Qed.

Lemma cpu_to_le64_length (w : Z) : length (cpu_to_le64 w) = 8%nat.
Proof. reflexivity. Qed.

Lemma chunks_cons (g : nat → Z) (s n : nat) :
  mjoin ((fun k => cpu_to_le64 (g k)) <$> seq s (S n))
  = cpu_to_le64 (g s) ++ mjoin ((fun k => cpu_to_le64 (g k)) <$> seq (S s) n).
Proof. reflexivity. Qed.

Lemma chunks_length (g : nat → Z) (s n : nat) :
  length (mjoin ((fun k => cpu_to_le64 (g k)) <$> seq s n)) = (n * 8)%nat.
Proof.
  revert s. induction n as [|n IH]; intros s; [done|].
  rewrite chunks_cons, length_app, IH, cpu_to_le64_length. lia.
Qed.

Lemma chunks_drop (g : nat → Z) (s n k : nat) :
  (k < n)%nat →
  ∃ rest,
    drop (k * 8) (mjoin ((fun k => cpu_to_le64 (g k)) <$> seq s n))
    = cpu_to_le64 (g (s + k)%nat) ++ rest.
Proof.
  revert s k. induction n as [|n IH]; intros s k Hk; [lia|].
  rewrite chunks_cons. destruct k as [|k].
  - rewrite Nat.add_0_r. simpl drop. eauto.
  - destruct (IH (S s) k ltac:(lia)) as [rest Hrest].
    exists rest.
    replace (S k * 8)%nat with (length (cpu_to_le64 (g s)) + k * 8)%nat
      by (rewrite cpu_to_le64_length; lia).
    rewrite drop_app_add'; [|done].
    rewrite Hrest. f_equal. f_equal. f_equal. lia.
Qed.

(** A block written by the store loop reads back, through the load loop
    of [pnlfs_fill_super], as the words that were stored. *)
Lemma block_words_store_words (bh bm : list Z) (off : nat) :
  length bh = Z.to_nat PNLFS_BLOCK_SIZE →
  Forall (fun w => 0 ≤ w < 2 ^ 64) bm →
  (off + Z.to_nat PNLFS_NR_WORDS_IN_BLOCK ≤ length bm)%nat →
  block_words (store_words bh bm off)
  = take (Z.to_nat PNLFS_NR_WORDS_IN_BLOCK) (drop off bm).
Proof.
  change (Z.to_nat PNLFS_BLOCK_SIZE) with 4096%nat.
  change (Z.to_nat PNLFS_NR_WORDS_IN_BLOCK) with 512%nat.
  intros Hlen Hbm Hoff.
  pose (g := fun k : nat => default 0 (bm !! (off + k)%nat)).
  pose (data := mjoin ((fun k => cpu_to_le64 (g k)) <$> seq 0 512)).
  assert (Hdata : length data = 4096%nat) by apply chunks_length.
  change (store_words bh bm off) with (write_bytes bh 0 data).
  unfold block_words.
  change (Z.to_nat PNLFS_NR_WORDS_IN_BLOCK) with 512%nat.
  rewrite write_bytes_spec by lia. rewrite Hdata.
  rewrite drop_ge by lia. simpl take at 1. rewrite app_nil_r. simpl app.
  apply list_eq. intros k. rewrite list_lookup_fmap.
  destruct (decide (k < 512)%nat) as [Hk|Hk].
  - rewrite lookup_seq_lt by done. simpl.
    rewrite lookup_take_lt by done. rewrite lookup_drop.
    destruct (lookup_lt_is_Some_2 bm (off + k)) as [w Hw]; [lia|].
    rewrite Hw. f_equal.
    rewrite le64_at_drop.
    destruct (chunks_drop g 0 512 k Hk) as [rest Hrest].
    fold data in Hrest. rewrite Hrest.
    unfold g. simpl. rewrite Hw. simpl.
    apply le64_at_cpu_to_le64.
    rewrite Forall_lookup in Hbm. by apply (Hbm _ _ Hw).
  - rewrite lookup_seq_ge by lia. by rewrite lookup_take_ge by lia.
Qed.

Lemma write_bitmap_spec (v : volume) (bm : list Z) (cur : Z) (off n : nat) :
  (∀ b, cur ≤ b < cur + Z.of_nat n → is_Some (sb_bread v b)) →
  ∃ v',
    write_bitmap v bm cur off n = (true, v') ∧
    sbi v' = sbi v ∧ icache v' = icache v ∧
    (∀ b, ¬ (cur ≤ b < cur + Z.of_nat n) → sb_bread v' b = sb_bread v b) ∧
    (∀ (i : nat) bh, (i < n)%nat → sb_bread v (cur + Z.of_nat i) = Some bh →
       sb_bread v' (cur + Z.of_nat i)
       = Some (store_words bh bm
                 (off + i * Z.to_nat PNLFS_NR_WORDS_IN_BLOCK))).
Proof.
  revert v cur off. induction n as [|n IH]; intros v cur off Hread.
  - exists v. simpl. repeat split; try done. intros; lia.
  - destruct (Hread cur ltac:(lia)) as [bh Hbh].
    simpl. rewrite Hbh.
    set (v1 := with_block v cur (store_words bh bm off)).
    assert (Hother : ∀ b, b ≠ cur → sb_bread v1 b = sb_bread v b).
    { intros b Hb. unfold sb_bread, v1. simpl. by rewrite lookup_insert_ne. }
    destruct (IH v1 (cur + 1) (off + Z.to_nat PNLFS_NR_WORDS_IN_BLOCK)%nat)
      as (v' & Hw & Hs & Hc & Hout & Hin).
    { intros b Hb. rewrite Hother by lia. apply Hread. lia. }
    exists v'. split; [done|]. do 2 (split; [done|]). split.
    + intros b Hb. destruct (decide (b = cur)) as [->|Hne]; [lia|].
      rewrite Hout by lia. by apply Hother.
    + intros i bh' Hi Hbh'. destruct i as [|i].
      * rewrite Z.add_0_r in *. rewrite Hout by lia.
        rewrite Hbh in Hbh'. injection Hbh' as <-.
        unfold sb_bread, v1. simpl. rewrite lookup_insert_eq.
        by rewrite Nat.add_0_r.
      * replace (cur + Z.of_nat (S i)) with (cur + 1 + Z.of_nat i) in * by lia.
        rewrite (Hin i bh') by (lia || (rewrite Hother by lia; done)).
        by replace (off + Z.to_nat PNLFS_NR_WORDS_IN_BLOCK
                    + i * Z.to_nat PNLFS_NR_WORDS_IN_BLOCK)%nat
          with (off + S i * Z.to_nat PNLFS_NR_WORDS_IN_BLOCK)%nat by lia.
Qed.

Lemma read_bitmap_S (disk : gmap Z (list Z)) (cur : Z) (n : nat) :
  read_bitmap disk cur (S n)
  = (bh ← disk !! cur;
     rest ← read_bitmap disk (cur + 1) n;
     Some (block_words bh ++ rest)).
Proof. reflexivity. Qed.

Lemma read_bitmap_spec (disk : gmap Z (list Z)) (bm : list Z) (cur : Z)
    (off n : nat) :
  (∀ i : nat, (i < n)%nat →
     ∃ bh, disk !! (cur + Z.of_nat i) = Some bh ∧
           block_words bh
           = take (Z.to_nat PNLFS_NR_WORDS_IN_BLOCK)
               (drop (off + i * Z.to_nat PNLFS_NR_WORDS_IN_BLOCK) bm)) →
  read_bitmap disk cur n
  = Some (take (n * Z.to_nat PNLFS_NR_WORDS_IN_BLOCK) (drop off bm)).
Proof.
  generalize (Z.to_nat PNLFS_NR_WORDS_IN_BLOCK). intros W.
  revert cur off. induction n as [|n IH]; intros cur off Hblocks; [done|].
  destruct (Hblocks 0%nat ltac:(lia)) as (bh & Hbh & Hwords).
  rewrite Z.add_0_r in Hbh. rewrite Nat.mul_0_l, Nat.add_0_r in Hwords.
  rewrite read_bitmap_S, Hbh.
  cbv beta iota delta [mbind option_bind].
  rewrite (IH (cur + 1) (off + W)%nat).
  - rewrite Hwords. rewrite <- drop_drop, take_take_drop.
    by replace (W + n * W)%nat with (S n * W)%nat by lia.
  - intros i Hi. destruct (Hblocks (S i) ltac:(lia)) as (bh' & Hbh' & Hw').
    exists bh'. split.
    + rewrite <- Hbh'. f_equal. lia.
    + rewrite Hw'.
      by replace (off + S i * W)%nat with (off + W + i * W)%nat by lia.
Qed.

Lemma sbi_eta (s : pnlfs_sb_info) :
  mk_sbi (nr_blocks s) (nr_inodes s) (nr_istore_blocks s) (nr_ifree_blocks s)
    (nr_bfree_blocks s) (nr_free_inodes s) (nr_free_blocks s)
    (ifree_bitmap s) (bfree_bitmap s) = s.
Proof. by destruct s. Qed.

Lemma superblock_after_sync (psb : list Z) (a b : Z) :
  length psb = Z.to_nat PNLFS_BLOCK_SIZE →
  let psb' :=
    write_bytes (write_bytes psb 24 (cpu_to_le32 a)) 28 (cpu_to_le32 b) in
  (∀ k, (k < 6)%nat → superblock_field psb' k = superblock_field psb k) ∧
  superblock_field psb' 6 = u32 a ∧ superblock_field psb' 7 = u32 b.
Proof.
  change (Z.to_nat PNLFS_BLOCK_SIZE) with 4096%nat.
  intros Hlen psb'. unfold psb', superblock_field. split; [|split].
  - intros k Hk. by rewrite !le32_at_write_later by lia.
  - rewrite le32_at_write_later by lia. apply le32_at_write_same. lia.
  - apply le32_at_write_same. rewrite write_bytes_length. lia.
Qed.

(** What [pnlfs_sync_fs] leaves on the device when every block it needs
    can be read. *)
Lemma pnlfs_sync_fs_spec (v : volume) (psb : list Z) :
  sbi_wf (sbi v) → layout_on_disk v psb →
  let s := sbi v in
  let ifree_start := 1 + nr_istore_blocks s in
  let bfree_start := ifree_start + nr_ifree_blocks s in
  ∃ v',
    pnlfs_sync_fs v = (0, v') ∧ sbi v' = s ∧ icache v' = icache v ∧
    sb_bread v' 0
    = Some (write_bytes
              (write_bytes psb 24 (cpu_to_le32 (nr_free_inodes s)))
              28 (cpu_to_le32 (nr_free_blocks s))) ∧
    (∀ i : nat, (i < Z.to_nat (nr_ifree_blocks s))%nat →
       ∃ bh, length bh = Z.to_nat PNLFS_BLOCK_SIZE ∧
             sb_bread v' (ifree_start + Z.of_nat i)
             = Some (store_words bh (ifree_bitmap s)
                       (0 + i * Z.to_nat PNLFS_NR_WORDS_IN_BLOCK))) ∧
    (∀ i : nat, (i < Z.to_nat (nr_bfree_blocks s))%nat →
       ∃ bh, length bh = Z.to_nat PNLFS_BLOCK_SIZE ∧
             sb_bread v' (bfree_start + Z.of_nat i)
             = Some (store_words bh (bfree_bitmap s)
                       (0 + i * Z.to_nat PNLFS_NR_WORDS_IN_BLOCK))) ∧
    (∀ b, b ≠ 0 →
          ¬ (ifree_start ≤ b < bfree_start + nr_bfree_blocks s) →
          sb_bread v' b = sb_bread v b).
Proof.
  intros (Hfi & Hfb & Hni & Hnb & Hli & Hlb & Hri & Hrb).
  intros (Hsb & Hlen & _ & _ & _ & _ & _ & Hist & Hwrap & Hread).
  intros s ifree_start bfree_start. fold s in Hist, Hwrap, Hread, Hni, Hnb.
  fold ifree_start in Hread.
  unfold pnlfs_sync_fs. fold s. rewrite Hsb. cbv zeta.
  set (psb' := write_bytes
                 (write_bytes psb 24 (cpu_to_le32 (nr_free_inodes s)))
                 28 (cpu_to_le32 (nr_free_blocks s))).
  set (v1 := with_block v PNLFS_SB_BLOCK_NR psb').
  assert (Hv1 : ∀ b, b ≠ 0 → sb_bread v1 b = sb_bread v b).
  { intros b Hb. unfold sb_bread, v1. simpl. by rewrite lookup_insert_ne. }
  rewrite (u32_small (1 + nr_istore_blocks s)) by lia. fold ifree_start.
  rewrite (u32_small (ifree_start + nr_ifree_blocks s))
    by (unfold ifree_start; lia).
  fold bfree_start.
  replace (bfree_start - ifree_start) with (nr_ifree_blocks s)
    by (unfold bfree_start; lia).
  rewrite Z.max_r by (unfold bfree_start; lia).
  rewrite (u32_small (bfree_start + nr_bfree_blocks s))
    by (unfold bfree_start, ifree_start; lia).
  replace (bfree_start + nr_bfree_blocks s - bfree_start)
    with (nr_bfree_blocks s) by lia.
  destruct (write_bitmap_spec v1 (ifree_bitmap s) ifree_start 0
              (Z.to_nat (nr_ifree_blocks s)))
    as (v2 & -> & Hs2 & Hc2 & Hout2 & Hin2).
  { intros b Hb. rewrite Hv1 by (unfold ifree_start in Hb; lia).
    destruct (Hread b) as (bh & -> & _); [unfold bfree_start in *; lia|eauto]. }
  destruct (write_bitmap_spec v2 (bfree_bitmap s) bfree_start 0
              (Z.to_nat (nr_bfree_blocks s)))
    as (v3 & -> & Hs3 & Hc3 & Hout3 & Hin3).
  { intros b Hb. rewrite Hout2 by (unfold bfree_start in Hb; lia).
    rewrite Hv1 by (unfold bfree_start, ifree_start in Hb; lia).
    destruct (Hread b) as (bh & -> & _); [unfold bfree_start in *; lia|eauto]. }
  exists v3. split; [done|]. split; [by rewrite Hs3, Hs2|].
  split; [by rewrite Hc3, Hc2|]. split; [|split; [|split]].
  - rewrite Hout3 by (unfold bfree_start, ifree_start; lia).
    rewrite Hout2 by (unfold ifree_start; lia).
    unfold sb_bread, v1. simpl. by rewrite lookup_insert_eq.
  - intros i Hi.
    destruct (Hread (ifree_start + Z.of_nat i)) as (bh & Hbh & Hbl);
      [unfold bfree_start; lia|].
    exists bh. split; [done|].
    rewrite Hout3 by (unfold bfree_start; lia).
    apply Hin2; [done|]. rewrite Hv1 by (unfold ifree_start; lia). done.
  - intros i Hi.
    destruct (Hread (bfree_start + Z.of_nat i)) as (bh & Hbh & Hbl);
      [unfold bfree_start; lia|].
    exists bh. split; [done|].
    apply Hin3; [done|]. rewrite Hout2 by (unfold bfree_start; lia).
    rewrite Hv1 by (unfold bfree_start, ifree_start; lia). done.
  - intros b Hb0 Hb.
    rewrite Hout3 by lia. rewrite Hout2 by (unfold bfree_start in *; lia).
    by apply Hv1.
Qed.

(** X15.  [pnlfs_sync_fs] followed by [pnlfs_fill_super] on the blocks it left
    gives back the allocation state that was written: the layout fields,
    both counters and both bitmaps. *)
Theorem sync_fs_then_fill_super (v : volume) (psb : list Z) :
  sbi_wf (sbi v) → layout_on_disk v psb → is_Some (sb_bread v 1) →
  ∃ v' v'',
    pnlfs_sync_fs v = (0, v') ∧
    pnlfs_fill_super (blocks v') = Some (Some v'') ∧
    sbi v'' = sbi v ∧ blocks v'' = blocks v'.
Proof.
  intros Hwf Hlay Hroot.
  destruct (pnlfs_sync_fs_spec v psb Hwf Hlay)
    as (v' & Hsync & Hs & Hc & Hsb' & Hifree & Hbfree & Hother).
  destruct Hwf as (Hfi & Hfb & Hni & Hnb & Hli & Hlb & Hri & Hrb).
  destruct Hlay as (Hsb & Hlen & H1 & H2 & H3 & H4 & H5 & Hist & Hwrap & Hread).
  cbv zeta in *.
  destruct (superblock_after_sync psb (nr_free_inodes (sbi v))
              (nr_free_blocks (sbi v)) Hlen) as (Hlow & H6 & H7).
  assert (Hroot' : is_Some (blocks v' !! 1)).
  { destruct (decide (1 + nr_istore_blocks (sbi v) ≤ 1
                      < 1 + nr_istore_blocks (sbi v) + nr_ifree_blocks (sbi v)
                        + nr_bfree_blocks (sbi v))) as [Hin|Hout].
    - destruct (decide (1 < 1 + nr_istore_blocks (sbi v)
                            + nr_ifree_blocks (sbi v))) as [Hi|Hb].
      + destruct (Hifree (Z.to_nat (1 - (1 + nr_istore_blocks (sbi v)))))
          as (bh & _ & Hbh); [lia|].
        replace (1 + nr_istore_blocks (sbi v)
                 + Z.of_nat (Z.to_nat (1 - (1 + nr_istore_blocks (sbi v)))))
          with 1 in Hbh by lia.
        unfold sb_bread in Hbh. rewrite Hbh. eauto.
      + destruct (Hbfree (Z.to_nat (1 - (1 + nr_istore_blocks (sbi v)
                                         + nr_ifree_blocks (sbi v)))))
          as (bh & _ & Hbh); [lia|].
        replace (1 + nr_istore_blocks (sbi v) + nr_ifree_blocks (sbi v)
                 + Z.of_nat (Z.to_nat (1 - (1 + nr_istore_blocks (sbi v)
                                            + nr_ifree_blocks (sbi v)))))
          with 1 in Hbh by lia.
        unfold sb_bread in Hbh. rewrite Hbh. eauto.
    - specialize (Hother 1 ltac:(lia) Hout). unfold sb_bread in *.
      by rewrite Hother. }
  destruct Hroot' as [bh1 Hbh1].
  eexists v', _. split; [done|].
  unfold pnlfs_fill_super. unfold sb_bread in Hsb'. rewrite Hsb'.
  cbv zeta. rewrite !Hlow by lia. rewrite H1, H2, H3, H4, H5, H6, H7.
  rewrite (u32_small (1 + nr_istore_blocks (sbi v))) by lia.
  rewrite (u32_small (1 + nr_istore_blocks (sbi v) + nr_ifree_blocks (sbi v)))
    by lia.
  replace (1 + nr_istore_blocks (sbi v) + nr_ifree_blocks (sbi v)
           - (1 + nr_istore_blocks (sbi v)))
    with (nr_ifree_blocks (sbi v)) by lia.
  rewrite Z.max_r by lia.
  rewrite (u32_small (1 + nr_istore_blocks (sbi v) + nr_ifree_blocks (sbi v)
                      + nr_bfree_blocks (sbi v))) by lia.
  replace (1 + nr_istore_blocks (sbi v) + nr_ifree_blocks (sbi v)
           + nr_bfree_blocks (sbi v)
           - (1 + nr_istore_blocks (sbi v) + nr_ifree_blocks (sbi v)))
    with (nr_bfree_blocks (sbi v)) by lia.
  rewrite (u32_small (nr_free_inodes (sbi v))),
    (u32_small (nr_free_blocks (sbi v))) by lia.
  assert (Hw : Z.to_nat PNLFS_NR_WORDS_IN_BLOCK = 512%nat) by reflexivity.
  change PNLFS_NR_WORDS_IN_BLOCK with 512 in Hli, Hlb.
  rewrite (read_bitmap_spec (blocks v') (ifree_bitmap (sbi v)) _ 0).
  2:{ intros i Hi. destruct (Hifree i Hi) as (bh & Hbl & Hbh).
      eexists. split; [exact Hbh|].
      apply block_words_store_words; [done|done|]. rewrite Hw. lia. }
  rewrite (read_bitmap_spec (blocks v') (bfree_bitmap (sbi v)) _ 0).
  2:{ intros i Hi. destruct (Hbfree i Hi) as (bh & Hbl & Hbh).
      eexists. split; [exact Hbh|].
      apply block_words_store_words; [done|done|]. rewrite Hw. lia. }
  rewrite !drop_0, !take_ge by (rewrite Hw; lia).
  rewrite sbi_eta.
  unfold pnlfs_iget, sb_bread. cbn [icache blocks].
  rewrite lookup_empty.
  replace (u32 (1 + 0 / PNLFS_NR_INODES_IN_BLOCK)) with 1 by reflexivity.
  rewrite Hbh1. split; [reflexivity|]. done.
Qed.

Lemma sync_fs_then_fill_super_witness :
  sbi_wf (sbi vol_a_txt) ∧
  layout_on_disk vol_a_txt (block_of vol_a_txt 0) ∧
  superblock_field (block_of vol_a_txt 0) 6 = 31 ∧
  ∃ v' v'',
    pnlfs_sync_fs vol_a_txt = (0, v') ∧
    pnlfs_fill_super (blocks v') = Some (Some v'') ∧
    sbi v'' = sbi vol_a_txt ∧
    nr_free_inodes (sbi v'') = 30.
Proof.
  assert (H1 : sbi_wf (sbi vol_a_txt))
    by (apply (bool_decide_unpack _); vm_compute; exact I).
  assert (H2 : layout_on_disk vol_a_txt (block_of vol_a_txt 0)).
  { unfold layout_on_disk. cbv zeta.
    assert (Hi : nr_istore_blocks (sbi vol_a_txt) = 1) by evaluate.
    assert (Hf : nr_ifree_blocks (sbi vol_a_txt) = 1) by evaluate.
    assert (Hb : nr_bfree_blocks (sbi vol_a_txt) = 1) by evaluate.
    rewrite Hi, Hf, Hb.
    do 7 (split; [evaluate|]). do 2 (split; [lia|]).
    intros b Hrange. assert (Hc : b = 2 ∨ b = 3) by lia.
    destruct Hc as [-> | ->];
      [exists (block_of vol_a_txt 2)|exists (block_of vol_a_txt 3)];
      (split; [evaluate|evaluate]). }
  assert (H3 : is_Some (sb_bread vol_a_txt 1)) by (vm_compute; eauto).
  do 2 (split; [assumption|]). split; [evaluate|].
  destruct (sync_fs_then_fill_super vol_a_txt (block_of vol_a_txt 0) H1 H2 H3)
    as (v' & v'' & Hs & Hf & Hsbi & _).
  exists v', v''. do 3 (split; [assumption|]). rewrite Hsbi. evaluate.
Defined.

Lemma write_bitmap_frame (v : volume) (bm : list Z) (cur : Z) (off n : nat)
    (ok : bool) (v' : volume) :
  write_bitmap v bm cur off n = (ok, v') →
  sbi v' = sbi v ∧ icache v' = icache v ∧
  (∀ b, ¬ (cur ≤ b < cur + Z.of_nat n) → sb_bread v' b = sb_bread v b).
Proof.
  revert v cur off. induction n as [|n IH]; intros v cur off.
  - intros [= <- <-]. done.
  - cbn [write_bitmap]. destruct (sb_bread v cur) as [bh|]; [|by intros [= <- <-]].
    intros Hw. apply IH in Hw as (Hs & Hc & Hb).
    do 2 (split; [done|]). intros b Hout. rewrite Hb by lia.
    unfold sb_bread. simpl. apply lookup_insert_ne. lia.
Qed.

(** X16.  Whatever it returns, [pnlfs_sync_fs] leaves the in-memory state as it
    was and writes to no block outside the superblock and the two
    bitmaps; in the superblock it writes the two counters only. *)
Theorem sync_fs_writes_allocation_blocks_only (v : volume) (psb : list Z)
    (r : Z) (v' : volume) :
  let s := sbi v in
  0 ≤ nr_istore_blocks s → 0 ≤ nr_ifree_blocks s → 0 ≤ nr_bfree_blocks s →
  1 + nr_istore_blocks s + nr_ifree_blocks s + nr_bfree_blocks s < 2 ^ 32 →
  sb_bread v 0 = Some psb →
  pnlfs_sync_fs v = (r, v') →
  sbi v' = s ∧ icache v' = icache v ∧
  (∀ b, b ≠ 0 →
        ¬ (1 + nr_istore_blocks s ≤ b
           < 1 + nr_istore_blocks s + nr_ifree_blocks s + nr_bfree_blocks s) →
        sb_bread v' b = sb_bread v b) ∧
  ∃ psb', sb_bread v' 0 = Some psb' ∧ length psb' = length psb ∧
          take 24 psb' = take 24 psb ∧ drop 32 psb' = drop 32 psb.
Proof.
  intros s Hist Hni Hnb Hwrap Hsb. unfold pnlfs_sync_fs. fold s.
  change PNLFS_SB_BLOCK_NR with 0. rewrite Hsb. cbv zeta.
  set (psb' := write_bytes
                 (write_bytes psb 24 (cpu_to_le32 (nr_free_inodes s)))
                 28 (cpu_to_le32 (nr_free_blocks s))).
  set (v1 := with_block v 0 psb').
  rewrite (u32_small (1 + nr_istore_blocks s)) by lia.
  rewrite (u32_small (1 + nr_istore_blocks s + nr_ifree_blocks s)) by lia.
  rewrite Z.max_r by lia.
  rewrite (u32_small (1 + nr_istore_blocks s + nr_ifree_blocks s
                      + nr_bfree_blocks s)) by lia.
  destruct (write_bitmap v1 _ _ _ _) as [ok2 v2] eqn:Hw2.
  apply write_bitmap_frame in Hw2 as (Hs2 & Hc2 & Hb2).
  assert (Hv1 : ∀ b, b ≠ 0 → sb_bread v1 b = sb_bread v b).
  { intros b Hb. unfold sb_bread, v1. simpl. by rewrite lookup_insert_ne. }
  assert (Hpsb' : length psb' = length psb ∧ take 24 psb' = take 24 psb
                  ∧ drop 32 psb' = drop 32 psb).
  { unfold psb'. rewrite !write_bytes_length. split; [done|]. split.
    - by rewrite !write_bytes_take by lia.
    - apply list_eq. intros i. rewrite !lookup_drop. unfold write_bytes.
      by rewrite !list_lookup_inserts_ge by (rewrite cpu_to_le32_length; lia). }
  assert (Hend : ∀ v3, sbi v3 = sbi v2 → icache v3 = icache v2 →
            (∀ b, ¬ (1 + nr_istore_blocks s + nr_ifree_blocks s ≤ b
                     < 1 + nr_istore_blocks s + nr_ifree_blocks s
                       + nr_bfree_blocks s) → sb_bread v3 b = sb_bread v2 b) →
            sbi v3 = s ∧ icache v3 = icache v ∧
            (∀ b, b ≠ 0 →
               ¬ (1 + nr_istore_blocks s ≤ b
                  < 1 + nr_istore_blocks s + nr_ifree_blocks s
                    + nr_bfree_blocks s) →
               sb_bread v3 b = sb_bread v b) ∧
            ∃ psb0, sb_bread v3 0 = Some psb0 ∧ length psb0 = length psb ∧
                    take 24 psb0 = take 24 psb ∧ drop 32 psb0 = drop 32 psb).
  { intros v3 Hs3 Hc3 Hb3. split; [by rewrite Hs3, Hs2|].
    split; [by rewrite Hc3, Hc2|]. split.
    - intros b Hb0 Hout. rewrite Hb3 by lia. rewrite Hb2 by lia.
      by apply Hv1.
    - exists psb'. split; [|done].
      rewrite Hb3 by lia. rewrite Hb2 by lia.
      unfold sb_bread, v1. simpl. by rewrite lookup_insert_eq. }
  destruct ok2.
  - destruct (write_bitmap v2 _ _ _ _) as [ok3 v3] eqn:Hw3.
    apply write_bitmap_frame in Hw3 as (Hs3 & Hc3 & Hb3).
    assert (Hres : ∀ b, ¬ (1 + nr_istore_blocks s + nr_ifree_blocks s ≤ b
                     < 1 + nr_istore_blocks s + nr_ifree_blocks s
                       + nr_bfree_blocks s) → sb_bread v3 b = sb_bread v2 b).
    { intros b Hb. apply Hb3. lia. }
    destruct ok3; intros [= <- <-]; by apply Hend.
  - intros [= <- <-]. apply Hend; done.
Qed.

Lemma sync_fs_writes_allocation_blocks_only_witness :
  sb_bread vol_a_txt 0 = Some (block_of vol_a_txt 0) ∧
  fst (pnlfs_sync_fs vol_a_txt) = 0 ∧
  sb_bread (snd (pnlfs_sync_fs vol_a_txt)) 4 = sb_bread vol_a_txt 4 ∧
  sb_bread (snd (pnlfs_sync_fs vol_a_txt)) 1 = sb_bread vol_a_txt 1.
Proof.
  assert (Hi : nr_istore_blocks (sbi vol_a_txt) = 1) by evaluate.
  assert (Hf : nr_ifree_blocks (sbi vol_a_txt) = 1) by evaluate.
  assert (Hb : nr_bfree_blocks (sbi vol_a_txt) = 1) by evaluate.
  assert (H1 : 0 ≤ nr_istore_blocks (sbi vol_a_txt)) by (rewrite Hi; lia).
  assert (H2 : 0 ≤ nr_ifree_blocks (sbi vol_a_txt)) by (rewrite Hf; lia).
  assert (H3 : 0 ≤ nr_bfree_blocks (sbi vol_a_txt)) by (rewrite Hb; lia).
  assert (H4 : 1 + nr_istore_blocks (sbi vol_a_txt)
               + nr_ifree_blocks (sbi vol_a_txt)
               + nr_bfree_blocks (sbi vol_a_txt) < 2 ^ 32)
    by (rewrite Hi, Hf, Hb; lia).
  assert (H5 : sb_bread vol_a_txt 0 = Some (block_of vol_a_txt 0)) by evaluate.
  assert (H6 : fst (pnlfs_sync_fs vol_a_txt) = 0) by evaluate.
  assert (H7 : pnlfs_sync_fs vol_a_txt = (0, snd (pnlfs_sync_fs vol_a_txt)))
    by (rewrite <- H6; apply surjective_pairing).
  do 2 (split; [assumption|]).
  destruct (sync_fs_writes_allocation_blocks_only vol_a_txt _ 0 _
              H1 H2 H3 H4 H5 H7) as (_ & _ & Hother & _).
  split; apply Hother; rewrite ?Hi, ?Hf, ?Hb; lia.
Defined.

(** ** What mounting establishes *)

Lemma byte_at_range (b : list Z) (i : nat) :
  Forall (fun x => 0 ≤ x < 256) b → 0 ≤ byte_at b i < 256.
Proof.
  intros Hb. unfold byte_at. destruct (b !! i) as [x|] eqn:Hx; simpl; [|lia].
  rewrite Forall_lookup in Hb. by apply (Hb i).
Qed.

Lemma le32_at_range (b : list Z) (off : nat) :
  Forall (fun x => 0 ≤ x < 256) b → 0 ≤ le32_at b off < 2 ^ 32.
Proof.
  intros Hb. unfold le32_at.
  pose proof (byte_at_range b off Hb).
  pose proof (byte_at_range b (off + 1) Hb).
  pose proof (byte_at_range b (off + 2) Hb).
  pose proof (byte_at_range b (off + 3) Hb). lia.
Qed.

Lemma le64_at_range (b : list Z) (off : nat) :
  Forall (fun x => 0 ≤ x < 256) b → 0 ≤ le64_at b off < 2 ^ 64.
Proof.
  intros Hb. unfold le64_at.
  pose proof (le32_at_range b off Hb).
  pose proof (le32_at_range b (off + 4) Hb). lia.
Qed.

Lemma block_words_length (bh : list Z) :
  length (block_words bh) = Z.to_nat PNLFS_NR_WORDS_IN_BLOCK.
Proof. unfold block_words. by rewrite length_fmap, length_seq. Qed.

Lemma block_words_range (bh : list Z) :
  Forall (fun x => 0 ≤ x < 256) bh →
  Forall (fun w => 0 ≤ w < 2 ^ 64) (block_words bh).
Proof.
  intros Hb. unfold block_words. apply Forall_fmap, Forall_forall.
  intros k _. by apply le64_at_range.
Qed.

Lemma read_bitmap_Some (disk : gmap Z (list Z)) (cur : Z) (n : nat)
    (bm : list Z) :
  (∀ b bh, disk !! b = Some bh → Forall (fun x => 0 ≤ x < 256) bh) →
  read_bitmap disk cur n = Some bm →
  length bm = (n * Z.to_nat PNLFS_NR_WORDS_IN_BLOCK)%nat ∧
  Forall (fun w => 0 ≤ w < 2 ^ 64) bm ∧
  ∀ b, cur ≤ b < cur + Z.of_nat n → is_Some (disk !! b).
Proof.
  intros Hbytes. revert cur bm. induction n as [|n IH]; intros cur bm.
  - intros [= <-]. split; [done|]. split; [done|]. intros; lia.
  - rewrite read_bitmap_S.
    destruct (disk !! cur) as [bh|] eqn:Hbh; [|done].
    cbv beta iota delta [mbind option_bind].
    destruct (read_bitmap disk (cur + 1) n) as [rest|] eqn:Hrest; [|done].
    intros Heq%(inj Some). subst bm.
    destruct (IH _ _ Hrest) as (Hlen & Hrange & Hread).
    split; [|split].
    + rewrite length_app, block_words_length, Hlen. lia.
    + apply Forall_app. split; [|done].
      apply block_words_range. by apply (Hbytes cur).
    + intros b Hb. destruct (decide (b = cur)) as [->|Hne]; [eauto|].
      apply Hread. lia.
Qed.

(** X17.  A successful [pnlfs_fill_super] on a device whose blocks are 4096
    bytes long, with a layout that does not wrap around, yields a volume
    over the same blocks whose allocation state is well formed and agrees
    with the superblock, and whose inode cache holds the root alone. *)
Theorem fill_super_establishes_layout (disk : gmap Z (list Z))
    (psb : list Z) (v : volume) :
  disk !! 0 = Some psb →
  (∀ b bh, disk !! b = Some bh →
     length bh = Z.to_nat PNLFS_BLOCK_SIZE ∧
     Forall (fun x => 0 ≤ x < 256) bh) →
  1 + superblock_field psb 3 + superblock_field psb 4
  + superblock_field psb 5 < 2 ^ 32 →
  pnlfs_fill_super disk = Some (Some v) →
  blocks v = disk ∧ sbi_wf (sbi v) ∧ layout_on_disk v psb ∧
  (∀ k, is_Some (icache v !! k) ↔ k = 0).
Proof.
  intros Hsb Hdisk Hwrap. unfold pnlfs_fill_super. rewrite Hsb. cbv zeta.
  assert (Hbytes : ∀ b bh, disk !! b = Some bh →
                           Forall (fun x => 0 ≤ x < 256) bh)
    by (intros b bh Hb; by apply (Hdisk b)).
  assert (Hf : ∀ k, 0 ≤ superblock_field psb k < 2 ^ 32)
    by (intros k; apply le32_at_range; by apply (Hbytes 0)).
  pose proof (Hf 3%nat) as Hf3. pose proof (Hf 4%nat) as Hf4.
  pose proof (Hf 5%nat) as Hf5. pose proof (Hf 6%nat) as Hf6.
  pose proof (Hf 7%nat) as Hf7.
  remember (superblock_field psb 1) as f1 eqn:E1.
  remember (superblock_field psb 2) as f2 eqn:E2.
  remember (superblock_field psb 3) as f3 eqn:E3.
  remember (superblock_field psb 4) as f4 eqn:E4.
  remember (superblock_field psb 5) as f5 eqn:E5.
  remember (superblock_field psb 6) as f6 eqn:E6.
  remember (superblock_field psb 7) as f7 eqn:E7.
  rewrite (u32_small (1 + f3)) by lia.
  rewrite (u32_small (1 + f3 + f4)) by lia.
  rewrite Z.max_r by lia.
  rewrite (u32_small (1 + f3 + f4 + f5)) by lia.
  replace (1 + f3 + f4 - (1 + f3)) with f4 by lia.
  replace (1 + f3 + f4 + f5 - (1 + f3 + f4)) with f5 by lia.
  destruct (read_bitmap disk (1 + f3) (Z.to_nat f4)) as [ibm|] eqn:Hi; [|done].
  destruct (read_bitmap disk (1 + f3 + f4) (Z.to_nat f5)) as [bbm|] eqn:Hb;
    [|done].
  destruct (read_bitmap_Some _ _ _ _ Hbytes Hi) as (Hli & Hri & Hreadi).
  destruct (read_bitmap_Some _ _ _ _ Hbytes Hb) as (Hlb & Hrb & Hreadb).
  set (s := mk_sbi f1 f2 f3 f4 f5 f6 f7 ibm bbm).
  destruct (pnlfs_iget (mk_volume s ∅ disk) 0) as [[p|] v0] eqn:Hg; [|done].
  intros Heq%(inj Some)%(inj Some). subst v0.
  pose proof (pnlfs_iget_spec _ _ _ _ Hg) as (Hs & Hbl & Hk & Hp).
  simpl in Hs, Hbl. split; [done|]. split; [|split].
  - rewrite Hs. unfold sbi_wf, s. simpl.
    change PNLFS_NR_WORDS_IN_BLOCK with 512.
    change (Z.to_nat PNLFS_NR_WORDS_IN_BLOCK) with 512%nat in Hli, Hlb.
    repeat split; (done || lia).
  - unfold layout_on_disk. rewrite Hs. cbv zeta. unfold sb_bread. rewrite Hbl.
    unfold s. simpl. rewrite <- E1, <- E2, <- E3, <- E4, <- E5.
    split; [done|]. split; [by apply (Hdisk 0)|].
    do 5 (split; [done|]). do 2 (split; [lia|]).
    intros b Hrange.
    assert (Hsome : is_Some (disk !! b)).
    { destruct (decide (b < 1 + f3 + f4)).
      - apply Hreadi. lia.
      - apply Hreadb. lia. }
    destruct Hsome as [bh Hbh]. exists bh. split; [done|].
    by apply (Hdisk b).
  - intros k. destruct (Hp p eq_refl) as [_ Hroot].
    destruct (decide (k = 0)) as [->|Hne]; [done|].
    rewrite Hk by done. simpl. rewrite lookup_empty.
    split; [by intros [? [=]]|done].
Qed.

Lemma fill_super_establishes_layout_witness :
  fresh_image !! 0 = Some (block_of vol0 0) ∧
  pnlfs_fill_super fresh_image = Some (Some vol0) ∧
  blocks vol0 = fresh_image ∧ sbi_wf (sbi vol0) ∧
  layout_on_disk vol0 (block_of vol0 0).
Proof.
  assert (H1 : fresh_image !! 0 = Some (block_of vol0 0)) by evaluate.
  assert (H2 : ∀ b bh, fresh_image !! b = Some bh →
               length bh = Z.to_nat PNLFS_BLOCK_SIZE ∧
               Forall (fun x => 0 ≤ x < 256) bh).
  { apply map_Forall_lookup. apply (bool_decide_unpack _).
    vm_compute. exact I. }
  assert (H3 : 1 + superblock_field (block_of vol0 0) 3
               + superblock_field (block_of vol0 0) 4
               + superblock_field (block_of vol0 0) 5 < 2 ^ 32) by evaluate.
  assert (H4 : pnlfs_fill_super fresh_image = Some (Some vol0)) by evaluate.
  do 2 (split; [assumption|]).
  destruct (fill_super_establishes_layout fresh_image (block_of vol0 0) vol0
              H1 H2 H3 H4) as (Hb & Hwf & Hlay & _).
  do 2 (split; [assumption|]). assumption.
Defined.

(** ** What every operation preserves *)



























(** ** Resolution as a search of the entries, and round trips *)

Lemma name_matches_of_entry (name blk : list Z) (i : nat) :
  (length name ≤ Z.to_nat PNLFS_FILENAME_LEN)%nat →
  name_matches name blk i
  = c_strncmp name (drop 4 (file_entry blk i)) (length name).
Proof.
  intros Hlen. rewrite name_matches_filename by done.
  by rewrite file_entry_filename.
Qed.

Lemma file_inode_of_entry (blk : list Z) (i : nat) :
  file_inode blk i = le32_at (file_entry blk i) 0.
Proof.
  unfold file_inode, le32_at, byte_at. rewrite file_off_eq.
  rewrite !file_entry_lookup by lia.
  by rewrite Nat.add_0_r.
Qed.

Lemma scan_dir_list_find (name blk : list Z) (n i : nat) :
  (length name ≤ Z.to_nat PNLFS_FILENAME_LEN)%nat →
  from_option (file_inode blk) 0 (scan_dir name blk n i)
  = from_option (fun e => le32_at e 0) 0
      (snd <$> list_find
                 (fun e => c_strncmp name (drop 4 e) (length name) = true)
                 (file_entry blk <$> seq i n)).
Proof.
  intros Hlen. revert i. induction n as [|n IH]; intros i; [done|].
  cbn [scan_dir seq fmap list_fmap list_find].
  rewrite (name_matches_of_entry name blk i Hlen).
  destruct (c_strncmp name (drop 4 (file_entry blk i)) (length name)) eqn:Hm.
  - rewrite decide_True by done. simpl. apply file_inode_of_entry.
  - rewrite decide_False by (by intros [=]).
    rewrite IH. by destruct (list_find _ _) as [[j e]|].
Qed.

(** X19.  [pnlfs_inode_by_name] is a search of the entries of the directory in
    slot order: it returns the inode field of the first entry whose stored
    name agrees with the name looked up over the length of the latter, and
    0 when there is none. *)
Theorem inode_by_name_first_match (v : volume) (dir : Z) (name : list Z)
    (es : list (list Z)) :
  dir_entries v dir = Some es →
  (length name ≤ Z.to_nat PNLFS_FILENAME_LEN)%nat →
  pnlfs_inode_by_name v dir name
  = Some (from_option (fun e => le32_at e 0) 0
            (snd <$> list_find
                       (fun e => c_strncmp name (drop 4 e) (length name) = true)
                       es)).
Proof.
  unfold dir_entries, pnlfs_inode_by_name.
  destruct (icache v !! dir) as [dinfo|]; [|done].
  cbv beta iota delta [mbind option_bind].
  destruct (sb_bread v (index_block dinfo)) as [blk|]; [|done].
  cbv beta iota delta [mbind option_bind].
  intros [= <-] Hlen. rewrite <- scan_dir_list_find by done.
  by destruct (scan_dir _ _ _ _).
Qed.

Lemma inode_by_name_first_match_witness :
  dir_entries vol_ab 0
  = Some [file_entry (block_of vol_ab 4) 0; file_entry (block_of vol_ab 4) 1] ∧
  pnlfs_inode_by_name vol_ab 0 name_b = Some 2.
Proof.
  assert (H1 : dir_entries vol_ab 0
               = Some [file_entry (block_of vol_ab 4) 0;
                       file_entry (block_of vol_ab 4) 1]) by evaluate.
  assert (H2 : (length name_b ≤ Z.to_nat PNLFS_FILENAME_LEN)%nat)
    by (vm_compute; lia).
  split; [assumption|].
  rewrite (inode_by_name_first_match vol_ab 0 name_b _ H1 H2). evaluate.
Defined.







